(** * Resource introspection and bounded synthetic load

    A shallow embedding of [examples/05-volumes-memory/app.py]: the
    memory / disk / volume inspection handlers, the cgroup limit readers,
    the recursive directory helpers and the three load generators.

    Python values are embedded as follows.
    - [int] is [Z] (arbitrary precision), [float] is [Q].  An operation on
      floats is the exact operation followed by the rounding [fround] of the
      machine; the bounds proved on percentages assume of it what rounding to
      the nearest double gives: it is monotone and leaves 0, 1 and 100 as
      they are.
    - [bytes], and every [str] that the handlers build themselves, are
      [string]; the [str] read from a file is a [text], a list of code
      points, since [str.strip] and [int] go by the Unicode properties of
      what they read.
    - an index or a repetition count is a [Py_ssize_t]: the bounds are those
      of a 64-bit CPython, [sys.maxsize = 2^63 - 1].
    - a handler runs in a state-and-exception monad over [World], the
      operating system as the process sees it.  A raised exception keeps the
      state reached so far, as in Python.
    - the dictionaries returned by the handlers are association lists in
      insertion order. *)

From Stdlib Require Import ZArith NArith QArith List String Ascii Bool Lia Lqa.
From Stdlib Require Import DecimalString DecimalPos DecimalN DecimalZ DecimalFacts.
Import ListNotations.

Set Warnings "-register-all".

Local Open Scope string_scope.
Local Open Scope Z_scope.

(** ** Python exceptions *)

Module Py.

(** The exception classes that the handlers raise, catch or let through.
    [OSError] carries [errno], [strerror] and the optional [filename];
    CPython picks the subclass ([PermissionError], [FileNotFoundError], ...)
    from [errno]. *)
Inductive exn : Type :=
| OSError (errno : Z) (strerror : string) (filename : option string)
| ZeroDivisionError (msg : string)
| ValueError (msg : string)
| IndexError (msg : string)
| OverflowError (msg : string)
| UnicodeDecodeError
| MemoryError
| HTTPException (status_code : Z) (detail : string).

Definition EPERM : Z := 1.
Definition ENOENT : Z := 2.
Definition EACCES : Z := 13.
Definition EEXIST : Z := 17.
Definition ENOTDIR : Z := 20.
Definition EISDIR : Z := 21.
Definition ENOSPC : Z := 28.

Definition is_OSError (e : exn) : bool :=
  match e with OSError _ _ _ => true | _ => false end.

(** [PermissionError] is the [OSError] of [EACCES] and [EPERM]. *)
Definition is_PermissionError (e : exn) : bool :=
  match e with
  | OSError n _ _ => (n =? EACCES) || (n =? EPERM)
  | _ => false
  end.

(** [FileExistsError] is the [OSError] of [EEXIST]. *)
Definition is_FileExistsError (e : exn) : bool :=
  match e with
  | OSError n _ _ => n =? EEXIST
  | _ => false
  end.

Definition is_MemoryError (e : exn) : bool :=
  match e with MemoryError => true | _ => false end.

(** Every class above derives from [Exception]. *)
Definition is_Exception (e : exn) : bool := true.

(** [str(n)] for an [int]. *)
Definition str_int (n : Z) : string := NilZero.string_of_int (Z.to_int n).

(** [str(e)]; the text of a [UnicodeDecodeError], which names the byte and
    its position, is not reproduced: no handler reads it. *)
Definition str_exn (e : exn) : string :=
  match e with
  | OSError n s None => "[Errno " ++ str_int n ++ "] " ++ s
  | OSError n s (Some f) => "[Errno " ++ str_int n ++ "] " ++ s ++ ": '" ++ f ++ "'"
  | ZeroDivisionError m => m
  | ValueError m => m
  | IndexError m => m
  | OverflowError m => m
  | UnicodeDecodeError => "codec can't decode bytes"
  | MemoryError => EmptyString
  | HTTPException c d => str_int c ++ ": " ++ d
  end.

Inductive result (A : Type) : Type :=
| Ok (a : A)
| Raise (e : exn).
Arguments Ok {A} a.
Arguments Raise {A} e.

Definition raised {A} (r : result A) : bool :=
  match r with Ok _ => false | Raise _ => true end.

(** JSON-shaped values of the responses. *)
Inductive value : Type :=
| VNone
| VBool (b : bool)
| VInt (n : Z)
| VFloat (q : Q)
| VStr (s : string)
| VList (l : list value)
| VDict (kv : list (string * value)).

Fixpoint assoc {A} (k : string) (kv : list (string * A)) : option A :=
  match kv with
  | [] => None
  | (k', v) :: rest => if String.eqb k k' then Some v else assoc k rest
  end.

(** [d[k]] on a response, [None] when [d] is not a dict or has no key [k]. *)
Definition dict_get (k : string) (d : value) : option value :=
  match d with VDict kv => assoc k kv | _ => None end.

Definition of_option_str (o : option string) : value :=
  match o with Some s => VStr s | None => VNone end.

Definition of_option_int (o : option Z) : value :=
  match o with Some n => VInt n | None => VNone end.

(** *** Index-sized integers *)

(** [sys.maxsize], the largest [Py_ssize_t], on a 64-bit CPython. *)
Definition maxsize : Z := 9223372036854775807.

(** The smallest [Py_ssize_t]. *)
Definition minsize : Z := - maxsize - 1.

(** The [int] [n] fits a [Py_ssize_t]; otherwise its conversion to an index
    or to a count raises [OverflowError]. *)
Definition index_sized (n : Z) : bool := (minsize <=? n) && (n <=? maxsize).

Definition index_overflow : exn :=
  OverflowError "cannot fit 'int' into an index-sized integer".

(** *** Text *)

(** Every character of [s] satisfies [P]. *)
Definition all_chars (P : ascii -> bool) (s : string) : bool :=
  forallb P (list_ascii_of_string s).

(** A [str] as a sequence of code points. *)
Definition text : Type := list N.

Definition text_of_string (s : string) : text :=
  map N_of_ascii (list_ascii_of_string s).

Definition between (lo hi c : N) : bool := ((lo <=? c) && (c <=? hi))%N.

(** [str.isspace] on one code point: the characters of bidirectional type
    WS, B or S and those of category Zs. *)
Definition whitespace : list (N * N) :=
  [(9, 13); (28, 32); (133, 133); (160, 160); (5760, 5760); (8192, 8202);
   (8232, 8233); (8239, 8239); (8287, 8287); (12288, 12288)]%N.

Definition isspace (c : N) : bool :=
  existsb (fun range => between (fst range) (snd range) c) whitespace.

(** The code points of the digit zero of each script with decimal digits
    (category Nd, Unicode 14.0, the database of CPython 3.11); the other
    nine digits of a script follow its zero. *)
Definition decimal_zeros : list N :=
  [48; 1632; 1776; 1984; 2406; 2534; 2662; 2790; 2918; 3046; 3174; 3302;
   3430; 3558; 3664; 3792; 3872; 4160; 4240; 6112; 6160; 6470; 6608; 6784;
   6800; 6992; 7088; 7232; 7248; 42528; 43216; 43264; 43472; 43504; 43600;
   44016; 65296; 66720; 68912; 69734; 69872; 69942; 70096; 70384; 70736;
   70864; 71248; 71360; 71472; 71904; 72016; 72784; 73040; 73120; 92768;
   92864; 93008; 120782; 120792; 120802; 120812; 120822; 123200; 123632;
   125264; 130032]%N.

(** The decimal value of a code point ([Py_UNICODE_TODECIMAL]). *)
Definition todecimal (c : N) : option N :=
  match find (fun zero => between zero (zero + 9) c) decimal_zeros with
  | Some zero => Some (c - zero)%N
  | None => None
  end.

Fixpoint lstrip (s : text) : text :=
  match s with
  | c :: rest => if isspace c then lstrip rest else s
  | [] => []
  end.

(** Strips trailing whitespace; the result is empty when [s] is all
    whitespace. *)
Fixpoint rstrip (s : text) : text :=
  match s with
  | [] => []
  | c :: rest =>
      match rstrip rest with
      | [] => if isspace c then [] else [c]
      | r => c :: r
      end
  end.

(** [s.strip()]. *)
Definition strip (s : text) : text := rstrip (lstrip s).

(** *** Decoding

    What [open(p, 'r')] does to the bytes of a file: it decodes them with
    the encoding of the locale, strictly, and turns every line ending into a
    line feed. *)

Inductive codec : Type := UTF8 | Latin1 | ASCII.

(** The payload of a UTF-8 continuation byte. *)
Definition continuation (c : ascii) : option N :=
  let b := N_of_ascii c in
  if between 128 191 b then Some (b - 128)%N else None.

(** Strict UTF-8: no overlong form, no surrogate, nothing above U+10FFFF. *)
Fixpoint utf8_decode (s : string) : option text :=
  match s with
  | EmptyString => Some []
  | String c0 s1 =>
      let b0 := N_of_ascii c0 in
      if (b0 <? 128)%N then option_map (cons b0) (utf8_decode s1)
      else if between 194 223 b0 then
        match s1 with
        | String c1 s2 =>
            match continuation c1 with
            | Some x1 => option_map (cons ((b0 - 192) * 64 + x1)%N) (utf8_decode s2)
            | None => None
            end
        | EmptyString => None
        end
      else if between 224 239 b0 then
        match s1 with
        | String c1 (String c2 s3) =>
            match continuation c1, continuation c2 with
            | Some x1, Some x2 =>
                let point := ((b0 - 224) * 4096 + x1 * 64 + x2)%N in
                if (point <? 2048)%N || between 55296 57343 point then None
                else option_map (cons point) (utf8_decode s3)
            | _, _ => None
            end
        | _ => None
        end
      else if between 240 244 b0 then
        match s1 with
        | String c1 (String c2 (String c3 s4)) =>
            match continuation c1, continuation c2, continuation c3 with
            | Some x1, Some x2, Some x3 =>
                let point := ((b0 - 240) * 262144 + x1 * 4096 + x2 * 64 + x3)%N in
                if (point <? 65536)%N || (1114111 <? point)%N then None
                else option_map (cons point) (utf8_decode s4)
            | _, _, _ => None
            end
        | _ => None
        end
      else None
  end.

(** [bytes.decode(encoding)] with [errors='strict']; [None] stands for
    [UnicodeDecodeError]. *)
Definition decode (encoding : codec) (s : string) : option text :=
  match encoding with
  | UTF8 => utf8_decode s
  | Latin1 => Some (text_of_string s)
  | ASCII =>
      if all_chars (fun c => (N_of_ascii c <? 128)%N) s then Some (text_of_string s)
      else None
  end.

(** Universal newlines: a carriage return, with the line feed that follows
    it if there is one, is read as one line feed. *)
Fixpoint universal_newlines (s : text) : text :=
  match s with
  | [] => []
  | c :: rest =>
      if (c =? 13)%N then
        (10 :: match rest with
               | c' :: rest' =>
                   if (c' =? 10)%N then universal_newlines rest'
                   else universal_newlines rest
               | [] => []
               end)%N
      else c :: universal_newlines rest
  end.

(** *** [int] of a [str] *)

(** [int] first rewrites its argument into ASCII
    ([_PyUnicode_TransformDecimalAndSpaceToASCII]): an ASCII string is taken
    as it is; in any other, whitespace becomes a blank, a decimal digit of
    any script its ASCII digit, and the string is cut with a question mark at
    the first character that is neither. *)
Fixpoint transform (s : text) : string :=
  match s with
  | [] => EmptyString
  | c :: rest =>
      if (c <? 127)%N then String (ascii_of_N c) (transform rest)
      else if isspace c then String " " (transform rest)
      else
        match todecimal c with
        | Some d => String (ascii_of_N (48 + d)) (transform rest)
        | None => "?"
        end
  end.

Definition to_ascii (s : text) : string :=
  if forallb (fun c => (c <? 128)%N) s then string_of_list_ascii (map ascii_of_N s)
  else transform s.

(** [Py_ISSPACE], the blanks that the parser of [int] skips. *)
Definition is_blank (c : ascii) : bool :=
  let n := N_of_ascii c in
  (between 9 13 n || (n =? 32))%N.

Fixpoint lstrip_blanks (s : string) : string :=
  match s with
  | String c rest => if is_blank c then lstrip_blanks rest else s
  | EmptyString => EmptyString
  end.

Definition digit_of (c : ascii) : option N :=
  let n := N_of_ascii c in
  if ((48 <=? n) && (n <=? 57))%N then Some (n - 48)%N else None.

Definition is_digit (c : ascii) : bool :=
  match digit_of c with Some _ => true | None => false end.

(** The longest prefix of digits and underscores, and what follows it. *)
Fixpoint span_digits (s : string) : string * string :=
  match s with
  | EmptyString => (EmptyString, EmptyString)
  | String c rest =>
      if is_digit c || Ascii.eqb c "_" then
        let '(digits, tail) := span_digits rest in (String c digits, tail)
      else (EmptyString, s)
  end.

(** The digits of an integer literal: decimal digits, where single
    underscores may separate digits.  [prev_digit] tells whether the
    character just read was a digit. *)
Fixpoint int_digits (acc : N) (prev_digit : bool) (s : string) : option N :=
  match s with
  | EmptyString => if prev_digit then Some acc else None
  | String c rest =>
      match digit_of c with
      | Some d => int_digits (10 * acc + d)%N true rest
      | None =>
          if Ascii.eqb c "_" && prev_digit
          then match rest with
               | EmptyString => None
               | String c' _ =>
                   match digit_of c' with
                   | Some _ => int_digits acc false rest
                   | None => None
                   end
               end
          else None
      end
  end.

Definition count_digits (s : string) : N :=
  N.of_nat (List.length (filter is_digit (list_ascii_of_string s))).

(** The limit on the digits of a decimal literal
    ([sys.get_int_max_str_digits()], 4300 unless set otherwise, 0 for no
    limit; an interpreter without the limit has 0).  Literals of up to 640
    digits are never refused. *)
Definition exceeds_limit (max_str_digits digits : N) : bool :=
  ((640 <? digits) && (0 <? max_str_digits) && (max_str_digits <? digits))%N.

Definition invalid_literal : exn :=
  ValueError "invalid literal for int() with base 10".

Definition over_limit (max_str_digits digits : N) : exn :=
  ValueError ("Exceeds the limit (" ++ str_int (Z.of_N max_str_digits)
              ++ " digits) for integer string conversion: value has "
              ++ str_int (Z.of_N digits)
              ++ " digits; use sys.set_int_max_str_digits() to increase the limit").

(** [int(s)] in base 10: blanks, an optional sign, the digits, blanks.
    The digits are validated first, then counted against the limit, and
    what follows them is looked at last.  The message of an invalid literal
    ends with the [repr] of [s] in CPython; it stops before it here, and no
    handler reads it. *)
Definition int_of_str (max_str_digits : N) (s : text) : result Z :=
  let '(negative, body) :=
    match lstrip_blanks (to_ascii s) with
    | String c rest =>
        if Ascii.eqb c "-" then (true, rest)
        else if Ascii.eqb c "+" then (false, rest)
        else (false, String c rest)
    | EmptyString => (false, EmptyString)
    end in
  let '(digits, tail) := span_digits body in
  match int_digits 0 false digits with
  | None => Raise invalid_literal
  | Some n =>
      if exceeds_limit max_str_digits (count_digits digits)
      then Raise (over_limit max_str_digits (count_digits digits))
      else if all_chars is_blank tail
      then Ok (if negative then - Z.of_N n else Z.of_N n)
      else Raise invalid_literal
  end.

(** [c * k] for a one-character [bytes] or [str] [c]: empty when [k <= 0]. *)
Definition repeat_char (c : ascii) (k : Z) : string :=
  if k <=? 0 then EmptyString
  else string_of_list_ascii (repeat c (Z.to_nat k)).

Definition len (s : string) : Z := Z.of_nat (String.length s).

(** [range(start, stop, step)] for [step > 0]. *)
Definition range3 (start stop step : Z) : list Z :=
  if stop <=? start then []
  else map (fun k => start + Z.of_nat k * step)
           (seq 0 (Z.to_nat ((stop - start + step - 1) / step))).

(** *** Paths ([posixpath]) *)

(** [os.path.join(a, b)]. *)
Definition join (a b : string) : string :=
  match b with
  | String "/" _ => b
  | _ =>
      match a with
      | EmptyString => b
      | _ =>
          match get (String.length a - 1) a with
          | Some "/"%char => a ++ b
          | _ => a ++ "/" ++ b
          end
      end
  end.

Fixpoint split_on (sep : ascii) (cur : string) (s : string) : list string :=
  match s with
  | EmptyString => [cur]
  | String c rest =>
      if Ascii.eqb c sep then cur :: split_on sep EmptyString rest
      else split_on sep (cur ++ String c EmptyString) rest
  end.

(** The components of a path, from the root. *)
Definition components (p : string) : list string :=
  filter (fun c => negb (String.eqb c EmptyString)) (split_on "/" EmptyString p).

Fixpoint rstrip_slash (s : string) : string :=
  match s with
  | EmptyString => EmptyString
  | String c rest =>
      match rstrip_slash rest with
      | EmptyString => if Ascii.eqb c "/" then EmptyString else String c EmptyString
      | r => String c r
      end
  end.

(** [p[:i]] for [i = p.rfind('/') + 1], [None] when [p] has no slash. *)
Fixpoint upto_last_slash (p : string) : option string :=
  match p with
  | EmptyString => None
  | String c rest =>
      match upto_last_slash rest with
      | Some h => Some (String c h)
      | None => if Ascii.eqb c "/" then Some (String c EmptyString) else None
      end
  end.

(** [os.path.dirname(p)]: what precedes the last slash, without the
    slashes that end it unless it consists of slashes only. *)
Definition dirname (p : string) : string :=
  let head := match upto_last_slash p with Some h => h | None => EmptyString end in
  match rstrip_slash head with
  | EmptyString => head
  | h => h
  end.

(** [os.path.basename(p)]: what follows the last slash. *)
Definition basename (p : string) : string :=
  match upto_last_slash p with
  | Some h => substring (String.length h) (String.length p - String.length h) p
  | None => p
  end.

(** [os.path.split(p)]. *)
Definition split (p : string) : string * string := (dirname p, basename p).

Definition nonempty (s : string) : bool :=
  match s with EmptyString => false | String _ _ => true end.

End Py.

(** ** The operating system as the service sees it *)

Module OS.
Import Py.

(** A file-system tree.  A directory lists its entries in the order in
    which [scandir] returns them. *)
Inductive node : Type :=
| File (data : string)
| Dir (entries : list (string * node)).

Definition is_dir (n : node) : bool :=
  match n with Dir _ => true | File _ => false end.

Fixpoint lookup (n : node) (p : list string) : option node :=
  match p with
  | [] => Some n
  | c :: p' =>
      match n with
      | Dir es => match assoc c es with Some m => lookup m p' | None => None end
      | File _ => None
      end
  end.

Fixpoint set_entry (c : string) (m : node) (es : list (string * node))
  : list (string * node) :=
  match es with
  | [] => [(c, m)]
  | (k, v) :: rest =>
      if String.eqb c k then (c, m) :: rest else (k, v) :: set_entry c m rest
  end.

Definition del_entry (c : string) (es : list (string * node)) : list (string * node) :=
  filter (fun kv => negb (String.eqb c (fst kv))) es.

(** Binds the last component of [p] to [m] in an existing directory. *)
Fixpoint put (n : node) (p : list string) (m : node) : option node :=
  match p with
  | [] => None
  | c :: p' =>
      match n with
      | File _ => None
      | Dir es =>
          match p' with
          | [] => Some (Dir (set_entry c m es))
          | _ =>
              match assoc c es with
              | Some child =>
                  match put child p' m with
                  | Some child' => Some (Dir (set_entry c child' es))
                  | None => None
                  end
              | None => None
              end
          end
      end
  end.

(** Unlinks the last component of [p]. *)
Fixpoint unlink (n : node) (p : list string) : option node :=
  match p with
  | [] => None
  | c :: p' =>
      match n with
      | File _ => None
      | Dir es =>
          match p' with
          | [] => Some (Dir (del_entry c es))
          | _ =>
              match assoc c es with
              | Some child =>
                  match unlink child p' with
                  | Some child' => Some (Dir (set_entry c child' es))
                  | None => None
                  end
              | None => None
              end
          end
      end
  end.

(** [mkdir(2)] on the last component of [p]: the new tree, or the error.
    The path must not exist, and what precedes its last component must be a
    directory. *)
Fixpoint make_dir (n : node) (p : list string) : node + Z * string :=
  match p with
  | [] => inr (EEXIST, "File exists")
  | c :: p' =>
      match n with
      | File _ => inr (ENOTDIR, "Not a directory")
      | Dir es =>
          match p' with
          | [] =>
              match assoc c es with
              | Some _ => inr (EEXIST, "File exists")
              | None => inl (Dir (set_entry c (Dir []) es))
              end
          | _ =>
              match assoc c es with
              | Some child =>
                  match make_dir child p' with
                  | inl child' => inl (Dir (set_entry c child' es))
                  | inr err => inr err
                  end
              | None => inr (ENOENT, "No such file or directory")
              end
          end
      end
  end.

(** Why [p] resolves to nothing: a component is missing, or a regular file
    stands where a directory is needed. *)
Fixpoint why_absent (n : node) (p : list string) : Z * string :=
  match p with
  | [] => (ENOENT, "No such file or directory")
  | c :: p' =>
      match n with
      | File _ => (ENOTDIR, "Not a directory")
      | Dir es =>
          match assoc c es with
          | Some child => why_absent child p'
          | None => (ENOENT, "No such file or directory")
          end
      end
  end.

(** The system calls into which the environment can inject an error. *)
Inductive syscall : Type :=
| SysStat | SysScandir | SysOpenRead | SysOpenWrite | SysWrite
| SysMkdir | SysUnlink | SysStatvfs.

Definition syscall_eqb (a b : syscall) : bool :=
  match a, b with
  | SysStat, SysStat | SysScandir, SysScandir | SysOpenRead, SysOpenRead
  | SysOpenWrite, SysOpenWrite | SysWrite, SysWrite | SysMkdir, SysMkdir
  | SysUnlink, SysUnlink | SysStatvfs, SysStatvfs => true
  | _, _ => false
  end.

(** [psutil.virtual_memory()]; [cached] and [buffers] exist on some
    platforms only. *)
Record svmem : Type := {
  vm_total : Z; vm_available : Z; vm_used : Z; vm_free : Z;
  vm_percent : Q;
  vm_cached : option Z; vm_buffers : option Z
}.

(** [psutil.swap_memory()]. *)
Record sswap : Type := {
  sw_total : Z; sw_used : Z; sw_free : Z; sw_percent : Q
}.

(** An element of [psutil.disk_partitions()]. *)
Record sdiskpart : Type := {
  device : string; mountpoint : string; fstype : string
}.

(** The [total], [used] and [free] of [shutil.disk_usage] and of
    [psutil.disk_usage]. *)
Record sdiskusage : Type := {
  du_total : Z; du_used : Z; du_free : Z
}.

(** The state of the machine.  [root], [allocated] and [ticks] change as the
    handlers run; the other fields are the behaviour of the environment.
    - [fault c p] is the error that system call [c] on path [p] meets, as
      [(errno, strerror)].  [os.path.exists] is answered from [root] alone, so
      a world whose tree holds [p] while [fault SysStat p] is set is one where
      [p] became unreachable between the test and the [os.stat] after it.
    - clock and [psutil] readings are indexed by the number of readings made
      so far ([ticks]): two calls in a row see two samples.
    - [allocated] logs the sizes of the buffers obtained from the allocator;
      [heap_limit] is what it has left to give.
    - [fround] rounds a rational to the float that stands for it.
    - [encoding] is the encoding of the locale, with which [open] decodes a
      text file, and [int_max_str_digits] the limit that the interpreter
      puts on the digits of a decimal literal. *)
Record World : Type := {
  root : node;
  allocated : list Z;
  ticks : nat;
  fault : syscall -> string -> option (Z * string);
  mounts : string -> bool;
  heap_limit : Z;
  encoding : codec;
  int_max_str_digits : N;
  fround : Q -> Q;
  time_at : nat -> Q;
  now_at : nat -> string;
  cpu_at : nat -> Q;
  vmem_at : nat -> svmem;
  swap_at : nat -> sswap;
  partitions : list sdiskpart;
  usage_of : string -> sdiskusage;
  environ : string -> option string
}.

Definition with_root (r : node) (w : World) : World :=
  {| root := r; allocated := allocated w; ticks := ticks w; fault := fault w;
     mounts := mounts w; heap_limit := heap_limit w; encoding := encoding w;
     int_max_str_digits := int_max_str_digits w; fround := fround w;
     time_at := time_at w;
     now_at := now_at w; cpu_at := cpu_at w; vmem_at := vmem_at w;
     swap_at := swap_at w; partitions := partitions w; usage_of := usage_of w;
     environ := environ w |}.

Definition with_allocated (a : list Z) (w : World) : World :=
  {| root := root w; allocated := a; ticks := ticks w; fault := fault w;
     mounts := mounts w; heap_limit := heap_limit w; encoding := encoding w;
     int_max_str_digits := int_max_str_digits w; fround := fround w;
     time_at := time_at w;
     now_at := now_at w; cpu_at := cpu_at w; vmem_at := vmem_at w;
     swap_at := swap_at w; partitions := partitions w; usage_of := usage_of w;
     environ := environ w |}.

Definition tick (w : World) : World :=
  {| root := root w; allocated := allocated w; ticks := S (ticks w); fault := fault w;
     mounts := mounts w; heap_limit := heap_limit w; encoding := encoding w;
     int_max_str_digits := int_max_str_digits w; fround := fround w;
     time_at := time_at w;
     now_at := now_at w; cpu_at := cpu_at w; vmem_at := vmem_at w;
     swap_at := swap_at w; partitions := partitions w; usage_of := usage_of w;
     environ := environ w |}.

(** The bytes that the allocator can still give: no object is larger than
    [sys.maxsize] bytes. *)
Definition heap_free (w : World) : Z := Z.min (heap_limit w) maxsize.

(** *** The monad of handlers *)

Definition M (A : Type) : Type := World -> World * result A.

Definition ret {A} (a : A) : M A := fun w => (w, Ok a).

Definition raise {A} (e : exn) : M A := fun w => (w, Raise e).

Definition bind {A B} (m : M A) (k : A -> M B) : M B :=
  fun w =>
    match m w with
    | (w', Ok a) => k a w'
    | (w', Raise e) => (w', Raise e)
    end.

Definition lift {A} (r : result A) : M A := fun w => (w, r).

(** [try: body / except C as e: handler e], where [catches] is membership
    in [C]. *)
Definition try_except {A} (body : M A) (catches : exn -> bool) (handler : exn -> M A)
  : M A :=
  fun w =>
    match body w with
    | (w', Ok a) => (w', Ok a)
    | (w', Raise e) => if catches e then handler e w' else (w', Raise e)
    end.

(** A bare [except:]. *)
Definition anything (e : exn) : bool := true.

Declare Scope py_scope.
Delimit Scope py_scope with py.
Notation "x <- c1 ;; c2" := (bind c1 (fun x => c2))
  (at level 61, c1 at next level, right associativity) : py_scope.
Notation "c1 ;; c2" := (bind c1 (fun _ => c2))
  (at level 61, right associativity) : py_scope.
Local Open Scope py_scope.

(** [for x in xs: acc = body acc x], with [acc] the variables that the loop
    updates. *)
Fixpoint for_each {A B} (xs : list B) (acc : A) (body : A -> B -> M A) : M A :=
  match xs with
  | [] => ret acc
  | x :: rest => acc' <- body acc x ;; for_each rest acc' body
  end.

(** [for i in range(n): acc = body acc i] for a loop that calls nothing. *)
Definition for_range {A} (n : N) (acc : A) (body : A -> Z -> A) : A :=
  N.peano_rect (fun _ => A) acc (fun i a => body a (Z.of_N i)) n.

(** *** System and library calls *)

Definition os_error {A} (w : World) (c : syscall) (p : string) (otherwise : World * result A)
  : World * result A :=
  match fault w c p with
  | Some (n, s) => (w, Raise (OSError n s (Some p)))
  | None => otherwise
  end.

(** The [OSError] of a call on a path [p] that resolves to nothing:
    [FileNotFoundError], or [NotADirectoryError] when a regular file is in
    the way. *)
Definition absent (w : World) (p : string) : exn :=
  let '(n, s) := why_absent (root w) (components p) in OSError n s (Some p).

(** [os.path.exists(p)]. *)
Definition os_path_exists (p : string) : M bool :=
  fun w =>
    (w, Ok match lookup (root w) (components p) with Some _ => true | None => false end).

(** [os.path.isdir(p)]. *)
Definition os_path_isdir (p : string) : M bool :=
  fun w =>
    (w, Ok match lookup (root w) (components p) with Some (Dir _) => true | _ => false end).

(** [os.stat(p)]; the handlers use no field of the result. *)
Definition os_stat (p : string) : M unit :=
  fun w =>
    os_error w SysStat p
      match lookup (root w) (components p) with
      | Some _ => (w, Ok tt)
      | None => (w, Raise (absent w p))
      end.

(** [os.path.ismount(p)], which raises no [OSError]. *)
Definition os_path_ismount (p : string) : M bool :=
  fun w => (w, Ok (mounts w p)).

(** [os.path.getsize(p)]. *)
Definition os_path_getsize (p : string) : M Z :=
  fun w =>
    os_error w SysStat p
      match lookup (root w) (components p) with
      | Some (File d) => (w, Ok (len d))
      | Some (Dir _) => (w, Ok 4096)
      | None => (w, Raise (absent w p))
      end.

Definition dirnames (es : list (string * node)) : list string :=
  map fst (filter (fun kv => is_dir (snd kv)) es).

Definition filenames (es : list (string * node)) : list string :=
  map fst (filter (fun kv => negb (is_dir (snd kv))) es).

(** [os.walk], top down, with its default [onerror=None]: a directory that
    [scandir] cannot list is left out without an error. *)
Fixpoint walk_from (w : World) (top : string) (n : node)
  : list (string * list string * list string) :=
  match n with
  | File _ => []
  | Dir es =>
      match fault w SysScandir top with
      | Some _ => []
      | None =>
          (top, dirnames es, filenames es)
            :: flat_map (fun kv =>
                           match snd kv with
                           | Dir _ => walk_from w (join top (fst kv)) (snd kv)
                           | File _ => []
                           end) es
      end
  end.

(** [os.walk(top)], all the triples it yields. *)
Definition os_walk (top : string) : M (list (string * list string * list string)) :=
  fun w =>
    (w, Ok match lookup (root w) (components top) with
           | Some n => walk_from w top n
           | None => []
           end).

(** [open(p, 'r').read()] within [with]: the bytes of the file, decoded. *)
Definition read_text (p : string) : M text :=
  fun w =>
    os_error w SysOpenRead p
      match lookup (root w) (components p) with
      | Some (File d) =>
          match decode (encoding w) d with
          | Some s => (w, Ok (universal_newlines s))
          | None => (w, Raise UnicodeDecodeError)
          end
      | Some (Dir _) => (w, Raise (OSError EISDIR "Is a directory" (Some p)))
      | None => (w, Raise (absent w p))
      end.

(** [int(s)], under the digit limit of the interpreter. *)
Definition int (s : text) : M Z :=
  fun w => (w, int_of_str (int_max_str_digits w) s).

(** [os.mkdir(p)]. *)
Definition os_mkdir (p : string) : M unit :=
  fun w =>
    os_error w SysMkdir p
      match make_dir (root w) (components p) with
      | inl r => (with_root r w, Ok tt)
      | inr (n, s) => (w, Raise (OSError n s (Some p)))
      end.

(** [os.makedirs(name, exist_ok=True)]: the missing parents first, one
    [mkdir] each, then [name] itself; an [OSError] of the last [mkdir] is
    dropped when [name] is a directory.  [depth] bounds the recursion on the
    head of the path, which is shorter than the path. *)
Fixpoint makedirs (depth : nat) (name : string) : M unit :=
  let '(head, tail) := split name in
  let '(head, tail) := if nonempty tail then (head, tail) else split head in
  let make_last :=
    try_except (os_mkdir name) is_OSError
      (fun e =>
         is_dir <- os_path_isdir name ;;
         if is_dir : bool then ret tt else raise e) in
  if nonempty head && nonempty tail then
    found <- os_path_exists head ;;
    if found : bool then make_last
    else
      match depth with
      | S depth' =>
          try_except (makedirs depth' head) is_FileExistsError (fun _ => ret tt)
      | O => ret tt
      end ;;
      if String.eqb tail "." then ret tt else make_last
  else make_last.

Definition os_makedirs (p : string) : M unit := makedirs (String.length p) p.

(** [open(p, 'wb')]: creates the file or truncates it. *)
Definition open_wb (p : string) : M unit :=
  fun w =>
    os_error w SysOpenWrite p
      match lookup (root w) (components p) with
      | Some (Dir _) => (w, Raise (OSError EISDIR "Is a directory" (Some p)))
      | _ =>
          match put (root w) (components p) (File EmptyString) with
          | Some r => (with_root r w, Ok tt)
          | None => (w, Raise (absent w p))
          end
      end.

(** [f.write(data)] and the flush when [with] closes [f]; its [OSError] names
    no file.  The bytes that reached the disk before an error are not
    tracked: the file stays as [open] left it. *)
Definition write_all (p : string) (data : string) : M unit :=
  fun w =>
    match fault w SysWrite p with
    | Some (n, s) => (w, Raise (OSError n s None))
    | None =>
        match put (root w) (components p) (File data) with
        | Some r => (with_root r w, Ok tt)
        | None => (w, Raise (OSError ENOENT "No such file or directory" None))
        end
    end.

(** [os.remove(p)]. *)
Definition os_remove (p : string) : M unit :=
  fun w =>
    os_error w SysUnlink p
      match lookup (root w) (components p) with
      | Some (File _) =>
          match unlink (root w) (components p) with
          | Some r => (with_root r w, Ok tt)
          | None => (w, Raise (absent w p))
          end
      | Some (Dir _) => (w, Raise (OSError EISDIR "Is a directory" (Some p)))
      | None => (w, Raise (absent w p))
      end.

(** The allocator: [n] bytes for a new object. *)
Definition allocate (n : Z) : M unit :=
  fun w =>
    if heap_free w <? n then (w, Raise MemoryError)
    else (with_allocated (n :: allocated w) w, Ok tt).

(** [bytearray(n)]: [n] zero bytes, for a count [n] that fits an index. *)
Definition bytearray (n : Z) : M (list Z) :=
  if negb (index_sized n) then raise index_overflow
  else if n <? 0 then raise (ValueError "negative count")
  else allocate n ;; ret (repeat 0 (Z.to_nat n)).

(** [c * k] on [bytes], for a count [k] that fits an index; the empty
    result is a shared object. *)
Definition bytes_mul (c : ascii) (k : Z) : M string :=
  if negb (index_sized k) then raise index_overflow
  else if k <=? 0 then ret EmptyString
  else allocate k ;; ret (repeat_char c k).

(** [a[i] = v] on a [bytearray], for [i >= 0]. *)
Fixpoint setitem_nat (a : list Z) (i : nat) (v : Z) : option (list Z) :=
  match a, i with
  | [], _ => None
  | _ :: rest, O => Some (v :: rest)
  | x :: rest, S j =>
      match setitem_nat rest j v with
      | Some rest' => Some (x :: rest')
      | None => None
      end
  end.

Definition setitem (a : list Z) (i : Z) (v : Z) : M (list Z) :=
  match setitem_nat a (Z.to_nat i) v with
  | Some a' => ret a'
  | None => raise (IndexError "bytearray index out of range")
  end.

(** [a / b] on ints: the quotient, rounded. *)
Definition truediv (a b : Z) : M Q :=
  fun w =>
    if b =? 0 then (w, Raise (ZeroDivisionError "division by zero"))
    else (w, Ok (fround w (inject_Z a / inject_Z b)%Q)).

(** [x * y] on floats. *)
Definition float_mul (x y : Q) : M Q := fun w => (w, Ok (fround w (x * y)%Q)).

(** [x - y] on floats. *)
Definition float_sub (x y : Q) : M Q := fun w => (w, Ok (fround w (x - y)%Q)).

(** [time.time()]. *)
Definition time_time : M Q := fun w => (tick w, Ok (time_at w (ticks w))).

(** [datetime.now().isoformat()]. *)
Definition now_isoformat : M string := fun w => (tick w, Ok (now_at w (ticks w))).

(** [psutil.cpu_percent()]. *)
Definition psutil_cpu_percent : M Q := fun w => (tick w, Ok (cpu_at w (ticks w))).

(** [psutil.virtual_memory()]. *)
Definition psutil_virtual_memory : M svmem := fun w => (tick w, Ok (vmem_at w (ticks w))).

(** [psutil.swap_memory()]. *)
Definition psutil_swap_memory : M sswap := fun w => (tick w, Ok (swap_at w (ticks w))).

(** [psutil.disk_partitions()]. *)
Definition psutil_disk_partitions : M (list sdiskpart) := fun w => (w, Ok (partitions w)).

(** [psutil.disk_usage(p)] and [shutil.disk_usage(p)]: one [statvfs]. *)
Definition disk_usage (p : string) : M sdiskusage :=
  fun w => os_error w SysStatvfs p (w, Ok (usage_of w p)).

(** [os.getenv(k)]. *)
Definition os_getenv (k : string) : M (option string) := fun w => (w, Ok (environ w k)).

End OS.

(** ** The service *)

Module App.
Import Py OS.
Local Open Scope py_scope.

(** *** Limit resolution *)

Definition limit_file : string := "/sys/fs/cgroup/memory/memory.limit_in_bytes".
Definition usage_file : string := "/sys/fs/cgroup/memory/memory.usage_in_bytes".

Definition get_memory_limit : M (option Z) :=
  try_except
    (text <- read_text limit_file ;;
     n <- int (strip text) ;;
     ret (Some n))
    anything (fun _ => ret None).

Definition get_cgroup_memory : M (option Z) :=
  try_except
    (text <- read_text usage_file ;;
     n <- int (strip text) ;;
     ret (Some n))
    anything (fun _ => ret None).

(** *** Directory helpers *)

Definition get_directory_size (path : string) : M Z :=
  try_except
    (triples <- os_walk path ;;
     for_each triples 0 (fun total_size triple =>
       let '(dirpath, _, filenames) := triple in
       for_each filenames total_size (fun total_size filename =>
         let filepath := join dirpath filename in
         try_except
           (size <- os_path_getsize filepath ;; ret (total_size + size))
           is_OSError (fun _ => ret total_size))))
    anything (fun _ => ret 0).

Definition count_files (path : string) : M Z :=
  try_except
    (triples <- os_walk path ;;
     for_each triples 0 (fun count triple =>
       let '(_, _, files) := triple in
       ret (count + Z.of_nat (List.length files))))
    anything (fun _ => ret 0).

(** *** Metrics *)

Definition get_memory_info : M value :=
  memory <- psutil_virtual_memory ;;
  swap <- psutil_swap_memory ;;
  memory_limit <- get_memory_limit ;;
  cgroup_memory <- get_cgroup_memory ;;
  ret (VDict
    [("virtual_memory", VDict
        [("total", VInt (vm_total memory));
         ("available", VInt (vm_available memory));
         ("used", VInt (vm_used memory));
         ("free", VInt (vm_free memory));
         ("percent", VFloat (vm_percent memory));
         ("cached", VInt (match vm_cached memory with Some c => c | None => 0 end));
         ("buffers", VInt (match vm_buffers memory with Some b => b | None => 0 end))]);
     ("swap_memory", VDict
        [("total", VInt (sw_total swap));
         ("used", VInt (sw_used swap));
         ("free", VInt (sw_free swap));
         ("percent", VFloat (sw_percent swap))]);
     ("container_info", VDict
        [("memory_limit", of_option_int memory_limit);
         ("cgroup_memory", of_option_int cgroup_memory)])]).

Definition partition_record (partition : sdiskpart) (u : sdiskusage) (percent : Q) : value :=
  VDict
    [("device", VStr (device partition));
     ("mountpoint", VStr (mountpoint partition));
     ("fstype", VStr (fstype partition));
     ("total", VInt (du_total u));
     ("used", VInt (du_used u));
     ("free", VInt (du_free u));
     ("percent", VFloat percent)].

Definition get_disk_info : M value :=
  root_usage <- disk_usage "/" ;;
  mounted <- psutil_disk_partitions ;;
  partitions <- for_each mounted [] (fun partitions partition =>
    try_except
      (partition_usage <- disk_usage (mountpoint partition) ;;
       ratio <- truediv (du_used partition_usage) (du_total partition_usage) ;;
       percent <- float_mul ratio 100 ;;
       ret (partitions ++ [partition_record partition partition_usage percent])%list)
      is_PermissionError (fun _ => ret partitions)) ;;
  ratio <- truediv (du_used root_usage) (du_total root_usage) ;;
  percent <- float_mul ratio 100 ;;
  ret (VDict
    [("root_disk", VDict
        [("total", VInt (du_total root_usage));
         ("used", VInt (du_used root_usage));
         ("free", VInt (du_free root_usage));
         ("percent", VFloat percent)]);
     ("partitions", VList partitions)]).

(** *** Volumes *)

Definition volume_paths : list string :=
  ["/app/data"; "/app/logs"; "/app/backups"; "/tmp"; "/var/log"].

Definition volume_found (path : string) (is_mount : bool) (size files : Z) : value :=
  VDict [("path", VStr path); ("exists", VBool true); ("is_mount", VBool is_mount);
         ("size", VInt size); ("files", VInt files)].

Definition volume_failed (path : string) (e : exn) : value :=
  VDict [("path", VStr path); ("exists", VBool true); ("error", VStr (str_exn e))].

Definition volume_missing (path : string) : value :=
  VDict [("path", VStr path); ("exists", VBool false)].

(** The body of the loop over [volume_paths]. *)
Definition inspect_volume (volumes : list value) (path : string) : M (list value) :=
  found <- os_path_exists path ;;
  if found : bool then
    try_except
      (_ <- os_stat path ;;
       is_mount <- os_path_ismount path ;;
       size <- get_directory_size path ;;
       files <- count_files path ;;
       ret (volumes ++ [volume_found path is_mount size files])%list)
      is_Exception (fun e => ret (volumes ++ [volume_failed path e])%list)
  else
    ret (volumes ++ [volume_missing path])%list.

Definition get_volume_info : M value :=
  volumes <- for_each volume_paths [] inspect_volume ;;
  environment <- os_getenv "ENVIRONMENT" ;;
  memory_limit <- os_getenv "MEMORY_LIMIT" ;;
  cpu_limit <- os_getenv "CPU_LIMIT" ;;
  ret (VDict
    [("volumes", VList volumes);
     ("environment_variables", VDict
        [("ENVIRONMENT", of_option_str environment);
         ("MEMORY_LIMIT", of_option_str memory_limit);
         ("CPU_LIMIT", of_option_str cpu_limit)])]).

(** *** Load generation *)

Definition allocate_memory (size_mb : Z) : M value :=
  if size_mb >? 1000 then raise (HTTPException 400 "Size too large (max 1000MB)")
  else
    try_except
      (memory_data <- bytearray (size_mb * 1024 * 1024) ;;
       _ <- for_each (range3 0 (Z.of_nat (List.length memory_data)) 1024) memory_data
              (fun memory_data i => setitem memory_data i 1) ;;
       timestamp <- now_isoformat ;;
       used <- psutil_virtual_memory ;;
       percent <- psutil_virtual_memory ;;
       ret (VDict
         [("message", VStr ("Allocated " ++ str_int size_mb ++ "MB of memory"));
          ("timestamp", VStr timestamp);
          ("memory_used", VInt (vm_used used));
          ("memory_percent", VFloat (vm_percent percent))]))
      is_MemoryError (fun _ => raise (HTTPException 507 "Insufficient memory")).

Definition test_file : string := "/app/data/test_file.bin".

Definition fill_disk (size_mb : Z) : M value :=
  if size_mb >? 100 then raise (HTTPException 400 "Size too large (max 100MB)")
  else
    try_except
      (os_makedirs (dirname test_file) ;;
       open_wb test_file ;;
       data <- bytes_mul "0" (size_mb * 1024 * 1024) ;;
       write_all test_file data ;;
       timestamp <- now_isoformat ;;
       usage <- get_directory_size "/app/data" ;;
       ret (VDict
         [("message", VStr ("Created " ++ str_int size_mb ++ "MB test file"));
          ("file_path", VStr test_file);
          ("timestamp", VStr timestamp);
          ("disk_usage", VInt usage)]))
      is_OSError (fun e => raise (HTTPException 507 ("Disk full: " ++ str_exn e))).

Definition cleanup_disk : M value :=
  try_except
    (found <- os_path_exists test_file ;;
     if found : bool then
       os_remove test_file ;;
       timestamp <- now_isoformat ;;
       ret (VDict [("message", VStr "Test file removed"); ("timestamp", VStr timestamp)])
     else
       timestamp <- now_isoformat ;;
       ret (VDict [("message", VStr "No test file found"); ("timestamp", VStr timestamp)]))
    is_Exception (fun e => raise (HTTPException 500 (str_exn e))).

(** The local variables of [stress_test] when it reaches its [return]. *)
Record stress_locals : Type := {
  start_time : Q;
  cpu_start : Q;
  last_square : Z;
  memory_start : Q;
  data : list (list Z);
  end_time : Q
}.

Definition cpu_iterations : N := 1000000.
Definition data_rows : N := 10000.
Definition row_length : nat := 100.

Definition stress_work : M stress_locals :=
  start_time <- time_time ;;
  cpu_start <- psutil_cpu_percent ;;
  let last_square := for_range cpu_iterations 0 (fun _ i => i * i) in
  memory <- psutil_virtual_memory ;;
  let memory_start := vm_percent memory in
  let data := for_range data_rows [] (fun data i => (data ++ [repeat i row_length])%list) in
  end_time <- time_time ;;
  ret {| start_time := start_time; cpu_start := cpu_start; last_square := last_square;
         memory_start := memory_start; data := data; end_time := end_time |}.

Definition stress_test : M value :=
  locals <- stress_work ;;
  duration <- float_sub (end_time locals) (start_time locals) ;;
  cpu_usage <- psutil_cpu_percent ;;
  memory <- psutil_virtual_memory ;;
  timestamp <- now_isoformat ;;
  ret (VDict
    [("message", VStr "Stress test completed");
     ("duration", VFloat duration);
     ("cpu_usage", VFloat cpu_usage);
     ("memory_usage", VFloat (vm_percent memory));
     ("timestamp", VStr timestamp)]).

End App.

(** ** Reference definitions

    What the walk helpers are compared with, written in the words of the
    specification. *)

Module Reference.
Import Py OS.

(** The triples that [os.walk(path)] yields in world [w]. *)
Definition walked (w : World) (path : string) : list (string * list string * list string) :=
  match snd (os_walk path w) with Ok triples => triples | Raise _ => [] end.

(** The files of one triple, as the paths handed to [os.path.getsize]. *)
Definition files_of (triple : string * list string * list string) : list string :=
  map (join (fst (fst triple))) (snd triple).

(** The files below [path]. *)
Definition listed_files (w : World) (path : string) : list string :=
  flat_map files_of (walked w path).

(** The size of [file], when it can be read. *)
Definition readable_size (w : World) (file : string) : option Z :=
  match snd (os_path_getsize file w) with Ok n => Some n | Raise _ => None end.

Definition readable (w : World) (file : string) : bool :=
  match readable_size w file with Some _ => true | None => false end.

Definition size_or_zero (w : World) (file : string) : Z :=
  match readable_size w file with Some n => n | None => 0 end.

Definition sum (l : list Z) : Z := fold_right Z.add 0 l.

(** The sum of the sizes of the readable files below [path]. *)
Definition readable_total (w : World) (path : string) : Z :=
  sum (map (size_or_zero w) (filter (readable w) (listed_files w path))).

(** The walk fails at the top: the directory is missing, is a regular file
    or cannot be listed. *)
Definition top_level_failure (w : World) (path : string) : Prop :=
  lookup (root w) (components path) = None
  \/ (exists d, lookup (root w) (components path) = Some (File d))
  \/ (exists err, fault w SysScandir path = Some err).

End Reference.

(** What a reader of a cgroup accounting file makes of its bytes. *)
Module Accounting.
Import Py OS.

(** The bytes [data] as [open(p, 'r').read()] returns them, when they can be
    decoded. *)
Definition read_as (w : World) (data : string) : option text :=
  option_map universal_newlines (decode (encoding w) data).

(** The integer that [int(f.read().strip())] gives for a file of bytes
    [data], when there is one. *)
Definition parsed (w : World) (data : string) : option Z :=
  match read_as w data with
  | Some s =>
      match int_of_str (int_max_str_digits w) (strip s) with
      | Ok n => Some n
      | Raise _ => None
      end
  | None => None
  end.

(** The characters of a decimal numeral as [str] prints it: the ten ASCII
    digits and the minus sign. *)
Definition plain (c : ascii) : bool := is_digit c || Ascii.eqb c "-".

(** The characters of an integer literal in ASCII form. *)
Definition literal_char (c : ascii) : bool :=
  is_digit c || Ascii.eqb c "+" || Ascii.eqb c "-" || Ascii.eqb c "_" || is_blank c.

(** An ASCII character that no integer literal contains: not a digit, a
    sign, an underscore or whitespace. *)
Definition stray (c : N) : bool :=
  ((c <? 128) && negb (between 48 57 c || (c =? 43) || (c =? 45) || (c =? 95) || isspace c))%N.

End Accounting.

(** The record that the volume enumeration emits for [path]. *)
Module VolumeRecord.
Import Py OS App Reference.

Definition volume_record (w : World) (path : string) : value :=
  match lookup (root w) (components path) with
  | None => volume_missing path
  | Some _ =>
      match fault w SysStat path with
      | Some (n, s) => volume_failed path (OSError n s (Some path))
      | None =>
          volume_found path (mounts w path) (readable_total w path)
            (Z.of_nat (List.length (listed_files w path)))
      end
  end.

Definition environment_variables (w : World) : value :=
  VDict [("ENVIRONMENT", of_option_str (environ w "ENVIRONMENT"));
         ("MEMORY_LIMIT", of_option_str (environ w "MEMORY_LIMIT"));
         ("CPU_LIMIT", of_option_str (environ w "CPU_LIMIT"))].

End VolumeRecord.

(** Reading the percent fields of the snapshots. *)
Module Percent.
Import Py OS.

(** [v] has a float field [percent] between 0 and 100. *)
Definition percent_in_range (v : value) : Prop :=
  exists q : Q, dict_get "percent" v = Some (VFloat q) /\ (0 <= q <= 100)%Q.

(** What is assumed of the rounding of floats: it keeps the order and
    leaves 0, 1 and 100 as they are, as rounding to the nearest double does. *)
Definition rounding_sound (rnd : Q -> Q) : Prop :=
  (forall x y : Q, (x <= y)%Q -> (rnd x <= rnd y)%Q)
  /\ (rnd 0 == 0)%Q /\ (rnd 1 == 1)%Q /\ (rnd 100 == 100)%Q.

(** What [statvfs] reports of a file system: used blocks are part of the
    blocks. *)
Definition sane_usage (u : sdiskusage) : Prop := 0 <= du_used u <= du_total u.

End Percent.

(** What the load generators leave behind and what they need. *)
Module Acceptance.
Import Py OS App.

(** The body of the [try] of [fill_disk]. *)
Definition fill_body (size_mb : Z) : M value :=
  (os_makedirs (dirname test_file) ;;
   open_wb test_file ;;
   data <- bytes_mul "0" (size_mb * 1024 * 1024) ;;
   write_all test_file data ;;
   timestamp <- now_isoformat ;;
   usage <- get_directory_size "/app/data" ;;
   ret (VDict
     [("message", VStr ("Created " ++ str_int size_mb ++ "MB test file"));
      ("file_path", VStr test_file);
      ("timestamp", VStr timestamp);
      ("disk_usage", VInt usage)]))%py.

(** The outcome of a call made in [w] that changed nothing but the tree and
    raised, if anything, an [OSError]. *)
Definition tree_outcome (w : World) (outcome : World * result unit) : Prop :=
  (exists r, outcome = (with_root r w, Ok tt))
  \/ (exists r e, outcome = (with_root r w, Raise e) /\ is_OSError e = true).

(** The file system lets [fill_disk] create its directory and its file. *)
Definition fill_accepted (w : World) : bool :=
  match os_makedirs (dirname test_file) w with
  | (w1, Ok _) =>
      match open_wb test_file w1 with
      | (w2, Ok _) => negb (raised (snd (write_all test_file EmptyString w2)))
      | (_, Raise _) => false
      end
  | (_, Raise _) => false
  end.


(** The content of the test file, when there is one. *)
Definition test_file_content (w : World) : option string :=
  match lookup (root w) (components test_file) with
  | Some (File d) => Some d
  | _ => None
  end.

Definition test_file_exists (w : World) : bool :=
  match lookup (root w) (components test_file) with Some _ => true | None => false end.

(** The samples that [stress_test] takes before its two loops. *)
Definition before_samples (w : World) : option (Q * Q) :=
  match snd (stress_work w) with
  | Ok locals => Some (cpu_start locals, memory_start locals)
  | Raise _ => None
  end.

(** The key [k] of a record, when the record has it. *)
Definition field (k : string) (record : value) : option value := dict_get k record.

(** A record of the volume enumeration that reports a failed inspection:
    it has an [error] and neither [size] nor [files]. *)
Definition reports_failure (record : value) : Prop :=
  (exists message, field "error" record = Some (VStr message))
  /\ field "size" record = None /\ field "files" record = None.

(** Two calls of [cleanup_disk] in a row, neither of which fails. *)
Definition cleanup_twice_succeeds (w : World) : Prop :=
  raised (snd (cleanup_disk w)) = false
  /\ raised (snd (cleanup_disk (fst (cleanup_disk w)))) = false.

Definition removed (timestamp : string) : value :=
  VDict [("message", VStr "Test file removed"); ("timestamp", VStr timestamp)].

Definition not_found (timestamp : string) : value :=
  VDict [("message", VStr "No test file found"); ("timestamp", VStr timestamp)].

End Acceptance.

(** ** Concrete machines

    The worlds on which the statements below are exercised. *)

Module Sim.
Import Py OS App.

Definition no_fault : syscall -> string -> option (Z * string) :=
  fun _ _ => None.

(** The environment fails call [c] on path [p] with [err], nothing else. *)
Definition fault_at (c : syscall) (p : string) (err : Z * string)
  : syscall -> string -> option (Z * string) :=
  fun c' p' => if syscall_eqb c c' && String.eqb p p' then Some err else None.

Definition sda1 : sdiskpart :=
  {| device := "/dev/sda1"; mountpoint := "/"; fstype := "ext4" |}.

Definition vdb : sdiskpart :=
  {| device := "/dev/vdb"; mountpoint := "/app/data"; fstype := "ext4" |}.

(** A FUSE block mount whose [statfs] reports no blocks at all. *)
Definition sdb1 : sdiskpart :=
  {| device := "/dev/sdb1"; mountpoint := "/mnt/usb"; fstype := "fuseblk" |}.

Definition usage0 (p : string) : sdiskusage :=
  if String.eqb p "/mnt/usb" then {| du_total := 0; du_used := 0; du_free := 0 |}
  else if String.eqb p "/app/data" then {| du_total := 4096; du_used := 1024; du_free := 3072 |}
  else {| du_total := 1000; du_used := 250; du_free := 750 |}.

Definition vm0 : svmem :=
  {| vm_total := 8192; vm_available := 4096; vm_used := 3072; vm_free := 2048;
     vm_percent := 50%Q; vm_cached := Some 1024; vm_buffers := None |}.

Definition swap0 : sswap :=
  {| sw_total := 2048; sw_used := 512; sw_free := 1536; sw_percent := 25%Q |}.

Definition cgroup_dir (limit usage : string) : node :=
  Dir [("fs", Dir [("cgroup", Dir [("memory",
    Dir [("memory.limit_in_bytes", File limit); ("memory.usage_in_bytes", File usage)])])])].

Definition data_dir : node :=
  Dir [("a.txt", File "hello"); ("sub", Dir [("b", File "xy")])].

Definition data_dir_filled : node :=
  Dir [("a.txt", File "hello"); ("sub", Dir [("b", File "xy")]);
       ("test_file.bin", File "0000")].

(** A container with cgroup v1 accounting, a data volume and [/tmp]. *)
Definition tree (data : node) : node :=
  Dir [("app", Dir [("data", data)]);
       ("sys", cgroup_dir ("536870912" ++ String "010" EmptyString)
                          ("1048576" ++ String "010" EmptyString));
       ("tmp", Dir [])].

(** The same without cgroup v1 accounting: a host, or cgroup v2. *)
Definition bare_tree : node :=
  Dir [("app", Dir [("data", data_dir)]); ("tmp", Dir [])].

(** cgroup v1 without a limit writes a number; cgroup v2 writes [max]. *)
Definition odd_tree : node :=
  Dir [("sys", cgroup_dir ("max" ++ String "010" EmptyString) EmptyString)].

(** A limit of 42 followed by a no-break space (U+00A0 in UTF-8) and a
    line feed; a usage that is no UTF-8 at all. *)
Definition padded_tree : node :=
  Dir [("sys", cgroup_dir ("42" ++ String "194" (String "160" (String "010" EmptyString)))
                          (String "255" (String "010" EmptyString)))].

(** A limit of 4301 digits; a usage of 4300 digits. *)
Definition long_tree : node :=
  Dir [("sys", cgroup_dir (str_int (10 ^ 4300) ++ String "010" EmptyString)
                          (str_int (10 ^ 4299) ++ String "010" EmptyString))].

Definition machine (r : node) (f : syscall -> string -> option (Z * string))
    (ps : list sdiskpart) (cpu : nat -> Q) (vm : nat -> svmem) : World :=
  {| root := r; allocated := []; ticks := 0; fault := f;
     mounts := fun p => String.eqb p "/app/data";
     heap_limit := 1073741824;
     encoding := UTF8;
     int_max_str_digits := 4300;
     fround := fun q => q;
     time_at := fun n => inject_Z (Z.of_nat n);
     now_at := fun n => "2024-01-01T00:00:0" ++ str_int (Z.of_nat n);
     cpu_at := cpu;
     vmem_at := vm;
     swap_at := fun _ => swap0;
     partitions := ps;
     usage_of := usage0;
     environ := fun k => if String.eqb k "ENVIRONMENT" then Some "production" else None |}.

Definition steady_cpu (n : nat) : Q := 12%Q.
Definition steady_vm (n : nat) : svmem := vm0.

Definition container : World :=
  machine (tree data_dir) no_fault [sda1; vdb] steady_cpu steady_vm.

Definition filled : World :=
  machine (tree data_dir_filled) no_fault [sda1; vdb] steady_cpu steady_vm.

Definition bare : World :=
  machine bare_tree no_fault [sda1] steady_cpu steady_vm.

Definition odd : World :=
  machine odd_tree no_fault [sda1] steady_cpu steady_vm.

Definition padded : World :=
  machine padded_tree no_fault [sda1] steady_cpu steady_vm.

Definition long_numbers : World :=
  machine long_tree no_fault [sda1] steady_cpu steady_vm.

Definition denied : Z * string := (EACCES, "Permission denied").

(** The accounting files are there but may not be opened. *)
Definition locked_cgroup : World :=
  machine (tree data_dir)
    (fun c p => match c with SysOpenRead => Some denied | _ => None end)
    [sda1] steady_cpu steady_vm.

(** [/app/data/sub/b] is listed but cannot be examined. *)
Definition unreadable_file : World :=
  machine (tree data_dir) (fault_at SysStat "/app/data/sub/b" denied)
    [sda1; vdb] steady_cpu steady_vm.

(** [/app/data] cannot be listed. *)
Definition unlistable : World :=
  machine (tree data_dir) (fault_at SysScandir "/app/data" denied)
    [sda1; vdb] steady_cpu steady_vm.

(** [/tmp] was there when tested and is gone when examined. *)
Definition vanishing_tmp : World :=
  machine (tree data_dir) (fault_at SysStat "/tmp" (ENOENT, "No such file or directory"))
    [sda1; vdb] steady_cpu steady_vm.

(** A mount without blocks next to the root and the data volume. *)
Definition blockless_mount : World :=
  machine (tree data_dir) no_fault [sda1; sdb1; vdb] steady_cpu steady_vm.

(** The data volume may not be examined. *)
Definition private_volume : World :=
  machine (tree data_dir) (fault_at SysStatvfs "/app/data" denied)
    [sda1; vdb] steady_cpu steady_vm.

(** The volume is full: the write of the test file fails. *)
Definition no_space : World :=
  machine (tree data_dir) (fault_at SysWrite test_file (ENOSPC, "No space left on device"))
    [sda1; vdb] steady_cpu steady_vm.

(** The volume has room, but the service may not create files on it. *)
Definition read_only_volume : World :=
  machine (tree data_dir) (fault_at SysOpenWrite test_file denied)
    [sda1; vdb] steady_cpu steady_vm.

(** The test file is there and may not be removed. *)
Definition undeletable : World :=
  machine (tree data_dir_filled) (fault_at SysUnlink test_file denied)
    [sda1; vdb] steady_cpu steady_vm.

(** Two machines that differ in the readings taken before the loops of the
    stress test, and in nothing else. *)
Definition calm : World :=
  machine (tree data_dir) no_fault [sda1; vdb]
    (fun n => match n with 1%nat => 5%Q | _ => 12%Q end) steady_vm.

Definition busy : World :=
  machine (tree data_dir) no_fault [sda1; vdb]
    (fun n => match n with 1%nat => 90%Q | _ => 12%Q end) steady_vm.

End Sim.

(** ** The rest of the service

    The handler of [GET /], and the pieces of the other handlers that the
    statements at the end of the file name. *)

Module More.
Import Py OS App Reference.
Local Open Scope py_scope.

(** The handler [root] of [GET /]; [root] names the tree of the world
    here, hence the longer name.  [os.getenv] has the default
    ["development"]. *)
Definition root_handler : M value :=
  timestamp <- now_isoformat ;;
  environment <- os_getenv "ENVIRONMENT" ;;
  ret (VDict
    [("message", VStr "Volumes and Memory Demo");
     ("timestamp", VStr timestamp);
     ("environment", VStr (match environment with Some v => v | None => "development" end))]).

(** The loop of [allocate_memory] that stores 1 at every 1024th byte. *)
Definition touch_pages (memory_data : list Z) : M (list Z) :=
  for_each (range3 0 (Z.of_nat (List.length memory_data)) 1024) memory_data
    (fun memory_data i => setitem memory_data i 1).

(** [used / total * 100] as the handlers compute it. *)
Definition percent_of (w : World) (u : sdiskusage) : Q :=
  fround w (fround w (inject_Z (du_used u) / inject_Z (du_total u)) * 100)%Q.

(** [statvfs] answers for the mount point of [partition]. *)
Definition reportable (w : World) (partition : sdiskpart) : bool :=
  match fault w SysStatvfs (mountpoint partition) with
  | None => true
  | Some _ => false
  end.

(** What the loop of [get_disk_info] can cope with at one partition: a
    [PermissionError], or counters with a total other than 0. *)
Definition partition_tolerated (w : World) (partition : sdiskpart) : Prop :=
  match fault w SysStatvfs (mountpoint partition) with
  | Some (n, _) => n = EACCES \/ n = EPERM
  | None => du_total (usage_of w (mountpoint partition)) <> 0
  end.

Definition disk_collectable (w : World) : Prop :=
  fault w SysStatvfs "/" = None
  /\ du_total (usage_of w "/") <> 0
  /\ Forall (partition_tolerated w) (partitions w).

Definition disk_snapshot (w : World) : value :=
  VDict
    [("root_disk", VDict
        [("total", VInt (du_total (usage_of w "/")));
         ("used", VInt (du_used (usage_of w "/")));
         ("free", VInt (du_free (usage_of w "/")));
         ("percent", VFloat (percent_of w (usage_of w "/")))]);
     ("partitions", VList
        (map (fun partition =>
                partition_record partition (usage_of w (mountpoint partition))
                  (percent_of w (usage_of w (mountpoint partition))))
             (filter (reportable w) (partitions w))))].

(** The number of bytes that a request of [size_mb] asks for. *)
Definition bytes_of (size_mb : Z) : Z := size_mb * 1024 * 1024.

(** [/tmp] holds a file and cannot be listed. *)
Definition unlistable_tmp : World :=
  Sim.machine (Dir [("tmp", Dir [("core", File "dump")])])
    (Sim.fault_at SysScandir "/tmp" Sim.denied)
    [Sim.sda1] Sim.steady_cpu Sim.steady_vm.

(** The size that [os.path.getsize] reports of what a path resolves to. *)
Definition node_size (found : option node) : option Z :=
  match found with
  | Some (File d) => Some (len d)
  | Some (Dir _) => Some 4096
  | None => None
  end.

(** The buffer of a request is empty or fits the heap. *)
Definition buffer_fits (w : World) (size_mb : Z) : Prop :=
  bytes_of size_mb <= 0 \/ bytes_of size_mb <= heap_free w.

(** What a request of [size_mb] writes: [b'0' * (size_mb * 1024 * 1024)]. *)
Definition fill_data (size_mb : Z) : string := repeat_char "0" (bytes_of size_mb).

(** What the allocator has handed out once the buffer of the request is
    built. *)
Definition allocated_after (w : World) (size_mb : Z) : list Z :=
  if bytes_of size_mb <=? 0 then allocated w else bytes_of size_mb :: allocated w.



(** The machine [w] with an empty environment. *)
Definition without_environment (w : World) : World :=
  {| root := root w; allocated := allocated w; ticks := ticks w; fault := fault w;
     mounts := mounts w; heap_limit := heap_limit w; encoding := encoding w;
     int_max_str_digits := int_max_str_digits w; fround := fround w;
     time_at := time_at w; now_at := now_at w; cpu_at := cpu_at w;
     vmem_at := vmem_at w; swap_at := swap_at w; partitions := partitions w;
     usage_of := usage_of w; environ := fun _ => None |}.

(** The machine [w] with [free] bytes left to the allocator. *)
Definition with_heap (free : Z) (w : World) : World :=
  {| root := root w; allocated := allocated w; ticks := ticks w; fault := fault w;
     mounts := mounts w; heap_limit := free; encoding := encoding w;
     int_max_str_digits := int_max_str_digits w; fround := fround w;
     time_at := time_at w; now_at := now_at w; cpu_at := cpu_at w;
     vmem_at := vmem_at w; swap_at := swap_at w; partitions := partitions w;
     usage_of := usage_of w; environ := environ w |}.

End More.

(** * Verification *)

(** ** Facts on the embedded Python operations *)

Module PyFacts.
Import Py Accounting.

(** *** Plain characters *)

Lemma plain_code c :
  plain c = true ->
  (N_of_ascii c <? 128)%N = true
  /\ (N_of_ascii c <? 127)%N = true
  /\ isspace (N_of_ascii c) = false
  /\ (N_of_ascii c =? 13)%N = false
  /\ is_blank c = false.
Proof.
  destruct c as [[] [] [] [] [] [] [] []]; try discriminate; intros _; repeat split.
Qed.

Lemma digit_plain c : is_digit c = true -> plain c = true.
Proof. unfold plain. now intros ->. Qed.

Lemma all_chars_cons P c s :
  all_chars P (String c s) = P c && all_chars P s.
Proof. reflexivity. Qed.

Lemma all_chars_app P s t :
  all_chars P (s ++ t) = all_chars P s && all_chars P t.
Proof.
  induction s as [|c s IH]; [reflexivity|].
  change (String c s ++ t) with (String c (s ++ t)).
  now rewrite !all_chars_cons, IH, andb_assoc.
Qed.

Lemma all_chars_impl (P Q : ascii -> bool) s :
  (forall c, P c = true -> Q c = true) -> all_chars P s = true -> all_chars Q s = true.
Proof.
  intros H. induction s as [|c s IH]; [reflexivity|].
  rewrite !all_chars_cons. intros Hs. apply andb_true_iff in Hs as [Hc Hs].
  now rewrite (H c Hc), (IH Hs).
Qed.

Lemma digits_of_uint d : all_chars is_digit (NilEmpty.string_of_uint d) = true.
Proof. induction d; simpl; auto. Qed.

Lemma text_of_string_cons c s :
  text_of_string (String c s) = N_of_ascii c :: text_of_string s.
Proof. reflexivity. Qed.

Lemma text_of_string_app s t :
  text_of_string (s ++ t) = (text_of_string s ++ text_of_string t)%list.
Proof.
  induction s as [|c s IH]; [reflexivity|].
  change (String c s ++ t) with (String c (s ++ t)).
  now rewrite !text_of_string_cons, IH.
Qed.

(** *** Decoding ASCII *)

Lemma utf8_decode_ascii s :
  all_chars (fun c => (N_of_ascii c <? 128)%N) s = true ->
  utf8_decode s = Some (text_of_string s).
Proof.
  induction s as [|c s IH]; [reflexivity|].
  rewrite all_chars_cons. intros H. apply andb_true_iff in H as [Hc Hs].
  cbn [utf8_decode]. cbv zeta. rewrite Hc, (IH Hs). reflexivity.
Qed.

(** The three encodings agree on ASCII bytes. *)
Lemma decode_ascii encoding s :
  all_chars (fun c => (N_of_ascii c <? 128)%N) s = true ->
  decode encoding s = Some (text_of_string s).
Proof.
  intros H. destruct encoding; cbn [decode].
  - now apply utf8_decode_ascii.
  - reflexivity.
  - now rewrite H.
Qed.

Lemma universal_newlines_plain s :
  forallb (fun c => negb (c =? 13)%N) s = true -> universal_newlines s = s.
Proof.
  induction s as [|c s IH]; [reflexivity|].
  cbn [forallb universal_newlines]. intros H. apply andb_true_iff in H as [Hc Hs].
  apply negb_true_iff in Hc. now rewrite Hc, (IH Hs).
Qed.

(** *** [strip] *)

Lemma lstrip_head c s : isspace c = false -> lstrip (c :: s) = c :: s.
Proof. intros H; simpl; now rewrite H. Qed.

Lemma rstrip_line s :
  forallb (fun c => negb (isspace c)) s = true -> rstrip (s ++ [10%N])%list = s.
Proof.
  induction s as [|c s IH]; intros H; [reflexivity|].
  cbn [forallb] in H. apply andb_true_iff in H as [Hc Hs]. apply negb_true_iff in Hc.
  change ((c :: s) ++ [10%N])%list with (c :: (s ++ [10%N]))%list.
  cbn [rstrip]. rewrite (IH Hs), Hc. now destruct s.
Qed.

Lemma strip_line c s :
  forallb (fun c => negb (isspace c)) (c :: s) = true ->
  strip ((c :: s) ++ [10%N])%list = c :: s.
Proof.
  intros H. unfold strip.
  change ((c :: s) ++ [10%N])%list with (c :: (s ++ [10%N]))%list.
  rewrite lstrip_head.
  - now apply (rstrip_line (c :: s)).
  - cbn [forallb] in H. apply andb_true_iff in H as [Hc _]. now apply negb_true_iff in Hc.
Qed.

Lemma lstrip_blank s : forallb isspace s = true -> lstrip s = [].
Proof.
  induction s as [|c s IH]; [reflexivity|].
  cbn [forallb lstrip]. intros H. apply andb_true_iff in H as [-> Hs]. now apply IH.
Qed.

(** A text of whitespace only is stripped to nothing. *)
Lemma strip_blank s : forallb isspace s = true -> strip s = [].
Proof. intros H. unfold strip. now rewrite (lstrip_blank _ H). Qed.

Lemma in_lstrip c s : In c s -> isspace c = false -> In c (lstrip s).
Proof.
  induction s as [|x s IH]; [intros []|].
  intros [->|Hin] Hc; cbn [lstrip].
  - rewrite Hc. now left.
  - destruct (isspace x); [now apply IH|now right].
Qed.

Lemma in_rstrip c s : In c s -> isspace c = false -> In c (rstrip s).
Proof.
  induction s as [|x s IH]; [intros []|].
  intros [->|Hin] Hc; cbn [rstrip].
  - destruct (rstrip s); [rewrite Hc|]; now left.
  - specialize (IH Hin Hc). destruct (rstrip s); [destruct IH|now right].
Qed.

(** [strip] removes whitespace only. *)
Lemma in_strip c s : In c s -> isspace c = false -> In c (strip s).
Proof. intros Hin Hc. unfold strip. apply in_rstrip; [now apply in_lstrip|assumption]. Qed.

Lemma in_universal_newlines c s :
  In c s -> (c =? 13)%N = false -> In c (universal_newlines s).
Proof.
  intros Hin Hc. revert Hin.
  assert (H : forall n s, (List.length s <= n)%nat -> In c s -> In c (universal_newlines s));
    [|apply (H (List.length s)); lia].
  clear s. induction n as [|n IH]; intros s Hlen.
  - destruct s; [intros []|cbn in Hlen; lia].
  - destruct s as [|x s]; [intros []|]. cbn in Hlen. intros [->|Hin].
    + cbn [universal_newlines]. rewrite Hc. now left.
    + cbn [universal_newlines]. destruct (x =? 13)%N.
      * destruct s as [|y s]; [destruct Hin|]. cbn in Hlen.
        destruct (y =? 10)%N eqn:Hy.
        -- destruct Hin as [->|Hin].
           ++ apply N.eqb_eq in Hy. subst c. now left.
           ++ right. apply IH; [lia|assumption].
        -- right. apply IH; [cbn; lia|assumption].
      * right. apply IH; [lia|assumption].
Qed.

(** *** The ASCII form *)

Lemma forallb_mapped {A B} (P : B -> bool) (f : A -> B) l :
  forallb P (map f l) = forallb (fun x => P (f x)) l.
Proof. induction l as [|x l IH]; cbn; [reflexivity|]. now rewrite IH. Qed.

Lemma ascii_round (l : list ascii) : map ascii_of_N (map N_of_ascii l) = l.
Proof. induction l as [|c l IH]; cbn; [reflexivity|]. now rewrite ascii_N_embedding, IH. Qed.

Lemma to_ascii_plain s :
  all_chars (fun c => (N_of_ascii c <? 128)%N) s = true ->
  to_ascii (text_of_string s) = s.
Proof.
  intros H. unfold to_ascii, text_of_string.
  rewrite forallb_mapped. unfold all_chars in H. rewrite H.
  now rewrite ascii_round, string_of_list_ascii_of_string.
Qed.

(** *** Digits *)

Ltac read_digit :=
  cbn [int_digits];
  match goal with
  | |- context [digit_of ?c] =>
      let v := eval vm_compute in (digit_of c) in
      change (digit_of c) with v
  end;
  cbv beta iota.

Lemma int_digits_acc d p :
  int_digits (Npos p) true (NilEmpty.string_of_uint d)
  = Some (Npos (Pos.of_uint_acc d p)).
Proof.
  revert p; induction d; intros p; cbn [NilEmpty.string_of_uint Pos.of_uint_acc];
    [reflexivity| | | | | | | | | |];
    read_digit;
    match goal with
    | |- int_digits ?a true _ = Some (N.pos (Pos.of_uint_acc _ ?q)) =>
        replace a with (N.pos q) by lia; apply IHd
    end.
Qed.

Lemma int_digits_uint d :
  int_digits 0 true (NilEmpty.string_of_uint d) = Some (Pos.of_uint d).
Proof.
  induction d; cbn [NilEmpty.string_of_uint Pos.of_uint];
    [reflexivity| | | | | | | | | |];
    read_digit; try exact IHd; apply int_digits_acc.
Qed.

Lemma int_digits_start d :
  d <> Decimal.Nil ->
  int_digits 0 false (NilEmpty.string_of_uint d) = Some (Pos.of_uint d).
Proof.
  intros Hd. rewrite <- int_digits_uint.
  destruct d; [congruence| | | | | | | | | |]; reflexivity.
Qed.

Lemma int_digits_pos p :
  int_digits 0 false (NilEmpty.string_of_uint (Pos.to_uint p)) = Some (Npos p).
Proof.
  rewrite int_digits_start by apply DecimalPos.Unsigned.to_uint_nonnil.
  now rewrite DecimalPos.Unsigned.of_to.
Qed.

Lemma string_of_uint_nonnil d :
  d <> Decimal.Nil -> NilZero.string_of_uint d = NilEmpty.string_of_uint d.
Proof. destruct d; [congruence| | | | | | | | | |]; reflexivity. Qed.

Lemma span_digits_all s :
  all_chars is_digit s = true -> span_digits s = (s, EmptyString).
Proof.
  induction s as [|c s IH]; [reflexivity|].
  rewrite all_chars_cons. intros H. apply andb_true_iff in H as [Hc Hs].
  cbn [span_digits]. now rewrite Hc, (IH Hs).
Qed.

Lemma count_digits_all s :
  all_chars is_digit s = true -> count_digits s = N.of_nat (String.length s).
Proof.
  unfold count_digits, all_chars. intros H. f_equal.
  induction s as [|c s IH]; [reflexivity|].
  cbn [list_ascii_of_string forallb] in H. apply andb_true_iff in H as [Hc Hs].
  cbn [list_ascii_of_string filter]. rewrite Hc. cbn. now rewrite (IH Hs).
Qed.

Lemma count_digits_minus s : count_digits (String "-" s) = count_digits s.
Proof. reflexivity. Qed.

(** *** [int] reads back what [str] prints *)

(** The numeral of [n] as [str] prints it: its characters are plain and
    there is at least one. *)
Lemma str_int_plain n :
  all_chars plain (str_int n) = true /\ str_int n <> EmptyString.
Proof.
  unfold str_int.
  destruct n as [|p|p]; [now split| |]; cbn [Z.to_int NilZero.string_of_int];
    rewrite string_of_uint_nonnil by apply DecimalPos.Unsigned.to_uint_nonnil.
  - split; [apply (all_chars_impl is_digit), digits_of_uint; apply digit_plain|].
    pose proof (DecimalPos.Unsigned.to_uint_nonnil p) as Hn.
    destruct (Pos.to_uint p); [congruence| | | | | | | | | |]; discriminate.
  - split; [|discriminate].
    rewrite all_chars_cons. apply (all_chars_impl is_digit), digits_of_uint. apply digit_plain.
Qed.

(** The parser on the numeral itself. *)
Lemma int_of_numeral max_str_digits n :
  int_of_str max_str_digits (text_of_string (str_int n))
  = if exceeds_limit max_str_digits (count_digits (str_int n))
    then Raise (over_limit max_str_digits (count_digits (str_int n)))
    else Ok n.
Proof.
  unfold int_of_str.
  rewrite to_ascii_plain
    by (apply (all_chars_impl plain), str_int_plain; intros c Hc; apply (plain_code c Hc)).
  unfold str_int.
  destruct n as [|p|p]; [reflexivity| |]; cbn [Z.to_int NilZero.string_of_int];
    rewrite string_of_uint_nonnil by apply DecimalPos.Unsigned.to_uint_nonnil;
    pose proof (int_digits_pos p) as Hp;
    pose proof (digits_of_uint (Pos.to_uint p)) as Hd;
    pose proof (DecimalPos.Unsigned.to_uint_nonnil p) as Hn.
  - destruct (NilEmpty.string_of_uint (Pos.to_uint p)) as [|c s] eqn:Hs.
    + destruct (Pos.to_uint p); try congruence; discriminate.
    + assert (Hc : is_digit c = true)
        by (rewrite all_chars_cons in Hd; now apply andb_true_iff in Hd as [Hc _]).
      destruct (plain_code c (digit_plain c Hc)) as [_ [_ [_ [_ Hb]]]].
      cbn [lstrip_blanks]. rewrite Hb.
      assert (Hminus : Ascii.eqb c "-" = false)
        by (destruct c as [[] [] [] [] [] [] [] []]; try discriminate; reflexivity).
      assert (Hplus : Ascii.eqb c "+" = false)
        by (destruct c as [[] [] [] [] [] [] [] []]; try discriminate; reflexivity).
      rewrite Hminus, Hplus, (span_digits_all _ Hd), Hp.
      destruct (exceeds_limit max_str_digits (count_digits (String c s))); reflexivity.
  - cbn [lstrip_blanks]. change (is_blank "-") with false. cbv iota.
    change (Ascii.eqb "-" "-") with true. cbv iota.
    rewrite (span_digits_all _ Hd), Hp, count_digits_minus.
    destruct (exceeds_limit max_str_digits
                (count_digits (NilEmpty.string_of_uint (Pos.to_uint p)))); reflexivity.
Qed.

(** What [open(p, 'r').read().strip()] makes of the numeral of [n] followed
    by the line feed with which the kernel ends an accounting file: the
    numeral, in every encoding of the locale. *)
Lemma numeral_line encoding n :
  option_map (fun s => strip (universal_newlines s))
    (decode encoding (str_int n ++ String "010" EmptyString))
  = Some (text_of_string (str_int n)).
Proof.
  destruct (str_int_plain n) as [Hplain Hne].
  assert (Hascii : all_chars (fun c => (N_of_ascii c <? 128)%N)
                     (str_int n ++ String "010" EmptyString) = true).
  { rewrite all_chars_app.
    rewrite (all_chars_impl plain _ _ (fun c Hc => proj1 (plain_code c Hc)) Hplain).
    reflexivity. }
  rewrite (decode_ascii _ _ Hascii). cbn [option_map]. f_equal.
  rewrite text_of_string_app.
  change (text_of_string (String "010" EmptyString)) with [10%N].
  assert (Hnospace : forallb (fun c => negb (isspace c)) (text_of_string (str_int n)) = true).
  { unfold text_of_string. rewrite forallb_mapped. unfold all_chars in Hplain.
    revert Hplain. apply (all_chars_impl plain (fun c => negb (isspace (N_of_ascii c)))).
    intros c Hc. destruct (plain_code c Hc) as [_ [_ [-> _]]]. reflexivity. }
  rewrite universal_newlines_plain.
  - destruct (text_of_string (str_int n)) as [|c s] eqn:Hs.
    + destruct (str_int n); [congruence|discriminate].
    + now apply strip_line.
  - rewrite forallb_app. apply andb_true_iff. split; [|reflexivity].
    unfold text_of_string. rewrite forallb_mapped. unfold all_chars in Hplain.
    revert Hplain. apply (all_chars_impl plain (fun c => negb (N_of_ascii c =? 13)%N)).
    intros c Hc. destruct (plain_code c Hc) as [_ [_ [_ [-> _]]]]. reflexivity.
Qed.

(** *** The digit limit and machine counters *)

Lemma universal_newlines_space s :
  forallb isspace s = true -> forallb isspace (universal_newlines s) = true.
Proof.
  assert (H : forall n s, (List.length s <= n)%nat ->
                forallb isspace s = true -> forallb isspace (universal_newlines s) = true);
    [|apply (H (List.length s)); lia].
  clear s. induction n as [|n IH]; intros s Hlen.
  - destruct s; [reflexivity|cbn in Hlen; lia].
  - destruct s as [|x s]; [reflexivity|]. cbn in Hlen.
    cbn [forallb universal_newlines]. intros H. apply andb_true_iff in H as [Hx Hs].
    destruct (x =? 13)%N.
    + cbn [forallb]. change (isspace 10) with true. cbn [andb].
      destruct s as [|y s]; [reflexivity|]. cbn in Hlen.
      destruct (y =? 10)%N.
      * cbn [forallb] in Hs. apply andb_true_iff in Hs as [_ Hs]. apply IH; [lia|assumption].
      * apply IH; [cbn; lia|assumption].
    + cbn [forallb]. rewrite Hx. apply IH; [lia|assumption].
Qed.

Lemma length_string_of_uint d :
  String.length (NilEmpty.string_of_uint d) = Decimal.nb_digits d.
Proof. induction d; cbn; congruence. Qed.

Lemma nb_digits_double d :
  (Decimal.nb_digits (Decimal.Little.double d) <= S (Decimal.nb_digits d))%nat
  /\ (Decimal.nb_digits (Decimal.Little.succ_double d) <= S (Decimal.nb_digits d))%nat.
Proof. induction d; cbn; lia. Qed.

(** A positive number has no more decimal digits than bits. *)
Lemma nb_digits_size p :
  (Decimal.nb_digits (Pos.to_uint p) <= Pos.size_nat p)%nat.
Proof.
  unfold Pos.to_uint. rewrite DecimalFacts.nb_digits_rev.
  induction p as [p IH|p IH|]; cbn [Pos.to_little_uint Pos.size_nat].
  - pose proof (proj2 (nb_digits_double (Pos.to_little_uint p))). lia.
  - pose proof (proj1 (nb_digits_double (Pos.to_little_uint p))). lia.
  - cbn. lia.
Qed.

(** The numeral of a 64-bit counter is far below every digit limit. *)
Lemma counter_digits n :
  Z.abs n < 2 ^ 64 -> (count_digits (str_int n) <= 640)%N.
Proof.
  intros Hn. unfold str_int.
  destruct n as [|p|p]; [cbn; lia| |]; cbn [Z.to_int NilZero.string_of_int];
    rewrite string_of_uint_nonnil by apply DecimalPos.Unsigned.to_uint_nonnil;
    rewrite ?count_digits_minus, (count_digits_all _ (digits_of_uint _)),
      length_string_of_uint;
    pose proof (nb_digits_size p) as Hd;
    assert (Hs : (Pos.size_nat p <= 65)%nat)
      by (apply (Pos.size_nat_monotone p (2 ^ 64)); cbn in Hn; lia);
    lia.
Qed.

Lemma within_limit max_str_digits digits :
  (digits <= 640)%N -> exceeds_limit max_str_digits digits = false.
Proof.
  intros H. unfold exceeds_limit. now rewrite (proj2 (N.ltb_ge 640 digits) H).
Qed.

(** *** What [int] refuses *)

Lemma lstrip_blanks_chars s :
  all_chars literal_char (lstrip_blanks s) = true -> all_chars literal_char s = true.
Proof.
  induction s as [|c s IH]; [reflexivity|].
  cbn [lstrip_blanks]. destruct (is_blank c) eqn:Hc; [|auto].
  intros H. rewrite all_chars_cons, (IH H). unfold literal_char. rewrite Hc.
  now rewrite !orb_true_r.
Qed.

Lemma span_digits_chars s digits tail :
  span_digits s = (digits, tail) ->
  all_chars is_blank tail = true -> all_chars literal_char s = true.
Proof.
  revert digits tail; induction s as [|c s IH]; intros digits tail; [reflexivity|].
  cbn [span_digits]. destruct (is_digit c || Ascii.eqb c "_") eqn:Hc.
  - destruct (span_digits s) as [d t] eqn:Hs. intros [= <- <-] Ht.
    rewrite all_chars_cons, (IH d t eq_refl Ht). unfold literal_char.
    apply orb_true_iff in Hc as [->| ->]; now rewrite ?orb_true_r.
  - intros [= <- <-]. apply all_chars_impl. intros a Ha. unfold literal_char.
    now rewrite Ha, !orb_true_r.
Qed.

(** Where [int] returns, its argument in ASCII form holds nothing but the
    characters of a literal. *)
Lemma int_of_str_chars max_str_digits s n :
  int_of_str max_str_digits s = Ok n -> all_chars literal_char (to_ascii s) = true.
Proof.
  unfold int_of_str. intros H. apply lstrip_blanks_chars.
  destruct (lstrip_blanks (to_ascii s)) as [|c rest]; [reflexivity|].
  assert (Hbody : forall body,
            (let '(digits, tail) := span_digits body in
             match int_digits 0 false digits with
             | Some m =>
                 if exceeds_limit max_str_digits (count_digits digits)
                 then Raise (over_limit max_str_digits (count_digits digits))
                 else if all_chars is_blank tail
                      then Ok (if Ascii.eqb c "-" then (- Z.of_N m)%Z else Z.of_N m)
                      else Raise invalid_literal
             | None => Raise invalid_literal
             end) = Ok n \/
            (let '(digits, tail) := span_digits body in
             match int_digits 0 false digits with
             | Some m =>
                 if exceeds_limit max_str_digits (count_digits digits)
                 then Raise (over_limit max_str_digits (count_digits digits))
                 else if all_chars is_blank tail
                      then Ok (Z.of_N m)
                      else Raise invalid_literal
             | None => Raise invalid_literal
             end) = Ok n ->
            all_chars literal_char body = true).
  { intros body Hb. destruct (span_digits body) as [digits tail] eqn:Hs.
    apply (span_digits_chars _ _ _ Hs).
    destruct (int_digits 0 false digits); [|destruct Hb; discriminate].
    destruct (exceeds_limit max_str_digits (count_digits digits)); [destruct Hb; discriminate|].
    destruct (all_chars is_blank tail); [reflexivity|destruct Hb; discriminate]. }
  rewrite all_chars_cons.
  destruct (Ascii.eqb c "-") eqn:Hminus.
  - rewrite (Hbody rest) by (left; exact H). unfold literal_char.
    now rewrite Hminus, !orb_true_r.
  - destruct (Ascii.eqb c "+") eqn:Hplus.
    + rewrite (Hbody rest) by (right; exact H). unfold literal_char.
      now rewrite Hplus, !orb_true_r.
    + specialize (Hbody (String c rest) (or_intror H)).
      now rewrite all_chars_cons in Hbody.
Qed.

Lemma in_all_chars P s c :
  all_chars P s = true -> In c (list_ascii_of_string s) -> P c = true.
Proof. unfold all_chars. intros H Hin. now apply (proj1 (forallb_forall _ _) H). Qed.

(** An ASCII character that is none of a literal stays one in the ASCII
    form, or the form is cut before it by a question mark. *)
Lemma to_ascii_stray s c :
  In c s -> (c <? 128)%N = true -> literal_char (ascii_of_N c) = false ->
  exists a, In a (list_ascii_of_string (to_ascii s)) /\ literal_char a = false.
Proof.
  intros Hin Hc Hbad. unfold to_ascii.
  destruct (forallb (fun c => (c <? 128)%N) s).
  - exists (ascii_of_N c). split; [|assumption].
    rewrite list_ascii_of_string_of_list_ascii. now apply in_map.
  - induction s as [|x s IH]; [destruct Hin|].
    cbn [transform]. destruct (x <? 127)%N eqn:Hx.
    + destruct Hin as [->|Hin].
      * exists (ascii_of_N c). split; [now left|assumption].
      * destruct (IH Hin) as [a [Ha Hl]]. exists a. split; [now right|assumption].
    + assert (Hq : exists a, In a (list_ascii_of_string "?") /\ literal_char a = false)
        by (exists "?"%char; split; [now left|reflexivity]).
      assert (Hne : x = c -> x = 127%N)
        by (intros ->; apply N.ltb_lt in Hc; apply N.ltb_ge in Hx; lia).
      destruct (isspace x) eqn:Hsp.
      * destruct Hin as [He|Hin]; [rewrite (Hne He) in Hsp; discriminate|].
        destruct (IH Hin) as [a [Ha Hl]]. exists a. split; [now right|assumption].
      * destruct (todecimal x) as [d|] eqn:Hd; [|exact Hq].
        destruct Hin as [He|Hin]; [rewrite (Hne He) in Hd; discriminate|].
        destruct (IH Hin) as [a [Ha Hl]]. exists a. split; [now right|assumption].
Qed.

(** [int] refuses every text that holds an ASCII character other than a
    digit, a sign, an underscore or a blank. *)
Lemma int_of_str_stray max_str_digits s c :
  In c s -> (c <? 128)%N = true -> literal_char (ascii_of_N c) = false ->
  raised (int_of_str max_str_digits s) = true.
Proof.
  intros Hin Hc Hbad.
  destruct (int_of_str max_str_digits s) as [n|e] eqn:H; [|reflexivity].
  destruct (to_ascii_stray s c Hin Hc Hbad) as [a [Ha Hl]].
  rewrite (in_all_chars _ _ _ (int_of_str_chars _ _ _ H) Ha) in Hl. discriminate.
Qed.

End PyFacts.

(** ** Facts on the monad and on the file-system tree *)

Module OSFacts.
Import Py OS Acceptance.
Local Open Scope py_scope.

Lemma bind_ok {A B} (m : M A) (k : A -> M B) w w' a :
  m w = (w', Ok a) -> bind m k w = k a w'.
Proof. unfold bind; now intros ->. Qed.

Lemma bind_raise {A B} (m : M A) (k : A -> M B) w w' e :
  m w = (w', Raise e) -> bind m k w = (w', Raise e).
Proof. unfold bind; now intros ->. Qed.

Lemma bind_ext {A B} (m : M A) (k k' : A -> M B) w :
  (forall a w', k a w' = k' a w') -> bind m k w = bind m k' w.
Proof. intros H. unfold bind. destruct (m w) as [w' [a|e]]; [apply H|reflexivity]. Qed.

Lemma try_ok {A} (m : M A) c h w w' a :
  m w = (w', Ok a) -> try_except m c h w = (w', Ok a).
Proof. unfold try_except; now intros ->. Qed.

Lemma try_caught {A} (m : M A) c h w w' e :
  m w = (w', Raise e) -> c e = true -> try_except m c h w = h e w'.
Proof. unfold try_except; now intros -> ->. Qed.

Lemma os_walk_run top w : exists triples, os_walk top w = (w, Ok triples).
Proof. unfold os_walk; now eexists. Qed.

(** [os.path.getsize] returns, or raises an [OSError]; it changes nothing. *)
Lemma getsize_cases p w :
  (exists n, os_path_getsize p w = (w, Ok n))
  \/ (exists n s, os_path_getsize p w = (w, Raise (OSError n s (Some p)))).
Proof.
  unfold os_path_getsize, os_error, absent.
  destruct (fault w SysStat p) as [[n s]|]; [right; now eexists; eexists|].
  destruct (lookup (root w) (components p)) as [[d|es]|];
    [left; now eexists | left; now eexists |].
  destruct (why_absent (root w) (components p)) as [n s]. right; now eexists; eexists.
Qed.

Lemma for_each_cons {A B} (x : B) xs (acc : A) (body : A -> B -> M A) w :
  for_each (x :: xs) acc body w = bind (body acc x) (fun acc' => for_each xs acc' body) w.
Proof. reflexivity. Qed.

(** A loop whose body always returns and keeps the world: it computes a
    left fold. *)
Lemma for_each_pure {A B} (step : A -> B -> A) (body : A -> B -> M A) w xs :
  (forall acc x, In x xs -> body acc x w = (w, Ok (step acc x))) ->
  forall acc, for_each xs acc body w = (w, Ok (fold_left step xs acc)).
Proof.
  induction xs as [|x xs IH]; intros Hbody acc; [reflexivity|].
  rewrite for_each_cons, (bind_ok _ _ _ _ _ (Hbody acc x (or_introl eq_refl))).
  apply IH. intros acc' y Hy. apply Hbody. now right.
Qed.

(** *** The tree *)

Lemma assoc_set_entry c m es : assoc c (set_entry c m es) = Some m.
Proof.
  induction es as [|[k v] es IH]; cbn.
  - now rewrite String.eqb_refl.
  - destruct (String.eqb c k) eqn:E; cbn; rewrite ?String.eqb_refl, ?E; auto.
Qed.

Lemma assoc_del_entry c es : assoc c (del_entry c es) = None.
Proof.
  induction es as [|[k v] es IH]; cbn; [reflexivity|].
  destruct (String.eqb c k) eqn:E; cbn; rewrite ?E; auto.
Qed.

(** What [put] binds is what [lookup] finds. *)
Lemma lookup_put n p m r : put n p m = Some r -> lookup r p = Some m.
Proof.
  revert n r; induction p as [|c p IH]; intros n r; [discriminate|].
  cbn [put]. destruct n as [d|es]; [discriminate|].
  destruct p as [|c' p'].
  - intros [= <-]. cbn. now rewrite assoc_set_entry.
  - destruct (assoc c es) as [child|]; [|discriminate].
    destruct (put child (c' :: p') m) as [child'|] eqn:E; [|discriminate].
    intros [= <-]. cbn [lookup]. rewrite assoc_set_entry. now apply (IH child).
Qed.

(** Where [put] worked once it works again. *)
Lemma put_again n p m m' r : put n p m = Some r -> exists r', put r p m' = Some r'.
Proof.
  revert n r; induction p as [|c p IH]; intros n r; [discriminate|].
  cbn [put]. destruct n as [d|es]; [discriminate|].
  destruct p as [|c' p'].
  - intros [= <-]. now eexists.
  - destruct (assoc c es) as [child|]; [|discriminate].
    destruct (put child (c' :: p') m) as [child'|] eqn:E; [|discriminate].
    intros [= <-]. rewrite assoc_set_entry.
    destruct (IH _ _ E) as [r' ->]. now eexists.
Qed.

(** An entry that is found can be unlinked, and is not found afterwards. *)
Lemma unlink_found n p x :
  p <> [] -> lookup n p = Some x ->
  exists r, unlink n p = Some r /\ lookup r p = None.
Proof.
  revert n; induction p as [|c p IH]; intros n Hp; [congruence|].
  cbn [lookup unlink]. destruct n as [d|es]; [discriminate|].
  destruct p as [|c' p'].
  - intros _. eexists; split; [reflexivity|]. cbn. now rewrite assoc_del_entry.
  - destruct (assoc c es) as [child|]; [|discriminate]. intros Hl.
    destruct (IH child ltac:(discriminate) Hl) as [r [-> Hr]].
    eexists; split; [reflexivity|]. cbn [lookup]. now rewrite assoc_set_entry.
Qed.

(** *** Creating directories *)

Lemma with_root_same w : with_root (root w) w = w.
Proof. now destruct w. Qed.

(** [mkdir] refuses a path that exists. *)
Lemma make_dir_existing p :
  forall n x, lookup n p = Some x -> exists err, make_dir n p = inr err.
Proof.
  induction p as [|c p IH]; intros n x; [now eexists|].
  cbn [lookup make_dir]. destruct n as [d|es]; [discriminate|].
  destruct (assoc c es) as [child|]; [|discriminate]. intros Hl.
  destruct p as [|c' p']; [now eexists|].
  destruct (IH child x Hl) as [err ->]. now eexists.
Qed.

(** [os.mkdir] changes the tree only, and raises nothing but [OSError]. *)
Lemma os_mkdir_cases p w :
  (exists r, os_mkdir p w = (with_root r w, Ok tt))
  \/ (exists n s, os_mkdir p w = (w, Raise (OSError n s (Some p)))).
Proof.
  unfold os_mkdir, os_error.
  destruct (fault w SysMkdir p) as [[n s]|]; [right; now eexists; eexists|].
  destruct (make_dir (root w) (components p)) as [r|[n s]];
    [left; now eexists|right; now eexists; eexists].
Qed.

(** The last step of [os.makedirs]. *)
Lemma make_last_cases p w :
  let make_last :=
    try_except (os_mkdir p) is_OSError
      (fun e =>
         is_dir <- os_path_isdir p ;;
         if is_dir : bool then ret tt else raise e) in
  (exists r, make_last w = (with_root r w, Ok tt))
  \/ (exists n s, make_last w = (w, Raise (OSError n s (Some p)))).
Proof.
  cbv zeta. unfold try_except.
  destruct (os_mkdir_cases p w) as [[r ->]|[n [s ->]]]; [left; now eexists|].
  cbn [is_OSError]. unfold bind, os_path_isdir.
  destruct (lookup (root w) (components p)) as [[d|es]|];
    [right; now eexists; eexists| |right; now eexists; eexists].
  left. exists (root w). unfold ret. now rewrite with_root_same.
Qed.

(** [os.makedirs] changes the tree only, and raises nothing but
    [OSError]. *)
Lemma make_last_outcome p w r0 :
  tree_outcome w
    (try_except (os_mkdir p) is_OSError
       (fun e =>
          is_dir <- os_path_isdir p ;;
          if is_dir : bool then ret tt else raise e) (with_root r0 w)).
Proof.
  destruct (make_last_cases p (with_root r0 w)) as [[r H]|[n [s H]]]; cbv zeta in H;
    rewrite H.
  - left. now exists r.
  - right. exists r0. eexists. now split.
Qed.

Lemma tree_outcome_here w (outcome : World -> World * result unit) :
  (forall r0, tree_outcome w (outcome (with_root r0 w))) -> tree_outcome w (outcome w).
Proof. intros H. specialize (H (root w)). now rewrite with_root_same in H. Qed.

Lemma makedirs_outcome depth :
  forall name w, tree_outcome w (makedirs depth name w).
Proof.
  induction depth as [|depth IH]; intros name w; cbn [makedirs];
    destruct (split name) as [head0 tail0];
    destruct (if nonempty tail0 then (head0, tail0) else split head0) as [head tail];
    (destruct (nonempty head && nonempty tail);
       [|apply tree_outcome_here; intros r0; apply make_last_outcome]);
    unfold bind at 1, os_path_exists;
    (destruct (lookup (root w) (components head));
       [apply tree_outcome_here; intros r0; apply make_last_outcome|]).
  - unfold bind at 1, ret at 1.
    destruct (String.eqb tail ".");
      [|apply tree_outcome_here; intros r0; apply make_last_outcome].
    left. exists (root w). unfold ret. now rewrite with_root_same.
  - unfold bind at 1, try_except at 1.
    destruct (IH head w) as [[r ->]|[r [e [-> He]]]].
    + destruct (String.eqb tail "."); [left; now exists r|apply make_last_outcome].
    + destruct (is_FileExistsError e).
      * unfold ret at 1.
        destruct (String.eqb tail "."); [left; now exists r|apply make_last_outcome].
      * right. now exists r, e.
Qed.

Lemma os_makedirs_outcome p w : tree_outcome w (os_makedirs p w).
Proof. apply makedirs_outcome. Qed.

(** The head of [/app] is the root, which exists: [os.makedirs] goes no
    further up, whatever depth it is given. *)
Lemma makedirs_app depth w :
  makedirs depth "/app" w
  = try_except (os_mkdir "/app") is_OSError
      (fun e =>
         is_dir <- os_path_isdir "/app" ;;
         if is_dir : bool then ret tt else raise e) w.
Proof. destruct depth; reflexivity. Qed.

(** So for [/app/data], the directory of the test file, a depth of 1 is
    enough: the recursion is never cut short by [depth]. *)
Lemma makedirs_depth depth w :
  makedirs (S depth) "/app/data" w = makedirs 1 "/app/data" w.
Proof.
  change (makedirs (S depth) "/app/data" w)
    with (bind (os_path_exists "/app") (fun found =>
            if found : bool
            then try_except (os_mkdir "/app/data") is_OSError
                   (fun e =>
                      is_dir <- os_path_isdir "/app/data" ;;
                      if is_dir : bool then ret tt else raise e)
            else
              try_except (makedirs depth "/app") is_FileExistsError (fun _ => ret tt) ;;
              try_except (os_mkdir "/app/data") is_OSError
                (fun e =>
                   is_dir <- os_path_isdir "/app/data" ;;
                   if is_dir : bool then ret tt else raise e)) w).
  change (makedirs 1 "/app/data" w)
    with (bind (os_path_exists "/app") (fun found =>
            if found : bool
            then try_except (os_mkdir "/app/data") is_OSError
                   (fun e =>
                      is_dir <- os_path_isdir "/app/data" ;;
                      if is_dir : bool then ret tt else raise e)
            else
              try_except (makedirs 0 "/app") is_FileExistsError (fun _ => ret tt) ;;
              try_except (os_mkdir "/app/data") is_OSError
                (fun e =>
                   is_dir <- os_path_isdir "/app/data" ;;
                   if is_dir : bool then ret tt else raise e)) w).
  apply bind_ext. intros [|] w'; [reflexivity|].
  unfold bind at 1 3, try_except at 1 3. now rewrite !makedirs_app.
Qed.

(** *** Ranges and item assignment *)

Lemma range3_bounds n i : In i (range3 0 n 1024) -> 0 <= i < n.
Proof.
  unfold range3. destruct (n <=? 0) eqn:E; [intros []|].
  apply Z.leb_gt in E. rewrite in_map_iff. intros [k [<- Hk]].
  apply in_seq in Hk.
  assert (Hq : Z.of_nat k < (n - 0 + 1024 - 1) / 1024).
  { assert (0 <= (n - 0 + 1024 - 1) / 1024) by (apply Z.div_pos; lia). lia. }
  pose proof (Z.mul_div_le (n - 0 + 1024 - 1) 1024 ltac:(lia)). lia.
Qed.

Lemma setitem_nat_some a i v :
  (i < List.length a)%nat ->
  exists a', setitem_nat a i v = Some a' /\ List.length a' = List.length a.
Proof.
  revert i; induction a as [|x a IH]; intros i Hi; [cbn in Hi; lia|].
  destruct i as [|j]; cbn.
  - now eexists.
  - destruct (IH j ltac:(cbn in Hi; lia)) as [a' [-> Hl]].
    eexists; split; [reflexivity|]. cbn. now rewrite Hl.
Qed.

(** Storing at indices within the buffer always returns. *)
Lemma touch_loop_run w indices :
  forall a,
    (forall i, In i indices -> 0 <= i < Z.of_nat (List.length a)) ->
    exists a',
      for_each indices a (fun memory_data i => setitem memory_data i 1) w = (w, Ok a')
      /\ List.length a' = List.length a.
Proof.
  induction indices as [|i rest IH]; intros a Hin.
  - exists a. now split.
  - destruct (setitem_nat_some a (Z.to_nat i) 1) as [a1 [Hs Hl]];
      [specialize (Hin i (or_introl eq_refl)); lia|].
    destruct (IH a1) as [a' [Hrun Hl']].
    { intros j Hj. rewrite Hl. apply Hin. now right. }
    exists a'. split; [|congruence].
    rewrite for_each_cons. unfold bind at 1, setitem at 1. rewrite Hs. exact Hrun.
Qed.

End OSFacts.

(** ** Limit resolution *)

Module LimitResolver.
Import Py OS App OSFacts PyFacts Accounting.
Local Open Scope py_scope.

Lemma stray_char a :
  stray (N_of_ascii a) = true ->
  literal_char a = false /\ isspace (N_of_ascii a) = false.
Proof.
  destruct a as [[] [] [] [] [] [] [] []]; intros H; try discriminate H; split; reflexivity.
Qed.

Lemma stray_code c :
  stray c = true ->
  (c <? 128)%N = true /\ literal_char (ascii_of_N c) = false /\ isspace c = false.
Proof.
  intros H.
  assert (Hc : (c <? 128)%N = true)
    by (unfold stray in H; now apply andb_true_iff in H as [Hc _]).
  split; [assumption|].
  assert (Hlt : (c < 256)%N) by (apply N.ltb_lt in Hc; lia).
  pose proof (N_ascii_embedding c Hlt) as He.
  rewrite <- He in H. destruct (stray_char _ H) as [Hl Hs]. rewrite He in Hs. now split.
Qed.

(** What the two steps after the read make of a decoded file. *)
Lemma parsed_cases w data :
  (decode (encoding w) data = None -> parsed w data = None)
  /\ (forall s, decode (encoding w) data = Some s ->
        forallb isspace s = true -> parsed w data = None)
  /\ (forall s c, decode (encoding w) data = Some s ->
        In c s -> stray c = true -> parsed w data = None).
Proof.
  unfold parsed, read_as. split; [now intros ->|split].
  - intros s -> Hs. cbn [option_map].
    now rewrite (strip_blank _ (universal_newlines_space _ Hs)).
  - intros s c -> Hin Hc. cbn [option_map].
    destruct (stray_code c Hc) as [Hlt [Hbad Hsp]].
    assert (Hcr : (c =? 13)%N = false)
      by (destruct (c =? 13)%N eqn:E; [apply N.eqb_eq in E; now subst c|reflexivity]).
    pose proof (int_of_str_stray (int_max_str_digits w) _ c
                  (in_strip _ _ (in_universal_newlines _ _ Hin Hcr) Hsp) Hlt Hbad) as Hr.
    now destruct (int_of_str (int_max_str_digits w) (strip (universal_newlines s))).
Qed.

(** The numeral of [n] behind a line feed: [n], unless the numeral is
    longer than the interpreter lets [int] read. *)
Lemma parsed_numeral w n :
  parsed w (str_int n ++ String "010" EmptyString)
  = if exceeds_limit (int_max_str_digits w) (count_digits (str_int n))
    then None else Some n.
Proof.
  unfold parsed, read_as.
  pose proof (numeral_line (encoding w) n) as H.
  destruct (decode (encoding w) (str_int n ++ String "010" EmptyString)) as [s|];
    [|discriminate]. cbn [option_map] in *. injection H as ->.
  rewrite int_of_numeral.
  now destruct (exceeds_limit (int_max_str_digits w) (count_digits (str_int n))).
Qed.

(** What a reader of accounting file [path] returns, by the state of the
    file: shared by [get_memory_limit] and [get_cgroup_memory], which differ
    in the path only. *)
Lemma reader_cases path w :
  let reader :=
    try_except
      (text <- read_text path ;;
       n <- int (strip text) ;;
       ret (Some n))
      anything (fun _ => ret None) in
  (exists v, reader w = (w, Ok v))
  /\ (lookup (root w) (components path) = None -> reader w = (w, Ok None))
  /\ (forall err, fault w SysOpenRead path = Some err -> reader w = (w, Ok None))
  /\ (forall es, lookup (root w) (components path) = Some (Dir es) ->
        reader w = (w, Ok None))
  /\ (forall data, fault w SysOpenRead path = None ->
        lookup (root w) (components path) = Some (File data) ->
        reader w = (w, Ok (parsed w data))).
Proof.
  intros reader.
  assert (Hfile : forall data, fault w SysOpenRead path = None ->
            lookup (root w) (components path) = Some (File data) ->
            reader w = (w, Ok (parsed w data))).
  { intros data Hf Hl.
    unfold reader, try_except, bind, read_text, os_error, int, ret, anything, parsed, read_as.
    rewrite Hf, Hl.
    destruct (decode (encoding w) data) as [s|]; [|reflexivity]. cbn [option_map].
    now destruct (int_of_str (int_max_str_digits w) (strip (universal_newlines s))). }
  split; [|split; [|split; [|split]]].
  - destruct (fault w SysOpenRead path) as [[n s]|] eqn:Hf.
    + eexists. unfold reader, try_except, bind, read_text, os_error. now rewrite Hf.
    + destruct (lookup (root w) (components path)) as [[d|es]|] eqn:Hl.
      * eexists. now apply Hfile.
      * eexists. unfold reader, try_except, bind, read_text, os_error. now rewrite Hf, Hl.
      * eexists. unfold reader, try_except, bind, read_text, os_error. now rewrite Hf, Hl.
  - intros Hl. unfold reader, try_except, bind, read_text, os_error.
    rewrite Hl. now destruct (fault w SysOpenRead path) as [[n s]|].
  - intros [n s] Hf. unfold reader, try_except, bind, read_text, os_error.
    now rewrite Hf.
  - intros es Hl. unfold reader, try_except, bind, read_text, os_error.
    rewrite Hl. now destruct (fault w SysOpenRead path) as [[n s]|].
  - exact Hfile.
Qed.

(** C6: limit resolution never fails.  Whatever the state of the two cgroup
    accounting files, [get_memory_limit] and [get_cgroup_memory] return, and
    leave the world as it was.  The field is [None] when the file is missing,
    when it cannot be opened, when it is a directory, when its bytes cannot
    be decoded, when it holds whitespace only, when it holds an ASCII
    character that is no digit, sign, underscore or whitespace, and when it
    holds a numeral with more digits than the interpreter lets [int] read.
    It is the integer when the file holds the numeral of a counter of up to
    64 bits followed by a line feed, as the kernel writes it, and more
    generally whatever [int] makes of the decoded and stripped content. *)
Theorem limit_resolution_never_fails :
  forall (w : World) (path : string) (reader : M (option Z)),
    In (path, reader) [(limit_file, get_memory_limit); (usage_file, get_cgroup_memory)] ->
    (exists v, reader w = (w, Ok v))
    /\ (lookup (root w) (components path) = None -> reader w = (w, Ok None))
    /\ (forall err, fault w SysOpenRead path = Some err -> reader w = (w, Ok None))
    /\ (forall es, lookup (root w) (components path) = Some (Dir es) ->
          reader w = (w, Ok None))
    /\ (forall data,
          fault w SysOpenRead path = None ->
          lookup (root w) (components path) = Some (File data) ->
          reader w = (w, Ok (parsed w data))
          /\ (decode (encoding w) data = None -> reader w = (w, Ok None))
          /\ (forall s, decode (encoding w) data = Some s ->
                forallb isspace s = true -> reader w = (w, Ok None))
          /\ (forall s c, decode (encoding w) data = Some s ->
                In c s -> stray c = true -> reader w = (w, Ok None)))
    /\ (forall n,
          fault w SysOpenRead path = None ->
          lookup (root w) (components path)
            = Some (File (str_int n ++ String "010" EmptyString)) ->
          (Z.abs n < 2 ^ 64 -> reader w = (w, Ok (Some n)))
          /\ (exceeds_limit (int_max_str_digits w) (count_digits (str_int n)) = false ->
              reader w = (w, Ok (Some n)))
          /\ (exceeds_limit (int_max_str_digits w) (count_digits (str_int n)) = true ->
              reader w = (w, Ok None))).
Proof.
  intros w path reader Hin.
  assert (Hcases :
    (exists v, reader w = (w, Ok v))
    /\ (lookup (root w) (components path) = None -> reader w = (w, Ok None))
    /\ (forall err, fault w SysOpenRead path = Some err -> reader w = (w, Ok None))
    /\ (forall es, lookup (root w) (components path) = Some (Dir es) ->
          reader w = (w, Ok None))
    /\ (forall data, fault w SysOpenRead path = None ->
          lookup (root w) (components path) = Some (File data) ->
          reader w = (w, Ok (parsed w data))))
    by (destruct Hin as [H|[H|[]]]; inversion H; subst; apply reader_cases).
  destruct Hcases as [Htotal [Hmissing [Hlocked [Hdir Hfile]]]].
  split; [assumption|]. split; [assumption|]. split; [assumption|].
  split; [assumption|]. split.
  - intros data Hf Hl. rewrite (Hfile data Hf Hl).
    destruct (parsed_cases w data) as [Hbytes [Hblank Hstray]].
    split; [reflexivity|]. split; [now intros ->%Hbytes|]. split.
    + intros s Hs Hb. now rewrite (Hblank s Hs Hb).
    + intros s c Hs Hc Hbad. now rewrite (Hstray s c Hs Hc Hbad).
  - intros n Hf Hl. rewrite (Hfile _ Hf Hl), parsed_numeral.
    split; [|split].
    + intros Hn. now rewrite (within_limit _ _ (counter_digits n Hn)).
    + now intros ->.
    + now intros ->.
Qed.

(** The states of the limit file, on concrete machines: the counters that
    the kernel wrote; no accounting at all; files that may not be opened;
    the word [max] and an empty file; a limit of 42 followed by a no-break
    space and bytes that are no UTF-8; a numeral of 4301 digits and one of
    4300 digits. *)
Lemma limit_resolution_never_fails_witness :
  get_memory_limit Sim.container = (Sim.container, Ok (Some 536870912))
  /\ get_cgroup_memory Sim.container = (Sim.container, Ok (Some 1048576))
  /\ get_memory_limit Sim.bare = (Sim.bare, Ok None)
  /\ get_cgroup_memory Sim.locked_cgroup = (Sim.locked_cgroup, Ok None)
  /\ get_memory_limit Sim.odd = (Sim.odd, Ok None)
  /\ get_cgroup_memory Sim.odd = (Sim.odd, Ok None)
  /\ get_memory_limit Sim.padded = (Sim.padded, Ok (Some 42))
  /\ get_cgroup_memory Sim.padded = (Sim.padded, Ok None)
  /\ get_memory_limit Sim.long_numbers = (Sim.long_numbers, Ok None)
  /\ get_cgroup_memory Sim.long_numbers = (Sim.long_numbers, Ok (Some (10 ^ 4299))).
Proof.
  pose proof (limit_resolution_never_fails Sim.container limit_file get_memory_limit
                (or_introl eq_refl)) as [_ [_ [_ [_ [_ Hc1]]]]].
  pose proof (limit_resolution_never_fails Sim.container usage_file get_cgroup_memory
                (or_intror (or_introl eq_refl))) as [_ [_ [_ [_ [_ Hc2]]]]].
  pose proof (limit_resolution_never_fails Sim.bare limit_file get_memory_limit
                (or_introl eq_refl)) as [_ [Hb _]].
  pose proof (limit_resolution_never_fails Sim.locked_cgroup usage_file get_cgroup_memory
                (or_intror (or_introl eq_refl))) as [_ [_ [Hl _]]].
  pose proof (limit_resolution_never_fails Sim.odd limit_file get_memory_limit
                (or_introl eq_refl)) as [_ [_ [_ [_ [Ho1 _]]]]].
  pose proof (limit_resolution_never_fails Sim.odd usage_file get_cgroup_memory
                (or_intror (or_introl eq_refl))) as [_ [_ [_ [_ [Ho2 _]]]]].
  pose proof (limit_resolution_never_fails Sim.padded limit_file get_memory_limit
                (or_introl eq_refl)) as [_ [_ [_ [_ [Hp1 _]]]]].
  pose proof (limit_resolution_never_fails Sim.padded usage_file get_cgroup_memory
                (or_intror (or_introl eq_refl))) as [_ [_ [_ [_ [Hp2 _]]]]].
  pose proof (limit_resolution_never_fails Sim.long_numbers limit_file get_memory_limit
                (or_introl eq_refl)) as [_ [_ [_ [_ [_ Hn1]]]]].
  pose proof (limit_resolution_never_fails Sim.long_numbers usage_file get_cgroup_memory
                (or_intror (or_introl eq_refl))) as [_ [_ [_ [_ [_ Hn2]]]]].
  split; [|split; [|split; [|split; [|split; [|split; [|split; [|split; [|split]]]]]]]].
  - apply (Hc1 536870912 eq_refl eq_refl). reflexivity.
  - apply (Hc2 1048576 eq_refl eq_refl). reflexivity.
  - apply Hb. reflexivity.
  - apply (Hl Sim.denied). reflexivity.
  - refine (proj2 (proj2 (proj2 (Ho1 _ eq_refl eq_refl))) _ 109%N eq_refl _ eq_refl).
    left. reflexivity.
  - refine (proj1 (proj2 (proj2 (Ho2 _ eq_refl eq_refl))) _ eq_refl eq_refl).
  - rewrite (proj1 (Hp1 _ eq_refl eq_refl)). reflexivity.
  - exact (proj1 (proj2 (Hp2 _ eq_refl eq_refl)) eq_refl).
  - apply (Hn1 (10 ^ 4300) eq_refl eq_refl). vm_compute. reflexivity.
  - apply (Hn2 (10 ^ 4299) eq_refl eq_refl). vm_compute. reflexivity.
Defined.

Lemma get_memory_limit_total w : exists v, get_memory_limit w = (w, Ok v).
Proof. apply (reader_cases limit_file w). Qed.

Lemma get_cgroup_memory_total w : exists v, get_cgroup_memory w = (w, Ok v).
Proof. apply (reader_cases usage_file w). Qed.

End LimitResolver.

(** ** Recursive size and file count *)

Module Walk.
Import Py OS App OSFacts Reference.
Local Open Scope py_scope.

(** One turn of the inner loop of [get_directory_size]. *)
Lemma add_size_run w total file :
  try_except
    (size <- os_path_getsize file ;; ret (total + size))
    is_OSError (fun _ => ret total) w
  = (w, Ok (total + size_or_zero w file)).
Proof.
  unfold size_or_zero, readable_size.
  destruct (getsize_cases file w) as [[n H]|[n [s H]]]; rewrite H; cbn [snd].
  - now rewrite (try_ok _ _ _ _ _ (total + n) (bind_ok _ _ _ _ _ H)).
  - rewrite (try_caught _ _ _ _ _ _ (bind_raise _ _ _ _ _ H) eq_refl).
    unfold ret. now rewrite Z.add_0_r.
Qed.

Lemma fold_add_sizes (f : string -> Z) files total :
  fold_left (fun t file => t + f file) files total = total + sum (map f files).
Proof.
  revert total; induction files as [|x xs IH]; intros total; simpl.
  - lia.
  - rewrite IH. unfold sum. lia.
Qed.

Lemma sum_app l1 l2 : sum (l1 ++ l2) = sum l1 + sum l2.
Proof. unfold sum. induction l1; simpl; lia. Qed.

(** Unreadable files weigh nothing, so leaving them out keeps the sum. *)
Lemma sum_readable_only w files :
  sum (map (size_or_zero w) files)
  = sum (map (size_or_zero w) (filter (readable w) files)).
Proof.
  induction files as [|x xs IH]; [reflexivity|].
  simpl. unfold readable at 1, size_or_zero at 1.
  destruct (readable_size w x) eqn:E; simpl.
  - unfold size_or_zero at 2. rewrite E. unfold sum in *. simpl. lia.
  - unfold sum in *. simpl. lia.
Qed.

Lemma sizes_loop_run w triples :
  forall total,
    for_each triples total (fun total_size triple =>
      let '(dirpath, _, filenames) := triple in
      for_each filenames total_size (fun total_size filename =>
        let filepath := join dirpath filename in
        try_except
          (size <- os_path_getsize filepath ;; ret (total_size + size))
          is_OSError (fun _ => ret total_size))) w
    = (w, Ok (total + sum (map (size_or_zero w)
                (flat_map files_of triples)))).
Proof.
  induction triples as [|[[dirpath dirs] filenames] rest IH]; intros total.
  - simpl. unfold ret, sum. simpl. now rewrite Z.add_0_r.
  - rewrite for_each_cons.
    erewrite bind_ok.
    2:{ apply (for_each_pure (fun t filename => t + size_or_zero w (join dirpath filename))).
        intros acc x _. apply add_size_run. }
    rewrite IH. cbn [flat_map]. rewrite map_app, sum_app.
    change (files_of (dirpath, dirs, filenames)) with (map (join dirpath) filenames).
    rewrite (fold_add_sizes (fun filename => size_or_zero w (join dirpath filename))).
    rewrite map_map. do 2 f_equal. lia.
Qed.

Lemma get_directory_size_run w path :
  get_directory_size path w = (w, Ok (readable_total w path)).
Proof.
  unfold get_directory_size, readable_total, listed_files, walked.
  destruct (os_walk_run path w) as [triples Hw]. rewrite Hw. cbn [snd].
  erewrite try_ok; [reflexivity|].
  rewrite (bind_ok _ _ _ _ _ Hw), sizes_loop_run.
  now rewrite <- sum_readable_only.
Qed.

Lemma count_loop_run w triples :
  forall count,
    for_each triples count (fun count triple =>
      let '(_, _, files) := triple in
      ret (count + Z.of_nat (List.length files))) w
    = (w, Ok (count + Z.of_nat (List.length
                (flat_map files_of triples)))).
Proof.
  induction triples as [|[[dirpath dirs] filenames] rest IH]; intros count.
  - simpl. unfold ret. now rewrite Z.add_0_r.
  - rewrite for_each_cons. unfold bind at 1, ret at 1. rewrite IH.
    cbn [flat_map]. rewrite length_app.
    change (files_of (dirpath, dirs, filenames)) with (map (join dirpath) filenames).
    rewrite length_map. do 2 f_equal. lia.
Qed.

Lemma count_files_run w path :
  count_files path w = (w, Ok (Z.of_nat (List.length (listed_files w path)))).
Proof.
  unfold count_files, listed_files, walked.
  destruct (os_walk_run path w) as [triples Hw]. rewrite Hw. cbn [snd].
  erewrite try_ok; [reflexivity|].
  now rewrite (bind_ok _ _ _ _ _ Hw), count_loop_run.
Qed.

Lemma walked_nothing w path : top_level_failure w path -> walked w path = [].
Proof.
  unfold walked, os_walk; cbn [snd].
  intros [H|[[d H]|[err H]]]; try (now rewrite H).
  destruct (lookup (root w) (components path)) as [[d|es]|]; try reflexivity.
  simpl. now rewrite H.
Qed.

(** C5: the recursive size and the recursive file count always return.  The
    size is the sum of the sizes of the files on which [os.path.getsize]
    succeeds: a file whose [stat] fails adds nothing and does not stop the
    walk.  The count is the number of file names that the walk lists.  When
    the walk fails at the top, both are 0.  Neither changes the world. *)
Theorem directory_helpers_never_raise :
  forall (w : World) (path : string),
    get_directory_size path w = (w, Ok (readable_total w path))
    /\ count_files path w = (w, Ok (Z.of_nat (List.length (listed_files w path))))
    /\ (top_level_failure w path ->
        get_directory_size path w = (w, Ok 0) /\ count_files path w = (w, Ok 0)).
Proof.
  intros w path. split; [apply get_directory_size_run|].
  split; [apply count_files_run|].
  intros Hfail. rewrite get_directory_size_run, count_files_run.
  unfold readable_total, listed_files. now rewrite (walked_nothing _ _ Hfail).
Qed.

(** One unreadable file among readable ones; a directory that cannot be
    listed; a path that does not exist. *)
Lemma directory_helpers_never_raise_witness :
  (get_directory_size "/app/data" Sim.container = (Sim.container, Ok 7)
   /\ get_directory_size "/app/data" Sim.unreadable_file = (Sim.unreadable_file, Ok 5)
   /\ count_files "/app/data" Sim.unreadable_file = (Sim.unreadable_file, Ok 2))
  /\ (get_directory_size "/app/data" Sim.unlistable = (Sim.unlistable, Ok 0)
      /\ count_files "/app/data" Sim.unlistable = (Sim.unlistable, Ok 0))
  /\ (get_directory_size "/var/log" Sim.bare = (Sim.bare, Ok 0)
      /\ count_files "/var/log" Sim.bare = (Sim.bare, Ok 0)).
Proof.
  split; [split; [|split]|split].
  - exact (proj1 (directory_helpers_never_raise Sim.container "/app/data")).
  - exact (proj1 (directory_helpers_never_raise Sim.unreadable_file "/app/data")).
  - exact (proj1 (proj2 (directory_helpers_never_raise Sim.unreadable_file "/app/data"))).
  - apply (directory_helpers_never_raise Sim.unlistable "/app/data").
    right; right. exists Sim.denied. reflexivity.
  - apply (directory_helpers_never_raise Sim.bare "/var/log").
    left. reflexivity.
Defined.

End Walk.

(** ** Volume enumeration *)

Module Volumes.
Import Py OS App OSFacts Reference VolumeRecord Acceptance.
Local Open Scope py_scope.

(** One turn of the loop: it always appends one record to [volumes]. *)
Lemma inspect_volume_run w volumes path :
  inspect_volume volumes path w = (w, Ok (volumes ++ [volume_record w path])%list).
Proof.
  unfold inspect_volume, volume_record, os_path_exists, bind at 1.
  destruct (lookup (root w) (components path)) as [n|] eqn:Hl; [|reflexivity].
  destruct (fault w SysStat path) as [[n' s]|] eqn:Hf.
  - erewrite try_caught; [reflexivity| |reflexivity].
    apply bind_raise. unfold os_stat, os_error. now rewrite Hf.
  - erewrite try_ok; [reflexivity|].
    erewrite bind_ok by (unfold os_stat, os_error; now rewrite Hf, Hl).
    unfold os_path_ismount, bind at 1.
    rewrite (bind_ok _ _ _ _ _ (Walk.get_directory_size_run w path)).
    now rewrite (bind_ok _ _ _ _ _ (Walk.count_files_run w path)).
Qed.

Lemma get_volume_info_run w :
  get_volume_info w
  = (w, Ok (VDict [("volumes", VList (map (volume_record w) volume_paths));
                   ("environment_variables", environment_variables w)])).
Proof.
  unfold get_volume_info.
  erewrite bind_ok
    by (apply (for_each_pure (fun volumes path => (volumes ++ [volume_record w path])%list));
        intros; apply inspect_volume_run).
  reflexivity.
Qed.

(** C7, as the code has it: the volume enumeration always returns, with one
    record per candidate path, in the order of the paths.  For a path that
    does not exist the record is [{path, exists: False}] and nothing else.
    For a path that exists and on which [os.stat] raises [e], the record is
    [{path, exists: True, error: str(e)}], without size or file count; the
    paths after it are examined all the same.  An error met after [os.stat]
    is not reported: [os.path.ismount] and the two directory helpers return
    whatever they meet, so when [os.stat] returns the record is the full
    one, its size the sum of the sizes of the files that could be read and
    its count the number of files listed, and both are 0 when the directory
    cannot be listed. *)
Theorem volume_enumeration_records :
  forall w : World,
  exists records : list value,
    get_volume_info w
    = (w, Ok (VDict [("volumes", VList records);
                     ("environment_variables", environment_variables w)]))
    /\ List.length records = List.length volume_paths
    /\ forall (i : nat) (path : string) (record : value),
         nth_error volume_paths i = Some path ->
         nth_error records i = Some record ->
         (snd (os_path_exists path w) = Ok false ->
          record = VDict [("path", VStr path); ("exists", VBool false)])
         /\ (snd (os_path_exists path w) = Ok true ->
             forall e, snd (os_stat path w) = Raise e ->
             record = VDict [("path", VStr path); ("exists", VBool true);
                             ("error", VStr (str_exn e))])
         /\ (snd (os_path_exists path w) = Ok true ->
             snd (os_stat path w) = Ok tt ->
             record = VDict [("path", VStr path); ("exists", VBool true);
                             ("is_mount", VBool (mounts w path));
                             ("size", VInt (readable_total w path));
                             ("files", VInt (Z.of_nat (List.length (listed_files w path))))]
             /\ (top_level_failure w path ->
                 record = VDict [("path", VStr path); ("exists", VBool true);
                                 ("is_mount", VBool (mounts w path));
                                 ("size", VInt 0); ("files", VInt 0)])).
Proof.
  intros w. exists (map (volume_record w) volume_paths).
  split; [apply get_volume_info_run|]. split; [now rewrite length_map|].
  intros i path record Hp Hr.
  rewrite nth_error_map, Hp in Hr. injection Hr as <-.
  unfold volume_record, os_path_exists, os_stat, os_error; cbn [snd].
  destruct (lookup (root w) (components path)) as [n|].
  - split; [discriminate|].
    destruct (fault w SysStat path) as [[n' s]|]; cbn [snd].
    + split; [intros _ e [= <-]; reflexivity|discriminate].
    + split; [discriminate|]. intros _ _. split; [reflexivity|].
      intros Hfail. unfold volume_found, readable_total, listed_files.
      now rewrite (Walk.walked_nothing _ _ Hfail).
  - split; [reflexivity|]. split; discriminate.
Qed.

(** [/app/logs] does not exist; [/tmp] vanishes before it is examined, and
    [/var/log], which comes after it, is still reported; [/app/data] is
    examined in full. *)
Lemma volume_enumeration_records_witness :
  exists records : list value,
    snd (get_volume_info Sim.vanishing_tmp)
    = Ok (VDict [("volumes", VList records);
                 ("environment_variables", environment_variables Sim.vanishing_tmp)])
    /\ nth_error records 0
       = Some (VDict [("path", VStr "/app/data"); ("exists", VBool true);
                      ("is_mount", VBool true); ("size", VInt 7); ("files", VInt 2)])
    /\ nth_error records 1 = Some (VDict [("path", VStr "/app/logs"); ("exists", VBool false)])
    /\ nth_error records 3
       = Some (VDict [("path", VStr "/tmp"); ("exists", VBool true);
                      ("error", VStr "[Errno 2] No such file or directory: '/tmp'")])
    /\ nth_error records 4 = Some (VDict [("path", VStr "/var/log"); ("exists", VBool false)]).
Proof.
  destruct (volume_enumeration_records Sim.vanishing_tmp) as [records [Hrun [Hlen Hrec]]].
  exists records. split; [now rewrite Hrun|].
  destruct records as [|r0 [|r1 [|r2 [|r3 [|r4 [|r5 rest]]]]]]; try discriminate Hlen.
  split; [|split; [|split]].
  - cbn [nth_error]. f_equal.
    exact (proj1 (proj2 (proj2 (Hrec 0%nat "/app/data" r0 eq_refl eq_refl)) eq_refl eq_refl)).
  - cbn [nth_error]. f_equal.
    apply (Hrec 1%nat "/app/logs" r1 eq_refl eq_refl). reflexivity.
  - cbn [nth_error]. f_equal.
    refine (proj1 (proj2 (Hrec 3%nat "/tmp" r3 eq_refl eq_refl)) eq_refl
              (OSError ENOENT "No such file or directory" (Some "/tmp")) eq_refl).
  - cbn [nth_error]. f_equal.
    apply (Hrec 4%nat "/var/log" r4 eq_refl eq_refl). reflexivity.
Defined.

(** C7 as stated does not hold: a file system error during the inspection
    of a path that exists does not always give the record with [error].  On
    the first machine [/app/data] cannot be listed: [scandir] fails with
    [EACCES] inside [os.walk]; on the second the size of
    [/app/data/sub/b] cannot be read: [os.path.getsize] raises
    [PermissionError].  Both times the record of [/app/data] has a size and
    a file count and no [error]. *)
Lemma inspection_errors_not_reported :
  (snd (os_path_exists "/app/data" Sim.unlistable) = Ok true
   /\ fault Sim.unlistable SysScandir "/app/data" = Some (EACCES, "Permission denied")
   /\ exists records,
        snd (get_volume_info Sim.unlistable)
        = Ok (VDict [("volumes", VList records);
                     ("environment_variables", environment_variables Sim.unlistable)])
        /\ nth_error records 0
           = Some (VDict [("path", VStr "/app/data"); ("exists", VBool true);
                          ("is_mount", VBool true); ("size", VInt 0); ("files", VInt 0)])
        /\ forall record, nth_error records 0 = Some record -> ~ reports_failure record)
  /\ (snd (os_path_exists "/app/data" Sim.unreadable_file) = Ok true
      /\ snd (os_path_getsize "/app/data/sub/b" Sim.unreadable_file)
         = Raise (OSError EACCES "Permission denied" (Some "/app/data/sub/b"))
      /\ exists records,
           snd (get_volume_info Sim.unreadable_file)
           = Ok (VDict [("volumes", VList records);
                        ("environment_variables", environment_variables Sim.unreadable_file)])
           /\ nth_error records 0
              = Some (VDict [("path", VStr "/app/data"); ("exists", VBool true);
                             ("is_mount", VBool true); ("size", VInt 5); ("files", VInt 2)])
           /\ forall record, nth_error records 0 = Some record -> ~ reports_failure record).
Proof.
  split.
  - split; [reflexivity|]. split; [reflexivity|].
    eexists. rewrite get_volume_info_run. cbn [snd]. split; [reflexivity|].
    split; [reflexivity|].
    intros record [= <-] [[message Herr] _]. discriminate Herr.
  - split; [reflexivity|]. split; [reflexivity|].
    eexists. rewrite get_volume_info_run. cbn [snd]. split; [reflexivity|].
    split; [reflexivity|].
    intros record [= <-] [[message Herr] _]. discriminate Herr.
Qed.

End Volumes.

(** ** Memory and disk snapshots *)

Module Metrics.
Import Py OS App OSFacts Percent.
Local Open Scope py_scope.

Lemma get_memory_info_run w :
  exists limit usage,
    get_memory_info w
    = (tick (tick w),
       Ok (VDict
         [("virtual_memory", VDict
             [("total", VInt (vm_total (vmem_at w (ticks w))));
              ("available", VInt (vm_available (vmem_at w (ticks w))));
              ("used", VInt (vm_used (vmem_at w (ticks w))));
              ("free", VInt (vm_free (vmem_at w (ticks w))));
              ("percent", VFloat (vm_percent (vmem_at w (ticks w))));
              ("cached", VInt (match vm_cached (vmem_at w (ticks w)) with
                               | Some c => c | None => 0 end));
              ("buffers", VInt (match vm_buffers (vmem_at w (ticks w)) with
                                | Some b => b | None => 0 end))]);
          ("swap_memory", VDict
             [("total", VInt (sw_total (swap_at w (S (ticks w)))));
              ("used", VInt (sw_used (swap_at w (S (ticks w)))));
              ("free", VInt (sw_free (swap_at w (S (ticks w)))));
              ("percent", VFloat (sw_percent (swap_at w (S (ticks w)))))]);
          ("container_info", VDict
             [("memory_limit", of_option_int limit);
              ("cgroup_memory", of_option_int usage)])])).
Proof.
  destruct (LimitResolver.get_memory_limit_total (tick (tick w))) as [limit Hl].
  destruct (LimitResolver.get_cgroup_memory_total (tick (tick w))) as [usage Hu].
  exists limit, usage.
  unfold get_memory_info, psutil_virtual_memory, psutil_swap_memory, bind at 1 2.
  cbn [ticks tick vmem_at swap_at].
  rewrite (bind_ok _ _ _ _ _ Hl), (bind_ok _ _ _ _ _ Hu). reflexivity.
Qed.

(** [used / total] lies between 0 and 1 when [0 <= used <= total]. *)
Lemma ratio_in_unit used total :
  0 <= used <= total -> total <> 0 ->
  (0 <= inject_Z used / inject_Z total <= 1)%Q.
Proof.
  intros [H0 H1] Hz.
  destruct total as [|t|t]; [congruence| |lia].
  unfold Qle, Qdiv, Qmult, Qinv, inject_Z; cbn. split; nia.
Qed.

(** So [used / total * 100], rounded twice, lies between 0 and 100. *)
Lemma percent_in_bounds rnd used total :
  rounding_sound rnd -> 0 <= used <= total -> total <> 0 ->
  (0 <= rnd (rnd (inject_Z used / inject_Z total) * 100) <= 100)%Q.
Proof.
  intros [Hmono [H0 [H1 H100]]] Hused Hz.
  destruct (ratio_in_unit used total Hused Hz) as [Hlo Hhi].
  apply Hmono in Hlo. apply Hmono in Hhi. rewrite H0 in Hlo. rewrite H1 in Hhi.
  set (r := rnd (inject_Z used / inject_Z total)%Q) in *.
  assert (Hlo' : (0 <= r * 100)%Q) by lra.
  assert (Hhi' : (r * 100 <= 100)%Q) by lra.
  apply Hmono in Hlo'. apply Hmono in Hhi'. rewrite H0 in Hlo'. rewrite H100 in Hhi'.
  now split.
Qed.

Lemma partition_record_in_range partition u percent :
  (0 <= percent <= 100)%Q -> percent_in_range (partition_record partition u percent).
Proof. intros H. now exists percent. Qed.

(** The loop over the partitions keeps every record in range. *)
Lemma partitions_loop_in_range w mounted :
  rounding_sound (fround w) ->
  Forall (fun partition => sane_usage (usage_of w (mountpoint partition))) mounted ->
  forall acc w' records,
    Forall percent_in_range acc ->
    for_each mounted acc (fun partitions partition =>
      try_except
        (partition_usage <- disk_usage (mountpoint partition) ;;
         ratio <- truediv (du_used partition_usage) (du_total partition_usage) ;;
         percent <- float_mul ratio 100 ;;
         ret (partitions ++ [partition_record partition partition_usage percent])%list)
        is_PermissionError (fun _ => ret partitions)) w
    = (w', Ok records) ->
    w' = w /\ Forall percent_in_range records.
Proof.
  intros Hrnd.
  induction mounted as [|partition rest IH]; intros Hsane acc w' records Hacc.
  - cbn. now intros [= <- <-].
  - inversion Hsane as [|? ? Hhere Hrest]; subst.
    rewrite for_each_cons. unfold bind at 1, try_except at 1, bind at 1, disk_usage, os_error.
    destruct (fault w SysStatvfs (mountpoint partition)) as [[n s]|].
    + destruct (is_PermissionError _); [|discriminate].
      unfold ret at 1. now apply IH.
    + unfold bind at 1, truediv.
      destruct (du_total (usage_of w (mountpoint partition)) =? 0) eqn:Hz; [discriminate|].
      unfold bind at 1, float_mul. unfold ret at 1. apply IH; [assumption|].
      apply Forall_app; split; [assumption|]. constructor; [|constructor].
      apply partition_record_in_range, percent_in_bounds; [assumption|assumption|].
      now apply Z.eqb_neq.
Qed.

(** C9: every percent field of the snapshots lies between 0 and 100.  The
    memory and swap percentages are those of [psutil], passed on as they
    are; the disk percentages are [used / total * 100] over the counters of
    [statvfs].  So the bounds are those of the sources: they hold when the
    two [psutil] readings are percentages and when [statvfs] reports
    [0 <= used <= total] for the root and for the mounted partitions, with a
    rounding of floats that keeps the order and leaves 0, 1 and 100 as they
    are.  The memory snapshot is always produced. *)
Theorem percent_fields_in_range :
  forall w : World,
    ((0 <= vm_percent (vmem_at w (ticks w)) <= 100)%Q ->
     (0 <= sw_percent (swap_at w (S (ticks w))) <= 100)%Q ->
     exists w' snapshot virtual_memory swap_memory,
       get_memory_info w = (w', Ok snapshot)
       /\ dict_get "virtual_memory" snapshot = Some virtual_memory
       /\ percent_in_range virtual_memory
       /\ dict_get "swap_memory" snapshot = Some swap_memory
       /\ percent_in_range swap_memory)
    /\ (rounding_sound (fround w) ->
        sane_usage (usage_of w "/") ->
        Forall (fun partition => sane_usage (usage_of w (mountpoint partition)))
               (partitions w) ->
        forall w' snapshot,
          get_disk_info w = (w', Ok snapshot) ->
          exists root_disk partitions,
            dict_get "root_disk" snapshot = Some root_disk
            /\ percent_in_range root_disk
            /\ dict_get "partitions" snapshot = Some (VList partitions)
            /\ Forall percent_in_range partitions).
Proof.
  intros w. split.
  - intros Hvm Hsw. destruct (get_memory_info_run w) as [limit [usage Hrun]].
    rewrite Hrun. do 4 eexists. split; [reflexivity|].
    split; [reflexivity|]. split; [eexists; split; [reflexivity|apply Hvm]|].
    split; [reflexivity|]. eexists; split; [reflexivity|apply Hsw].
  - intros Hrnd Hroot Hsane w' snapshot.
    unfold get_disk_info, bind at 1, disk_usage at 1, os_error.
    destruct (fault w SysStatvfs "/") as [[n s]|]; [discriminate|].
    unfold bind at 1, psutil_disk_partitions. unfold bind at 1.
    match goal with
    | |- context [for_each ?l ?a ?b w] => destruct (for_each l a b w) as [w1 [records|e]] eqn:Hloop
    end; [|discriminate].
    apply (partitions_loop_in_range w _ Hrnd Hsane) in Hloop as [-> Hrecords]; [|constructor].
    unfold bind, truediv.
    destruct (du_total (usage_of w "/") =? 0) eqn:Hz; [discriminate|].
    unfold float_mul, ret. intros [= <- <-].
    eexists. exists records.
    split; [reflexivity|]. split; [|split; [reflexivity|assumption]].
    eexists; split; [reflexivity|].
    apply percent_in_bounds; [assumption|assumption|now apply Z.eqb_neq].
Qed.

Lemma usage0_sane p : sane_usage (Sim.usage0 p).
Proof.
  unfold sane_usage, Sim.usage0.
  destruct (String.eqb p "/mnt/usb"); [cbn; lia|].
  destruct (String.eqb p "/app/data"); cbn; lia.
Qed.

Lemma steady_percent_in_range : (0 <= 50 <= 100)%Q /\ (0 <= 25 <= 100)%Q.
Proof. unfold Qle; cbn; lia. Qed.

Lemma exact_rounding_sound : rounding_sound (fun q => q).
Proof.
  split; [now intros x y H|]. split; [reflexivity|]. split; reflexivity.
Qed.

(** The snapshots of a container with two partitions. *)
Lemma percent_fields_in_range_witness :
  (exists w' snapshot virtual_memory swap_memory,
     get_memory_info Sim.container = (w', Ok snapshot)
     /\ dict_get "virtual_memory" snapshot = Some virtual_memory
     /\ percent_in_range virtual_memory
     /\ dict_get "swap_memory" snapshot = Some swap_memory
     /\ percent_in_range swap_memory)
  /\ (exists snapshot root_disk partitions,
        get_disk_info Sim.container = (Sim.container, Ok snapshot)
        /\ dict_get "root_disk" snapshot = Some root_disk
        /\ percent_in_range root_disk
        /\ dict_get "partitions" snapshot = Some (VList partitions)
        /\ Forall percent_in_range partitions).
Proof.
  split.
  - apply (percent_fields_in_range Sim.container); apply steady_percent_in_range.
  - assert (Hrun : exists snapshot,
              get_disk_info Sim.container = (Sim.container, Ok snapshot))
      by (eexists; reflexivity).
    destruct Hrun as [snapshot Hrun].
    destruct (proj2 (percent_fields_in_range Sim.container) exact_rounding_sound
                (usage0_sane _)
                (proj2 (Forall_forall _ _) (fun partition _ => usage0_sane _)) _ _ Hrun)
      as [root_disk [partitions [Hr [Hrp [Hp Hpp]]]]].
    exists snapshot, root_disk, partitions. tauto.
Defined.

(** Whenever [statvfs] succeeds on a mounted partition and reports a total
    of 0, the loop over the partitions raises. *)
Lemma partitions_loop_zero_total w mounted partition :
  In partition mounted ->
  fault w SysStatvfs (mountpoint partition) = None ->
  du_total (usage_of w (mountpoint partition)) = 0 ->
  forall acc,
    raised (snd (for_each mounted acc (fun partitions partition =>
      try_except
        (partition_usage <- disk_usage (mountpoint partition) ;;
         ratio <- truediv (du_used partition_usage) (du_total partition_usage) ;;
         percent <- float_mul ratio 100 ;;
         ret (partitions ++ [partition_record partition partition_usage percent])%list)
        is_PermissionError (fun _ => ret partitions)) w)) = true.
Proof.
  intros Hin Hf Hz.
  induction mounted as [|x rest IH]; intros acc; [destruct Hin|].
  rewrite for_each_cons. unfold bind at 1, try_except at 1, bind at 1, disk_usage, os_error.
  destruct Hin as [->|Hin].
  - rewrite Hf. unfold bind at 1, truediv. now rewrite Hz.
  - destruct (fault w SysStatvfs (mountpoint x)) as [[n s]|].
    + destruct (is_PermissionError _); [|reflexivity].
      unfold ret at 1. now apply IH.
    + unfold bind at 1, truediv.
      destruct (du_total (usage_of w (mountpoint x)) =? 0); [reflexivity|].
      unfold bind at 1, float_mul. unfold ret at 1. now apply IH.
Qed.

(** So the disk collection returns no snapshot on such a machine. *)
Lemma partition_without_blocks_fails w partition :
  In partition (partitions w) ->
  fault w SysStatvfs (mountpoint partition) = None ->
  du_total (usage_of w (mountpoint partition)) = 0 ->
  raised (snd (get_disk_info w)) = true.
Proof.
  intros Hin Hf Hz.
  unfold get_disk_info, bind at 1, disk_usage at 1, os_error.
  destruct (fault w SysStatvfs "/") as [[n s]|]; [reflexivity|].
  unfold bind at 1, psutil_disk_partitions. unfold bind at 1.
  pose proof (partitions_loop_zero_total w (partitions w) partition Hin Hf Hz []) as Hloop.
  match goal with
  | |- context [for_each ?l ?a ?b w] => destruct (for_each l a b w) as [w1 [records|e]]
  end; [discriminate Hloop|reflexivity].
Qed.

(** C1: a mounted partition whose total size is 0 is not left out of the
    result.  The division [used / total] raises [ZeroDivisionError] inside
    the [try] whose only handler is for [PermissionError], so the whole disk
    collection fails.  Here [/mnt/usb] reports no blocks; the two other
    partitions are in order. *)
Theorem zero_total_partition_raises :
  In Sim.sdb1 (partitions Sim.blockless_mount)
  /\ du_total (usage_of Sim.blockless_mount (mountpoint Sim.sdb1)) = 0
  /\ fault Sim.blockless_mount SysStatvfs (mountpoint Sim.sdb1) = None
  /\ get_disk_info Sim.blockless_mount
     = (Sim.blockless_mount, Raise (ZeroDivisionError "division by zero")).
Proof.
  split; [right; left; reflexivity|].
  split; [reflexivity|]. split; reflexivity.
Qed.

(** A partition that may not be examined is left out and the others are
    reported: the handler of [PermissionError] at work. *)
Example denied_partition_left_out :
  exists snapshot root_disk,
    get_disk_info Sim.private_volume = (Sim.private_volume, Ok snapshot)
    /\ dict_get "partitions" snapshot
       = Some (VList [partition_record Sim.sda1 (Sim.usage0 "/")
                        (inject_Z 250 / inject_Z 1000 * 100)])
    /\ dict_get "root_disk" snapshot = Some root_disk.
Proof. do 2 eexists. split; [reflexivity|]. split; reflexivity. Qed.

End Metrics.

(** ** Load generation *)

Module Load.
Import Py OS App OSFacts Reference Acceptance More.
Local Open Scope py_scope.

Lemma index_sized_in n : minsize <= n <= maxsize -> index_sized n = true.
Proof.
  intros [Hlo Hhi]. unfold index_sized.
  now rewrite (proj2 (Z.leb_le _ _) Hlo), (proj2 (Z.leb_le _ _) Hhi).
Qed.


Lemma request_index_sized size : 0 <= size <= 1000 -> index_sized (size * 1024 * 1024) = true.
Proof. intros H. apply index_sized_in. unfold minsize, maxsize. lia. Qed.

Lemma dirname_test_file : dirname test_file = "/app/data".
Proof. reflexivity. Qed.

Lemma components_test_file : components test_file = ["app"; "data"; "test_file.bin"].
Proof. reflexivity. Qed.

(** *** [allocate_memory] *)

Lemma allocate_memory_over_cap size w :
  size > 1000 ->
  allocate_memory size w = (w, Raise (HTTPException 400 "Size too large (max 1000MB)")).
Proof.
  intros H. unfold allocate_memory.
  rewrite Z.gtb_ltb. now rewrite (proj2 (Z.ltb_lt 1000 size)) by lia.
Qed.



Lemma allocate_memory_exhausted size w :
  0 <= size <= 1000 -> heap_free w < size * 1024 * 1024 ->
  allocate_memory size w = (w, Raise (HTTPException 507 "Insufficient memory")).
Proof.
  intros H Hfree. unfold allocate_memory.
  rewrite Z.gtb_ltb, (proj2 (Z.ltb_ge 1000 size)) by lia.
  unfold try_except, bind, bytearray.
  rewrite (request_index_sized _ H). cbn [negb].
  rewrite (proj2 (Z.ltb_ge (size * 1024 * 1024) 0)) by lia.
  unfold bind, allocate. now rewrite (proj2 (Z.ltb_lt _ _) Hfree).
Qed.



(** *** [fill_disk] *)

Lemma fill_disk_over_cap size w :
  size > 100 ->
  fill_disk size w = (w, Raise (HTTPException 400 "Size too large (max 100MB)")).
Proof.
  intros H. unfold fill_disk.
  rewrite Z.gtb_ltb. now rewrite (proj2 (Z.ltb_lt 100 size)) by lia.
Qed.

Lemma fill_disk_in_cap size w :
  size <= 100 ->
  fill_disk size w
  = try_except (fill_body size) is_OSError
      (fun e => raise (HTTPException 507 ("Disk full: " ++ str_exn e))) w.
Proof.
  intros H. unfold fill_disk.
  now rewrite Z.gtb_ltb, (proj2 (Z.ltb_ge 100 size)) by lia.
Qed.













(** *** [cleanup_disk] *)

Lemma cleanup_disk_absent w :
  test_file_exists w = false ->
  cleanup_disk w = (tick w, Ok (not_found (now_at w (ticks w)))).
Proof.
  unfold test_file_exists, cleanup_disk, try_except, bind, os_path_exists.
  now destruct (lookup (root w) (components test_file)).
Qed.

Lemma cleanup_disk_removes w data :
  lookup (root w) (components test_file) = Some (File data) ->
  fault w SysUnlink test_file = None ->
  exists r,
    unlink (root w) (components test_file) = Some r
    /\ cleanup_disk w = (tick (with_root r w), Ok (removed (now_at w (ticks w))))
    /\ test_file_exists (tick (with_root r w)) = false.
Proof.
  intros Hl Hf.
  destruct (unlink_found (root w) (components test_file) (File data)) as [r [Hu Hr]];
    [discriminate|assumption|].
  exists r. split; [assumption|]. split.
  - unfold cleanup_disk, try_except, bind, os_path_exists, os_remove, os_error.
    rewrite Hl. cbv beta iota. rewrite Hf, Hl, Hu. reflexivity.
  - unfold test_file_exists. cbn [root tick with_root]. now rewrite Hr.
Qed.

Lemma cleanup_disk_denied w n s :
  test_file_exists w = true ->
  fault w SysUnlink test_file = Some (n, s) ->
  cleanup_disk w
  = (w, Raise (HTTPException 500 (str_exn (OSError n s (Some test_file))))).
Proof.
  unfold test_file_exists. intros Hl Hf.
  unfold cleanup_disk, try_except, bind, os_path_exists.
  destruct (lookup (root w) (components test_file)); [|discriminate].
  unfold os_remove, os_error. now rewrite Hf.
Qed.

(** *** [stress_test] *)

Lemma for_range_succ {A} n (acc : A) body :
  for_range (N.succ n) acc body = body (for_range n acc body) (Z.of_N n).
Proof. unfold for_range. now rewrite N.peano_rect_succ. Qed.

Lemma last_square_value :
  for_range cpu_iterations 0 (fun _ i => i * i) = 999999 * 999999.
Proof.
  change cpu_iterations with (N.succ 999999). now rewrite for_range_succ.
Qed.

(** The rows built by the second loop: row [i] is [i] a hundred times. *)
Lemma data_rows_value n :
  for_range n [] (fun data i => (data ++ [repeat i row_length])%list)
  = map (fun i => repeat (Z.of_nat i) row_length) (seq 0 (N.to_nat n)).
Proof.
  induction n as [|n IH] using N.peano_ind; [reflexivity|].
  rewrite for_range_succ, IH, N2Nat.inj_succ, seq_S, map_app. cbn [map Nat.add].
  now rewrite N_nat_Z.
Qed.

Lemma stress_work_run w :
  stress_work w
  = (tick (tick (tick (tick w))),
     Ok {| start_time := time_at w (ticks w);
           cpu_start := cpu_at w (1 + ticks w);
           last_square := for_range cpu_iterations 0 (fun _ i => i * i);
           memory_start := vm_percent (vmem_at w (2 + ticks w));
           data := for_range data_rows []
                     (fun data i => (data ++ [repeat i row_length])%list);
           end_time := time_at w (3 + ticks w) |}).
Proof. reflexivity. Qed.

Lemma stress_test_run w :
  stress_test w
  = (tick (tick (tick (tick (tick (tick (tick w)))))),
     Ok (VDict
       [("message", VStr "Stress test completed");
        ("duration", VFloat (fround w (time_at w (3 + ticks w) - time_at w (ticks w))));
        ("cpu_usage", VFloat (cpu_at w (4 + ticks w)));
        ("memory_usage", VFloat (vm_percent (vmem_at w (5 + ticks w))));
        ("timestamp", VStr (now_at w (6 + ticks w)))])).
Proof. reflexivity. Qed.

(** *** The claims on the load generators *)

(** C2: a request above the safety cap is rejected before anything is
    touched.  For [size_mb > 1000], [allocate_memory] raises the 400
    rejection, and so does [fill_disk] for [size_mb > 100]; in both cases the
    world that results is the world before the call: no buffer was obtained
    from the allocator and the file system is as it was. *)
Theorem over_cap_rejected_untouched :
  forall (w : World) (size_mb : Z),
    (size_mb > 1000 ->
     allocate_memory size_mb w
     = (w, Raise (HTTPException 400 "Size too large (max 1000MB)")))
    /\ (size_mb > 100 ->
        fill_disk size_mb w
        = (w, Raise (HTTPException 400 "Size too large (max 100MB)"))).
Proof.
  intros w size_mb. split.
  - apply allocate_memory_over_cap.
  - apply fill_disk_over_cap.
Qed.

(** 1001 MB of memory and 101 MB of disk, just above the caps. *)
Lemma over_cap_rejected_untouched_witness :
  allocate_memory 1001 Sim.container
  = (Sim.container, Raise (HTTPException 400 "Size too large (max 1000MB)"))
  /\ fill_disk 101 Sim.container
     = (Sim.container, Raise (HTTPException 400 "Size too large (max 100MB)")).
Proof.
  split.
  - apply (over_cap_rejected_untouched Sim.container 1001). lia.
  - apply (over_cap_rejected_untouched Sim.container 101). lia.
Defined.




(** C4: a full disk and any other [OSError] get the same response.  The one
    handler of [fill_disk] turns every [OSError] into status 507 with a detail
    that starts with [Disk full:].  Here 10 MB are requested, within the cap:
    on a volume without room the write fails with [ENOSPC]; on a volume with
    room where the service may not create the file, [open] fails with
    [EACCES].  Both come back as 507 [Disk full: ...]. *)
Theorem every_oserror_reported_as_disk_full :
  snd (fill_disk 10 Sim.no_space)
  = Raise (HTTPException 507 "Disk full: [Errno 28] No space left on device")
  /\ snd (fill_disk 10 Sim.read_only_volume)
     = Raise (HTTPException 507
         "Disk full: [Errno 13] Permission denied: '/app/data/test_file.bin'").
Proof. split; reflexivity. Qed.

(** C8, as the code has it: [cleanup_disk] is total on the state without
    test file, where it reports [No test file found] and leaves the file
    system as it was.  When the test file exists and [os.remove] succeeds, the
    call reports [Test file removed], the file is gone, and the next call
    reports [No test file found].  When [os.remove] raises, the call fails
    with status 500 and the text of the error, and nothing has changed. *)
Theorem cleanup_disk_idempotent_when_removable :
  forall w : World,
    (test_file_exists w = false ->
     cleanup_disk w = (tick w, Ok (not_found (now_at w (ticks w)))))
    /\ (forall data,
          lookup (root w) (components test_file) = Some (File data) ->
          fault w SysUnlink test_file = None ->
          exists w1,
            cleanup_disk w = (w1, Ok (removed (now_at w (ticks w))))
            /\ test_file_exists w1 = false
            /\ cleanup_disk w1 = (tick w1, Ok (not_found (now_at w1 (ticks w1))))
            /\ root (tick w1) = root w1)
    /\ (forall n s,
          test_file_exists w = true ->
          fault w SysUnlink test_file = Some (n, s) ->
          cleanup_disk w
          = (w, Raise (HTTPException 500 (str_exn (OSError n s (Some test_file)))))).
Proof.
  intros w. split; [|split].
  - apply cleanup_disk_absent.
  - intros data Hl Hf.
    destruct (cleanup_disk_removes w data Hl Hf) as [r [_ [Hrun Hgone]]].
    exists (tick (with_root r w)). split; [assumption|]. split; [assumption|].
    split; [now apply cleanup_disk_absent|reflexivity].
  - intros n s. apply cleanup_disk_denied.
Qed.

(** A container with the test file, one without it, and one where the file
    may not be removed. *)
Lemma cleanup_disk_idempotent_when_removable_witness :
  (exists w1,
     cleanup_disk Sim.filled = (w1, Ok (removed "2024-01-01T00:00:00"))
     /\ test_file_exists w1 = false
     /\ cleanup_disk w1 = (tick w1, Ok (not_found (now_at w1 (ticks w1))))
     /\ root (tick w1) = root w1)
  /\ cleanup_disk Sim.container
     = (tick Sim.container, Ok (not_found "2024-01-01T00:00:00"))
  /\ cleanup_disk Sim.undeletable
     = (Sim.undeletable,
        Raise (HTTPException 500
          (str_exn (OSError EACCES "Permission denied" (Some test_file))))).
Proof.
  split; [|split].
  - apply (proj1 (proj2 (cleanup_disk_idempotent_when_removable Sim.filled)) "0000");
      reflexivity.
  - apply (proj1 (cleanup_disk_idempotent_when_removable Sim.container)). reflexivity.
  - apply (proj2 (proj2 (cleanup_disk_idempotent_when_removable Sim.undeletable)));
      reflexivity.
Defined.

(** C8 as stated does not hold: the test file exists, [os.remove] is denied,
    and two calls in a row fail, each with status 500. *)
Lemma cleanup_disk_fails_when_removal_denied :
  test_file_exists Sim.undeletable = true
  /\ snd (cleanup_disk Sim.undeletable)
     = Raise (HTTPException 500
         "[Errno 13] Permission denied: '/app/data/test_file.bin'")
  /\ snd (cleanup_disk (fst (cleanup_disk Sim.undeletable)))
     = Raise (HTTPException 500
         "[Errno 13] Permission denied: '/app/data/test_file.bin'")
  /\ ~ cleanup_twice_succeeds Sim.undeletable.
Proof.
  assert (H : cleanup_disk Sim.undeletable
              = (Sim.undeletable,
                 Raise (HTTPException 500
                   "[Errno 13] Permission denied: '/app/data/test_file.bin'")))
    by (apply (cleanup_disk_denied Sim.undeletable EACCES "Permission denied");
        reflexivity).
  split; [reflexivity|]. split; [now rewrite H|]. split.
  - rewrite H. cbn [fst]. now rewrite H.
  - unfold cleanup_twice_succeeds. rewrite H. cbn. intros [Hfirst _]. discriminate.
Qed.

(** C3: the samples taken before the work are dropped.  [stress_test]
    reads the clock, then [psutil.cpu_percent()] into [cpu_start], runs its
    loop of 1,000,000 multiplications, reads
    [psutil.virtual_memory().percent] into [memory_start], builds its
    10,000 rows and reads the clock again; neither [cpu_start] nor
    [memory_start] is read afterwards.  On the machine [Sim.calm], whose
    clock advances by one at each reading, the CPU percentage read before
    the loops is 5 and the one read after them 12; the result has the five
    fields [message], [duration], [cpu_usage], [memory_usage] and
    [timestamp], with the duration [3 - 0] between the two clock readings
    and the percentages read after the work.  The machine [Sim.busy] reads
    90 before the loops and is otherwise the same: its result is the same.
    On every machine the result is made of the two clock readings and of
    the readings taken after the work, so nothing in a result tells what was
    sampled before the work. *)
Theorem stress_test_omits_before_samples :
  (exists locals,
     stress_work Sim.calm = (tick (tick (tick (tick Sim.calm))), Ok locals)
     /\ start_time locals = time_at Sim.calm 0
     /\ cpu_start locals = 5%Q
     /\ last_square locals = 999999 * 999999
     /\ memory_start locals = 50%Q
     /\ List.length (data locals) = N.to_nat data_rows
     /\ end_time locals = time_at Sim.calm 3)
  /\ stress_test Sim.calm
     = (tick (tick (tick (tick (tick (tick (tick Sim.calm)))))),
        Ok (VDict
          [("message", VStr "Stress test completed");
           ("duration", VFloat (inject_Z 3 - inject_Z 0));
           ("cpu_usage", VFloat 12%Q);
           ("memory_usage", VFloat 50%Q);
           ("timestamp", VStr "2024-01-01T00:00:06")]))
  /\ before_samples Sim.calm = Some (5%Q, 50%Q)
  /\ before_samples Sim.busy = Some (90%Q, 50%Q)
  /\ snd (stress_test Sim.calm) = snd (stress_test Sim.busy)
  /\ (forall w : World,
        before_samples w
        = Some (cpu_at w (1 + ticks w), vm_percent (vmem_at w (2 + ticks w)))
        /\ stress_test w
           = (tick (tick (tick (tick (tick (tick (tick w)))))),
              Ok (VDict
                [("message", VStr "Stress test completed");
                 ("duration",
                  VFloat (fround w (time_at w (3 + ticks w) - time_at w (ticks w))));
                 ("cpu_usage", VFloat (cpu_at w (4 + ticks w)));
                 ("memory_usage", VFloat (vm_percent (vmem_at w (5 + ticks w))));
                 ("timestamp", VStr (now_at w (6 + ticks w)))])))
  /\ ~ (exists report : result value -> option (Q * Q),
          forall w, report (snd (stress_test w)) = before_samples w).
Proof.
  assert (Hcalm : before_samples Sim.calm = Some (5%Q, 50%Q))
    by (unfold before_samples; now rewrite stress_work_run).
  assert (Hbusy : before_samples Sim.busy = Some (90%Q, 50%Q))
    by (unfold before_samples; now rewrite stress_work_run).
  assert (Hsame : snd (stress_test Sim.calm) = snd (stress_test Sim.busy))
    by (now rewrite !stress_test_run).
  split; [|split; [|split; [|split; [|split; [|split]]]]]; try assumption.
  - eexists. split; [apply stress_work_run|].
    cbn [start_time cpu_start last_square memory_start data end_time].
    split; [reflexivity|]. split; [reflexivity|]. split; [apply last_square_value|].
    split; [reflexivity|]. split; [|reflexivity].
    now rewrite data_rows_value, length_map, length_seq.
  - rewrite stress_test_run. reflexivity.
  - intros w. split; [|apply stress_test_run].
    unfold before_samples. now rewrite stress_work_run.
  - intros [report Hreport].
    pose proof (Hreport Sim.calm) as H1. pose proof (Hreport Sim.busy) as H2.
    rewrite Hsame, H2, Hcalm, Hbusy in H1. discriminate.
Qed.

End Load.

(** * Further properties of the service *)

(** ** The disk snapshot *)

Module DiskSnapshot.
Import Py OS App OSFacts Percent More.
Local Open Scope py_scope.

Lemma partitions_loop_collect w mounted :
  Forall (partition_tolerated w) mounted ->
  forall acc,
    for_each mounted acc (fun partitions partition =>
      try_except
        (partition_usage <- disk_usage (mountpoint partition) ;;
         ratio <- truediv (du_used partition_usage) (du_total partition_usage) ;;
         percent <- float_mul ratio 100 ;;
         ret (partitions ++ [partition_record partition partition_usage percent])%list)
        is_PermissionError (fun _ => ret partitions)) w
    = (w, Ok (acc ++ map (fun partition =>
                partition_record partition (usage_of w (mountpoint partition))
                  (percent_of w (usage_of w (mountpoint partition))))
              (filter (reportable w) mounted))%list).
Proof.
  induction mounted as [|partition rest IH]; intros Hok acc.
  - cbn. unfold ret. now rewrite List.app_nil_r.
  - inversion Hok as [|? ? Hhere Hrest]; subst.
    rewrite for_each_cons. unfold bind at 1, try_except at 1, bind at 1, disk_usage, os_error.
    unfold partition_tolerated in Hhere. cbn [filter]. unfold reportable at 1.
    destruct (fault w SysStatvfs (mountpoint partition)) as [[n s]|].
    + assert (Hperm : is_PermissionError (OSError n s (Some (mountpoint partition))) = true).
      { cbn. destruct Hhere as [-> | ->]; reflexivity. }
      rewrite Hperm. unfold ret at 1. now apply IH.
    + unfold bind at 1, truediv.
      rewrite (proj2 (Z.eqb_neq _ _) Hhere).
      unfold bind at 1, float_mul. unfold ret at 1.
      rewrite (IH Hrest). cbn [map]. now rewrite <- List.app_assoc.
Qed.

Lemma partitions_loop_returns w mounted :
  forall acc w' records,
    for_each mounted acc (fun partitions partition =>
      try_except
        (partition_usage <- disk_usage (mountpoint partition) ;;
         ratio <- truediv (du_used partition_usage) (du_total partition_usage) ;;
         percent <- float_mul ratio 100 ;;
         ret (partitions ++ [partition_record partition partition_usage percent])%list)
        is_PermissionError (fun _ => ret partitions)) w
    = (w', Ok records) ->
    Forall (partition_tolerated w) mounted.
Proof.
  induction mounted as [|partition rest IH]; intros acc w' records; [constructor|].
  rewrite for_each_cons. unfold bind at 1, try_except at 1, bind at 1, disk_usage, os_error.
  unfold partition_tolerated at 1.
  destruct (fault w SysStatvfs (mountpoint partition)) as [[n s]|] eqn:Hf.
  - destruct (is_PermissionError _) eqn:Hperm; [|discriminate].
    unfold ret at 1. intros Hrest. constructor; [|now apply IH in Hrest].
    unfold partition_tolerated. rewrite Hf. cbn in Hperm.
    apply orb_true_iff in Hperm as [H|H]; apply Z.eqb_eq in H; auto.
  - unfold bind at 1, truediv.
    destruct (du_total (usage_of w (mountpoint partition)) =? 0) eqn:Hz; [discriminate|].
    unfold bind at 1, float_mul. unfold ret at 1. intros Hrest.
    constructor; [|now apply IH in Hrest].
    unfold partition_tolerated. rewrite Hf. now apply Z.eqb_neq.
Qed.

Lemma get_disk_info_run w :
  disk_collectable w -> get_disk_info w = (w, Ok (disk_snapshot w)).
Proof.
  intros [Hroot [Hz Hparts]].
  unfold get_disk_info, bind at 1, disk_usage at 1, os_error. rewrite Hroot.
  unfold bind at 1, psutil_disk_partitions.
  rewrite (bind_ok _ _ _ _ _ (partitions_loop_collect w _ Hparts [])).
  unfold bind at 1, truediv. rewrite (proj2 (Z.eqb_neq _ _) Hz).
  reflexivity.
Qed.

(** X1: when [statvfs] answers for the root with a total other than 0, and
    each mounted partition either is denied ([PermissionError]) or has a
    total other than 0, [get_disk_info] returns, changes nothing, and lists
    exactly the partitions that were not denied, in the order of
    [psutil.disk_partitions()], each with
    [percent = used / total * 100]. *)
Theorem disk_snapshot_when_collectable :
  forall w : World,
    disk_collectable w -> get_disk_info w = (w, Ok (disk_snapshot w)).
Proof. intros w. apply get_disk_info_run. Qed.

Lemma container_collectable : disk_collectable Sim.container.
Proof.
  split; [reflexivity|]. split; [discriminate|].
  repeat constructor; unfold partition_tolerated; cbn; discriminate.
Qed.

Lemma private_volume_collectable : disk_collectable Sim.private_volume.
Proof.
  split; [reflexivity|]. split; [discriminate|].
  constructor; [unfold partition_tolerated; cbn; discriminate|].
  constructor; [|constructor]. unfold partition_tolerated. cbn. now left.
Qed.

(** Two partitions reported; one of two partitions denied and left out. *)
Lemma disk_snapshot_when_collectable_witness :
  get_disk_info Sim.container = (Sim.container, Ok (disk_snapshot Sim.container))
  /\ get_disk_info Sim.private_volume
     = (Sim.private_volume, Ok (disk_snapshot Sim.private_volume))
  /\ filter (reportable Sim.private_volume) (partitions Sim.private_volume) = [Sim.sda1].
Proof.
  split; [|split].
  - apply (disk_snapshot_when_collectable Sim.container), container_collectable.
  - apply (disk_snapshot_when_collectable Sim.private_volume), private_volume_collectable.
  - reflexivity.
Defined.

(** X2: [get_disk_info] returns a snapshot in no other case.  If it returns,
    then [statvfs] answered for the root with a total other than 0, and no
    mounted partition met an [OSError] other than [PermissionError] or
    reported a total of 0: one stale mount fails the whole request. *)
Theorem disk_snapshot_only_when_collectable :
  forall (w w' : World) (snapshot : value),
    get_disk_info w = (w', Ok snapshot) ->
    disk_collectable w /\ w' = w /\ snapshot = disk_snapshot w.
Proof.
  intros w w' snapshot Hrun.
  assert (Hc : disk_collectable w).
  { revert Hrun. unfold get_disk_info, bind at 1, disk_usage at 1, os_error.
    destruct (fault w SysStatvfs "/") as [[n s]|] eqn:Hroot; [discriminate|].
    unfold bind at 1, psutil_disk_partitions. unfold bind at 1.
    match goal with
    | |- context [for_each ?l ?a ?b w] =>
        destruct (for_each l a b w) as [w1 [records|e]] eqn:Hloop
    end; [|discriminate].
    apply partitions_loop_returns in Hloop.
    unfold bind at 1, truediv.
    destruct (du_total (usage_of w "/") =? 0) eqn:Hz; [discriminate|].
    intros _. split; [assumption|]. split; [now apply Z.eqb_neq|assumption]. }
  rewrite (get_disk_info_run w Hc) in Hrun.
  injection Hrun as <- <-. auto.
Qed.

(** A machine on which the snapshot is returned. *)
Lemma disk_snapshot_only_when_collectable_witness :
  disk_collectable Sim.container.
Proof.
  exact (proj1 (disk_snapshot_only_when_collectable Sim.container Sim.container
                  (disk_snapshot Sim.container) (get_disk_info_run _ container_collectable))).
Defined.

End DiskSnapshot.

(** ** The memory snapshot and the environment *)

Module Snapshots.
Import Py OS App OSFacts Reference VolumeRecord More.
Local Open Scope py_scope.

(** The readers look at the file system only: the readings taken before
    them do not change what they return. *)
Lemma readers_after_readings w :
  snd (get_memory_limit (tick (tick w))) = snd (get_memory_limit w)
  /\ snd (get_cgroup_memory (tick (tick w))) = snd (get_cgroup_memory w).
Proof.
  split.
  - unfold get_memory_limit, try_except, bind, read_text, os_error, int, ret, anything.
    cbn [fault root tick encoding int_max_str_digits].
    destruct (fault w SysOpenRead limit_file) as [[n s]|]; [reflexivity|].
    destruct (lookup (root w) (components limit_file)) as [[d|es]|]; try reflexivity.
    destruct (decode (encoding w) d) as [t|]; [|reflexivity].
    change (int_max_str_digits (tick (tick w))) with (int_max_str_digits w).
    now destruct (int_of_str (int_max_str_digits w) (strip (universal_newlines t))).
  - unfold get_cgroup_memory, try_except, bind, read_text, os_error, int, ret, anything.
    cbn [fault root tick encoding int_max_str_digits].
    destruct (fault w SysOpenRead usage_file) as [[n s]|]; [reflexivity|].
    destruct (lookup (root w) (components usage_file)) as [[d|es]|]; try reflexivity.
    destruct (decode (encoding w) d) as [t|]; [|reflexivity].
    change (int_max_str_digits (tick (tick w))) with (int_max_str_digits w).
    now destruct (int_of_str (int_max_str_digits w) (strip (universal_newlines t))).
Qed.

(** X3: [get_memory_info] always returns, after two readings of [psutil].
    Its [container_info] holds what [get_memory_limit] and
    [get_cgroup_memory] return on the same machine; on a machine without the
    two cgroup files both fields are null. *)
Theorem memory_snapshot_always_returned :
  forall w : World,
  exists snapshot limit usage,
    get_memory_info w = (tick (tick w), Ok snapshot)
    /\ snd (get_memory_limit w) = Ok limit
    /\ snd (get_cgroup_memory w) = Ok usage
    /\ dict_get "container_info" snapshot
       = Some (VDict [("memory_limit", of_option_int limit);
                      ("cgroup_memory", of_option_int usage)])
    /\ (lookup (root w) (components limit_file) = None ->
        lookup (root w) (components usage_file) = None ->
        dict_get "container_info" snapshot
        = Some (VDict [("memory_limit", VNone); ("cgroup_memory", VNone)])).
Proof.
  intros w.
  destruct (Metrics.get_memory_info_run w) as [limit [usage Hrun]].
  destruct (LimitResolver.get_memory_limit_total (tick (tick w))) as [limit' Hl].
  destruct (LimitResolver.get_cgroup_memory_total (tick (tick w))) as [usage' Hu].
  destruct (readers_after_readings w) as [Hl0 Hu0].
  rewrite Hl in Hl0. rewrite Hu in Hu0. cbn [snd] in Hl0, Hu0.
  assert (Hsame : limit = limit' /\ usage = usage').
  { revert Hrun. unfold get_memory_info, psutil_virtual_memory, psutil_swap_memory, bind at 1 2.
    cbn [ticks tick vmem_at swap_at].
    rewrite (bind_ok _ _ _ _ _ Hl), (bind_ok _ _ _ _ _ Hu). unfold ret.
    intros [= H1 H2]. split.
    - now destruct limit, limit'; inversion H1.
    - now destruct usage, usage'; inversion H2. }
  destruct Hsame as [<- <-].
  eexists. exists limit, usage. split; [exact Hrun|].
  split; [now symmetry|]. split; [now symmetry|]. split; [reflexivity|].
  intros Hml Hmu.
  destruct (LimitResolver.reader_cases limit_file w) as [_ [Hmiss _]].
  destruct (LimitResolver.reader_cases usage_file w) as [_ [Hmiss' _]].
  specialize (Hmiss Hml). specialize (Hmiss' Hmu).
  change (get_memory_limit w = (w, Ok None)) in Hmiss.
  change (get_cgroup_memory w = (w, Ok None)) in Hmiss'.
  rewrite Hmiss in Hl0. rewrite Hmiss' in Hu0. cbn [snd] in Hl0, Hu0.
  injection Hl0 as ->. injection Hu0 as ->. reflexivity.
Qed.

(** A machine without cgroup v1 accounting. *)
Lemma memory_snapshot_always_returned_witness :
  exists snapshot,
    snd (get_memory_info Sim.bare) = Ok snapshot
    /\ dict_get "container_info" snapshot
       = Some (VDict [("memory_limit", VNone); ("cgroup_memory", VNone)]).
Proof.
  destruct (memory_snapshot_always_returned Sim.bare)
    as [snapshot [limit [usage [Hrun [_ [_ [_ Hnone]]]]]]].
  exists snapshot. split; [now rewrite Hrun|]. apply Hnone; reflexivity.
Defined.

Lemma root_handler_run w :
  root_handler w
  = (tick w,
     Ok (VDict
       [("message", VStr "Volumes and Memory Demo");
        ("timestamp", VStr (now_at w (ticks w)));
        ("environment",
         VStr (match environ w "ENVIRONMENT" with Some v => v | None => "development" end))])).
Proof. reflexivity. Qed.

(** X4: the two handlers that report [ENVIRONMENT] disagree when it is not
    set: [GET /] answers ["development"], [GET /volumes] answers null.  When
    it is set, both answer its value, the empty string included. *)
Theorem environment_default_differs :
  forall w : World,
  exists index volumes variables,
    snd (root_handler w) = Ok index
    /\ snd (get_volume_info w) = Ok volumes
    /\ dict_get "environment_variables" volumes = Some variables
    /\ (environ w "ENVIRONMENT" = None ->
        dict_get "environment" index = Some (VStr "development")
        /\ dict_get "ENVIRONMENT" variables = Some VNone)
    /\ (forall v, environ w "ENVIRONMENT" = Some v ->
        dict_get "environment" index = Some (VStr v)
        /\ dict_get "ENVIRONMENT" variables = Some (VStr v)).
Proof.
  intros w. do 3 eexists.
  rewrite root_handler_run, Volumes.get_volume_info_run. cbn [snd].
  split; [reflexivity|]. split; [reflexivity|]. split; [reflexivity|].
  split.
  - intros H. cbn. now rewrite H.
  - intros v H. cbn. now rewrite H.
Qed.

(** [ENVIRONMENT=production] in the container; the same container with
    nothing set. *)
Lemma environment_default_differs_witness :
  (exists index volumes variables,
     snd (root_handler Sim.container) = Ok index
     /\ snd (get_volume_info Sim.container) = Ok volumes
     /\ dict_get "environment_variables" volumes = Some variables
     /\ dict_get "environment" index = Some (VStr "production")
     /\ dict_get "ENVIRONMENT" variables = Some (VStr "production"))
  /\ (exists index volumes variables,
        snd (root_handler (without_environment Sim.container)) = Ok index
        /\ snd (get_volume_info (without_environment Sim.container)) = Ok volumes
        /\ dict_get "environment_variables" volumes = Some variables
        /\ dict_get "environment" index = Some (VStr "development")
        /\ dict_get "ENVIRONMENT" variables = Some VNone).
Proof.
  split.
  - destruct (environment_default_differs Sim.container)
      as [index [volumes [variables [Hi [Hv [Hvars [_ Hset]]]]]]].
    exists index, volumes, variables.
    destruct (Hset "production" eq_refl) as [H1 H2]. auto.
  - destruct (environment_default_differs (without_environment Sim.container))
      as [index [volumes [variables [Hi [Hv [Hvars [Hunset _]]]]]]].
    exists index, volumes, variables.
    destruct (Hunset eq_refl) as [H1 H2]. auto.
Defined.

(** X5: a candidate volume that exists but cannot be listed, or that is a
    regular file, is not reported as failed: its record is the full one,
    with size 0 and 0 files, whatever it holds. *)
Theorem unlistable_volume_looks_empty :
  forall (w : World) (i : nat) (path : string),
    nth_error volume_paths i = Some path ->
    (exists n, lookup (root w) (components path) = Some n) ->
    fault w SysStat path = None ->
    top_level_failure w path ->
    exists records,
      snd (get_volume_info w)
      = Ok (VDict [("volumes", VList records);
                   ("environment_variables", environment_variables w)])
      /\ nth_error records i
         = Some (VDict [("path", VStr path); ("exists", VBool true);
                        ("is_mount", VBool (mounts w path));
                        ("size", VInt 0); ("files", VInt 0)]).
Proof.
  intros w i path Hi [n Hl] Hf Htop.
  exists (map (volume_record w) volume_paths).
  rewrite Volumes.get_volume_info_run. split; [reflexivity|].
  rewrite nth_error_map, Hi. cbn [option_map]. f_equal.
  unfold volume_record. rewrite Hl, Hf.
  unfold readable_total, listed_files. now rewrite (Walk.walked_nothing _ _ Htop).
Qed.

(** [/tmp] holds a file of four bytes and may not be listed. *)
Lemma unlistable_volume_looks_empty_witness :
  exists records,
    snd (get_volume_info unlistable_tmp)
    = Ok (VDict [("volumes", VList records);
                 ("environment_variables", environment_variables unlistable_tmp)])
    /\ nth_error records 3
       = Some (VDict [("path", VStr "/tmp"); ("exists", VBool true);
                      ("is_mount", VBool false);
                      ("size", VInt 0); ("files", VInt 0)]).
Proof.
  apply (unlistable_volume_looks_empty unlistable_tmp 3 "/tmp").
  - reflexivity.
  - eexists. reflexivity.
  - reflexivity.
  - right; right. exists Sim.denied. reflexivity.
Defined.

End Snapshots.

(** ** Memory allocation *)

Module Allocation.
Import Py OS App OSFacts More.
Local Open Scope py_scope.

(** [allocate_memory] within the cap, with its loop named. *)
Lemma allocate_memory_in_cap size w :
  size <= 1000 ->
  allocate_memory size w
  = try_except
      (memory_data <- bytearray (bytes_of size) ;;
       _ <- touch_pages memory_data ;;
       timestamp <- now_isoformat ;;
       used <- psutil_virtual_memory ;;
       percent <- psutil_virtual_memory ;;
       ret (VDict
         [("message", VStr ("Allocated " ++ str_int size ++ "MB of memory"));
          ("timestamp", VStr timestamp);
          ("memory_used", VInt (vm_used used));
          ("memory_percent", VFloat (vm_percent percent))]))
      is_MemoryError (fun _ => raise (HTTPException 507 "Insufficient memory")) w.
Proof.
  intros H. unfold allocate_memory.
  now rewrite Z.gtb_ltb, (proj2 (Z.ltb_ge 1000 size)) by lia.
Qed.

Lemma touch_pages_run w a :
  exists a', touch_pages a w = (w, Ok a') /\ List.length a' = List.length a.
Proof. apply touch_loop_run. intros i. apply range3_bounds. Qed.

(** X6: for [0 <= size_mb <= 1000] the heap decides.  When the buffer of
    [size_mb * 1024 * 1024] bytes fits, [allocate_memory] returns; one buffer
    of that size was obtained; [memory_used] and [memory_percent] come from
    two readings of [psutil], taken one after the other once the buffer is
    filled.  When it does not fit, the answer is the 507
    [Insufficient memory] and the machine is as it was. *)
Theorem allocate_memory_outcome :
  forall (w : World) (size_mb : Z),
    0 <= size_mb <= 1000 ->
    (bytes_of size_mb <= heap_free w ->
     allocate_memory size_mb w
     = (tick (tick (tick (with_allocated (bytes_of size_mb :: allocated w) w))),
        Ok (VDict
          [("message", VStr ("Allocated " ++ str_int size_mb ++ "MB of memory"));
           ("timestamp", VStr (now_at w (ticks w)));
           ("memory_used", VInt (vm_used (vmem_at w (1 + ticks w))));
           ("memory_percent", VFloat (vm_percent (vmem_at w (2 + ticks w))))])))
    /\ (heap_free w < bytes_of size_mb ->
        allocate_memory size_mb w = (w, Raise (HTTPException 507 "Insufficient memory"))).
Proof.
  intros w size_mb Hsize. split; intros Hheap.
  - rewrite allocate_memory_in_cap by lia.
    set (w1 := with_allocated (bytes_of size_mb :: allocated w) w).
    destruct (touch_pages_run w1 (repeat 0 (Z.to_nat (bytes_of size_mb)))) as [a' [Hloop _]].
    erewrite try_ok; [reflexivity|].
    unfold bytearray. unfold bytes_of in *.
    rewrite (Load.request_index_sized _ Hsize). cbn [negb].
    rewrite (proj2 (Z.ltb_ge (size_mb * 1024 * 1024) 0)) by lia.
    unfold bind at 1. unfold bind at 1, allocate.
    rewrite (proj2 (Z.ltb_ge _ _) Hheap). fold w1. unfold ret at 1.
    rewrite (bind_ok _ _ _ _ _ Hloop). reflexivity.
  - apply Load.allocate_memory_exhausted; assumption.
Qed.

(** No megabyte at all, and 5 MB on a machine with 4 MB left. *)
Lemma allocate_memory_outcome_witness :
  (exists response,
     allocate_memory 0 Sim.container
     = (tick (tick (tick (with_allocated [0] Sim.container))), Ok response)
     /\ dict_get "message" response = Some (VStr "Allocated 0MB of memory"))
  /\ allocate_memory 5 (with_heap 4194304 Sim.container)
     = (with_heap 4194304 Sim.container, Raise (HTTPException 507 "Insufficient memory")).
Proof.
  split.
  - eexists. split.
    + apply (allocate_memory_outcome Sim.container 0); [lia|]. unfold bytes_of, heap_free, maxsize. cbn. lia.
    + reflexivity.
  - apply (allocate_memory_outcome (with_heap 4194304 Sim.container) 5); [lia|].
    unfold bytes_of, heap_free, maxsize. cbn. lia.
Defined.

(** *** The buffer *)

(** A count that the heap can give fits an index. *)
Lemma heap_free_index w n : 0 <= n <= heap_free w -> index_sized n = true.
Proof.
  intros [H0 Hfit]. apply Load.index_sized_in.
  pose proof (Z.le_min_r (heap_limit w) maxsize) as Hmax. fold (heap_free w) in Hmax.
  split; [|lia]. apply Z.le_trans with 0; [discriminate|assumption].
Qed.

Lemma bytearray_fits w n :
  0 <= n <= heap_free w ->
  bytearray n w = (with_allocated (n :: allocated w) w, Ok (repeat 0 (Z.to_nat n))).
Proof.
  intros H. unfold bytearray. rewrite (heap_free_index w n H). cbn [negb].
  rewrite (proj2 (Z.ltb_ge n 0)) by lia.
  unfold bind, allocate. now rewrite (proj2 (Z.ltb_ge _ _) (proj2 H)).
Qed.

Lemma setitem_nat_nth a i v a' :
  setitem_nat a i v = Some a' ->
  forall j d, nth j a' d = if Nat.eqb j i then v else nth j a d.
Proof.
  revert i a'; induction a as [|x a IH]; intros i a'; [discriminate|].
  destruct i as [|i]; cbn.
  - intros [= <-] j d. now destruct j.
  - destruct (setitem_nat a i v) as [r|] eqn:E; [|discriminate].
    intros [= <-] j d. destruct j as [|j]; [reflexivity|]. cbn. now apply IH.
Qed.

(** After a loop of stores of 1, the bytes at the indices of the loop are 1
    and the others are as before. *)
Lemma store_loop_content w indices :
  forall a a',
    (forall i, In i indices -> 0 <= i) ->
    for_each indices a (fun memory_data i => setitem memory_data i 1) w = (w, Ok a') ->
    forall j,
      (In (Z.of_nat j) indices -> (j < List.length a)%nat -> nth j a' 0 = 1)
      /\ (~ In (Z.of_nat j) indices -> nth j a' 0 = nth j a 0).
Proof.
  induction indices as [|i rest IH]; intros a a' Hpos.
  - cbn. unfold ret. intros [= <-] j. split; [intros []|reflexivity].
  - rewrite for_each_cons. unfold bind at 1, setitem at 1.
    destruct (setitem_nat a (Z.to_nat i) 1) as [a1|] eqn:Hs; [|discriminate].
    unfold ret at 1. intros Hrun j.
    pose proof (setitem_nat_nth _ _ _ _ Hs j 0) as Hnth.
    assert (Hlen : List.length a1 = List.length a).
    { clear -Hs. revert Hs. generalize (Z.to_nat i) as k. revert a1.
      induction a as [|x a IHa]; intros a1 k; [discriminate|].
      destruct k as [|k]; cbn.
      - now intros [= <-].
      - destruct (setitem_nat a k 1) as [r|] eqn:E; [|discriminate].
        intros [= <-]. cbn. f_equal. now apply (IHa r k). }
    destruct (IH a1 a' (fun x Hx => Hpos x (or_intror Hx)) Hrun j) as [Hin Hout].
    assert (Hi : 0 <= i) by (apply Hpos; now left).
    destruct (in_dec Z.eq_dec (Z.of_nat j) rest) as [Hrest|Hrest].
    + split; [|intros Hn; exfalso; apply Hn; now right].
      intros _ Hj. apply Hin; [assumption|now rewrite Hlen].
    + rewrite (Hout Hrest), Hnth. split.
      * intros [Hhere|Hr] _; [|contradiction].
        now rewrite (proj2 (Nat.eqb_eq j (Z.to_nat i))) by lia.
      * intros Hn.
        assert (Hne : j <> Z.to_nat i) by (intros ->; apply Hn; left; lia).
        now rewrite (proj2 (Nat.eqb_neq _ _) Hne).
Qed.

(** The indices of [range(0, n, 1024)] are the multiples of 1024 below [n]. *)
Lemma range3_multiples n j :
  In j (range3 0 n 1024) <-> 0 <= j < n /\ j mod 1024 = 0.
Proof.
  split.
  - intros Hin. split; [now apply range3_bounds|].
    unfold range3 in Hin. destruct (n <=? 0); [destruct Hin|].
    apply in_map_iff in Hin as [k [<- _]]. cbn. now rewrite Z.mod_mul.
  - intros [[H0 Hn] Hmod]. unfold range3.
    rewrite (proj2 (Z.leb_gt n 0)) by lia.
    apply in_map_iff. exists (Z.to_nat (j / 1024)). split.
    + rewrite Z2Nat.id by (apply Z.div_pos; lia).
      pose proof (Z.div_mod j 1024 ltac:(lia)). lia.
    + apply in_seq. split; [lia|]. cbn.
      apply Z2Nat.inj_lt; [apply Z.div_pos; lia|apply Z.div_pos; lia|].
      apply Z.div_lt_upper_bound; [lia|].
      pose proof (Z.mul_div_le (n - 0 + 1024 - 1) 1024 ltac:(lia)).
      pose proof (Z.mod_pos_bound (n - 0 + 1024 - 1) 1024 ltac:(lia)).
      pose proof (Z.div_mod (n - 0 + 1024 - 1) 1024 ltac:(lia)).
      pose proof (Z.div_mod j 1024 ltac:(lia)).
      nia.
Qed.

(** X7: the buffer that [allocate_memory] fills.  For [n >= 0] bytes that
    the heap can give, [bytearray(n)] followed by the loop over
    [range(0, n, 1024)] returns a buffer of [n] bytes in which the byte at
    every multiple of 1024 is 1 and every other byte is 0: each 1024-byte
    stride is written once, the last one included when [n] is no multiple of
    1024. *)
Theorem every_stride_touched :
  forall (w : World) (n : Z),
    0 <= n <= heap_free w ->
    exists buffer,
      bind (bytearray n) touch_pages w
      = (with_allocated (n :: allocated w) w, Ok buffer)
      /\ Z.of_nat (List.length buffer) = n
      /\ forall j : nat,
           Z.of_nat j < n ->
           nth j buffer 0 = if Z.of_nat j mod 1024 =? 0 then 1 else 0.
Proof.
  intros w n [H0 Hfit].
  set (w1 := with_allocated (n :: allocated w) w).
  set (zeros := repeat 0 (Z.to_nat n)).
  assert (Hlen0 : Z.of_nat (List.length zeros) = n)
    by (unfold zeros; rewrite repeat_length; lia).
  destruct (touch_pages_run w1 zeros) as [buffer [Hrun Hlen]].
  exists buffer. split; [|split].
  - rewrite (bind_ok _ _ _ _ _ (bytearray_fits w n (conj H0 Hfit))).
    fold w1 zeros. exact Hrun.
  - now rewrite Hlen.
  - intros j Hj.
    destruct (store_loop_content w1 _ zeros buffer
                (fun i Hi => proj1 (range3_bounds _ _ Hi)) Hrun j) as [Hin Hout].
    rewrite Hlen0 in Hin, Hout.
    destruct (Z.of_nat j mod 1024 =? 0) eqn:Hmod.
    + apply Z.eqb_eq in Hmod. apply Hin.
      * apply range3_multiples. lia.
      * apply Nat2Z.inj_lt. lia.
    + apply Z.eqb_neq in Hmod. rewrite Hout.
      * unfold zeros. now rewrite nth_repeat.
      * intros Hc. apply range3_multiples in Hc. tauto.
Qed.

(** A buffer of 2500 bytes: strides at 0, 1024 and 2048. *)
Lemma every_stride_touched_witness :
  exists buffer,
    bind (bytearray 2500) touch_pages Sim.container
    = (with_allocated [2500] Sim.container, Ok buffer)
    /\ Z.of_nat (List.length buffer) = 2500
    /\ nth 2048 buffer 0 = 1
    /\ nth 2499 buffer 0 = 0.
Proof.
  destruct (every_stride_touched Sim.container 2500) as [buffer [Hrun [Hlen Hnth]]].
  - cbn. lia.
  - exists buffer. split; [exact Hrun|]. split; [exact Hlen|]. split.
    + apply (Hnth 2048%nat). lia.
    + apply (Hnth 2499%nat). lia.
Defined.

End Allocation.

(** ** Facts on trees and walks *)

Module TreeFacts.
Import Py OS App OSFacts Reference More.
Local Open Scope py_scope.

(** Induction on a tree, with the entries of a directory. *)
Lemma node_induction (P : node -> Prop) :
  (forall d, P (File d)) ->
  (forall es, Forall (fun kv => P (snd kv)) es -> P (Dir es)) ->
  forall n, P n.
Proof.
  intros HF HD. fix IH 1. intros [d|es]; [apply HF|].
  apply HD. induction es as [|kv es IHes]; constructor; [apply IH|exact IHes].
Qed.

Lemma set_entry_same c m es : assoc c es = Some m -> set_entry c m es = es.
Proof.
  induction es as [|[k v] es IH]; cbn; [discriminate|].
  destruct (String.eqb c k) eqn:E.
  - intros [= ->]. apply String.eqb_eq in E. now subst.
  - intros H. now rewrite IH.
Qed.

Lemma set_entry_twice c m m' es :
  set_entry c m' (set_entry c m es) = set_entry c m' es.
Proof.
  induction es as [|[k v] es IH]; cbn.
  - now rewrite String.eqb_refl.
  - destruct (String.eqb c k) eqn:E; cbn; rewrite ?String.eqb_refl, ?E; [reflexivity|].
    now rewrite IH.
Qed.

Lemma del_set_entry c m es : assoc c es = None -> del_entry c (set_entry c m es) = es.
Proof.
  unfold del_entry. induction es as [|[k v] es IH]; cbn.
  - now rewrite String.eqb_refl.
  - destruct (String.eqb c k) eqn:E; [discriminate|].
    intros H. cbn. rewrite E. cbn. now rewrite (IH H).
Qed.

Lemma set_entry_absent c m es : assoc c es = None -> set_entry c m es = (es ++ [(c, m)])%list.
Proof.
  induction es as [|[k v] es IH]; cbn; [reflexivity|].
  destruct (String.eqb c k); [discriminate|]. intros H. now rewrite (IH H).
Qed.

Lemma assoc_set_entry_other c c' m es :
  c' <> c -> assoc c' (set_entry c m es) = assoc c' es.
Proof.
  intros Hne. induction es as [|[k v] es IH]; cbn.
  - now rewrite (proj2 (String.eqb_neq c' c) Hne).
  - destruct (String.eqb c k) eqn:E; cbn.
    + apply String.eqb_eq in E. subst k.
      now rewrite (proj2 (String.eqb_neq c' c) Hne).
    + destruct (String.eqb c' k); [reflexivity|assumption].
Qed.

(** Creating the directory of the test file where it exists changes
    nothing, whatever [mkdir] answers. *)
Lemma os_makedirs_existing w es :
  lookup (root w) (components (dirname test_file)) = Some (Dir es) ->
  os_makedirs (dirname test_file) w = (w, Ok tt).
Proof.
  intros Hdir.
  assert (Happ : exists n, lookup (root w) (components "/app") = Some n).
  { change (components (dirname test_file)) with ["app"; "data"] in Hdir.
    change (components "/app") with ["app"]. cbn [lookup] in *.
    destruct (root w) as [d|es0]; [discriminate|].
    destruct (assoc "app" es0) as [n|]; [now exists n|discriminate]. }
  destruct Happ as [n Happ].
  change (os_makedirs (dirname test_file) w)
    with (bind (os_path_exists "/app") (fun found =>
            if found : bool
            then try_except (os_mkdir "/app/data") is_OSError
                   (fun e =>
                      is_dir <- os_path_isdir "/app/data" ;;
                      if is_dir : bool then ret tt else raise e)
            else
              try_except
                (makedirs (String.length "/app/dat") "/app") is_FileExistsError
                (fun _ => ret tt) ;;
              try_except (os_mkdir "/app/data") is_OSError
                (fun e =>
                   is_dir <- os_path_isdir "/app/data" ;;
                   if is_dir : bool then ret tt else raise e)) w).
  unfold bind at 1, os_path_exists. rewrite Happ.
  change (components (dirname test_file)) with (components "/app/data") in Hdir.
  unfold try_except, os_mkdir, os_error.
  destruct (make_dir_existing _ _ _ Hdir) as [[errno message] Hmk].
  destruct (fault w SysMkdir "/app/data") as [[errno' message']|];
    [|rewrite Hmk]; cbn [is_OSError]; unfold bind, os_path_isdir; now rewrite Hdir.
Qed.

(** The second of two bindings of the same path wins. *)
Lemma put_put p :
  forall n m m' r, put n p m = Some r -> put r p m' = put n p m'.
Proof.
  induction p as [|c p IH]; intros n m m' r; [discriminate|].
  cbn [put]. destruct n as [d|es]; [discriminate|].
  destruct p as [|c' p'].
  - intros [= <-]. now rewrite set_entry_twice.
  - destruct (assoc c es) as [child|] eqn:Ha; [|discriminate].
    destruct (put child (c' :: p') m) as [child1|] eqn:E; [|discriminate].
    intros [= <-]. rewrite assoc_set_entry.
    rewrite (IH child m m' child1 E).
    destruct (put child (c' :: p') m') as [child2|]; [|reflexivity].
    now rewrite set_entry_twice.
Qed.

(** Whether a path can be bound does not depend on what is bound. *)
Lemma put_any p :
  forall n m m' r, put n p m = Some r -> exists r', put n p m' = Some r'.
Proof.
  induction p as [|c p IH]; intros n m m' r; [discriminate|].
  cbn [put]. destruct n as [d|es]; [discriminate|].
  destruct p as [|c' p'].
  - intros _. now eexists.
  - destruct (assoc c es) as [child|]; [|discriminate].
    destruct (put child (c' :: p') m) as [child1|] eqn:E; [|discriminate].
    intros _. destruct (IH child m m' child1 E) as [r' ->]. now eexists.
Qed.

Lemma unlink_cons c c' p' es :
  unlink (Dir es) (c :: c' :: p')
  = match assoc c es with
    | Some child =>
        match unlink child (c' :: p') with
        | Some child' => Some (Dir (set_entry c child' es))
        | None => None
        end
    | None => None
    end.
Proof. reflexivity. Qed.

(** Unlinking what was bound at a free path gives the tree back. *)
Lemma unlink_put p :
  forall n m r, lookup n p = None -> put n p m = Some r -> unlink r p = Some n.
Proof.
  induction p as [|c p IH]; intros n m r; [discriminate|].
  cbn [lookup put]. destruct n as [d|es]; [discriminate|].
  destruct p as [|c' p'].
  - destruct (assoc c es) as [x|] eqn:Ha; [discriminate|].
    intros _ [= <-]. cbn. now rewrite (del_set_entry _ _ _ Ha).
  - destruct (assoc c es) as [child|] eqn:Ha; [|discriminate].
    intros Hl. destruct (put child (c' :: p') m) as [child1|] eqn:E; [|discriminate].
    intros [= <-]. rewrite unlink_cons, assoc_set_entry.
    rewrite (IH child m child1 Hl E).
    now rewrite set_entry_twice, (set_entry_same _ _ _ Ha).
Qed.

(** Binding a file at a free path changes the size of no other path. *)
Lemma node_size_put_other p :
  forall n d r q,
    lookup n p = None -> put n p (File d) = Some r -> q <> p ->
    node_size (lookup r q) = node_size (lookup n q).
Proof.
  induction p as [|c p IH]; intros n d r q; [discriminate|].
  cbn [lookup put]. destruct n as [d0|es]; [discriminate|].
  destruct p as [|c' p'].
  - destruct (assoc c es) as [x|] eqn:Ha; [discriminate|].
    intros _ [= <-] Hq. destruct q as [|c2 q']; [reflexivity|].
    cbn [lookup]. destruct (String.eqb_spec c2 c) as [->|Hne].
    + rewrite assoc_set_entry, Ha.
      destruct q' as [|c3 q'']; [congruence|reflexivity].
    + now rewrite (assoc_set_entry_other _ _ _ _ Hne).
  - destruct (assoc c es) as [child|] eqn:Ha; [|discriminate].
    intros Hl. destruct (put child (c' :: p') (File d)) as [child1|] eqn:E; [|discriminate].
    intros [= <-] Hq. destruct q as [|c2 q']; [reflexivity|].
    cbn [lookup]. destruct (String.eqb_spec c2 c) as [->|Hne].
    + rewrite assoc_set_entry, Ha. apply (IH child d child1 q' Hl E). congruence.
    + now rewrite (assoc_set_entry_other _ _ _ _ Hne).
Qed.

(** What a binding below a directory does to that directory. *)
Lemma lookup_put_parent q :
  forall n c m r es,
    lookup n q = Some (Dir es) -> put n (q ++ [c]) m = Some r ->
    lookup r q = Some (Dir (set_entry c m es)).
Proof.
  induction q as [|c0 q IH]; intros n c m r es.
  - cbn. intros [= ->]. now intros [= <-].
  - cbn [lookup]. destruct n as [d|es0]; [discriminate|].
    destruct (assoc c0 es0) as [child|] eqn:Ha; [|discriminate].
    intros Hl. change ((c0 :: q) ++ [c])%list with (c0 :: (q ++ [c]))%list. cbn [put].
    destruct (q ++ [c])%list as [|c' p'] eqn:Hp; [now destruct q|].
    rewrite Ha. destruct (put child (c' :: p') m) as [child1|] eqn:E; [|discriminate].
    intros [= <-]. cbn [lookup]. rewrite assoc_set_entry.
    apply (IH child c m child1 es); [assumption|]. now rewrite Hp.
Qed.

(** The walk depends on the machine through the faults of [scandir] only. *)
Lemma walk_from_ext w w' :
  (forall p, fault w' SysScandir p = fault w SysScandir p) ->
  forall n top, walk_from w' top n = walk_from w top n.
Proof.
  intros Hf. induction n as [d|es IH] using node_induction; intros top; [reflexivity|].
  cbn [walk_from]. rewrite Hf.
  destruct (fault w SysScandir top); [reflexivity|]. f_equal.
  induction es as [|[k v] es IHes]; [reflexivity|].
  inversion IH as [|? ? Hv Hrest]; subst. cbn [flat_map fst snd].
  rewrite (IHes Hrest). f_equal.
  destruct v as [d|es']; [reflexivity|]. apply Hv.
Qed.

Lemma walked_ext w w' path :
  root w' = root w ->
  (forall p, fault w' SysScandir p = fault w SysScandir p) ->
  walked w' path = walked w path.
Proof.
  intros Hr Hf. unfold walked, os_walk. cbn [snd]. rewrite Hr.
  destruct (lookup (root w) (components path)); [|reflexivity].
  now apply walk_from_ext.
Qed.

Lemma size_or_zero_ext w w' file :
  root w' = root w -> fault w' SysStat file = fault w SysStat file ->
  size_or_zero w' file = size_or_zero w file.
Proof.
  intros Hr Hf. unfold size_or_zero, readable_size, os_path_getsize, os_error.
  rewrite Hr, Hf.
  destruct (fault w SysStat file) as [[n s]|]; [reflexivity|].
  now destruct (lookup (root w) (components file)) as [[d|es]|].
Qed.

(** The total in terms of every listed file. *)
Lemma readable_total_all w path :
  readable_total w path = sum (map (size_or_zero w) (listed_files w path)).
Proof. unfold readable_total. now rewrite <- Walk.sum_readable_only. Qed.

(** The two helpers read the tree and the faults, nothing else. *)
Lemma helpers_ext w w' path :
  root w' = root w ->
  (forall c p, fault w' c p = fault w c p) ->
  readable_total w' path = readable_total w path
  /\ listed_files w' path = listed_files w path.
Proof.
  intros Hr Hf.
  assert (Hl : listed_files w' path = listed_files w path)
    by (unfold listed_files; now rewrite (walked_ext w w' path Hr (Hf SysScandir))).
  split; [|assumption].
  rewrite !readable_total_all, Hl. f_equal.
  apply map_ext. intros f. apply size_or_zero_ext; [assumption|apply Hf].
Qed.


End TreeFacts.

(** ** Filling the disk and cleaning up *)

Module Filling.
Import Py OS App OSFacts Reference Acceptance More TreeFacts.
Local Open Scope py_scope.

Lemma os_makedirs_ok p w w1 :
  os_makedirs p w = (w1, Ok tt) -> exists r, w1 = with_root r w.
Proof.
  destruct (os_makedirs_outcome p w) as [[r ->]|[r [e [-> _]]]]; [|discriminate].
  intros [= <-]. now exists r.
Qed.

Lemma open_wb_ok p w w1 :
  open_wb p w = (w1, Ok tt) ->
  exists r, put (root w) (components p) (File EmptyString) = Some r /\ w1 = with_root r w.
Proof.
  unfold open_wb, os_error, absent.
  destruct (fault w SysOpenWrite p) as [[n s]|]; [discriminate|].
  destruct (lookup (root w) (components p)) as [[d|es]|]; try discriminate;
    (destruct (put (root w) (components p) (File EmptyString)) as [r|];
       [|destruct (why_absent (root w) (components p)); discriminate]);
    intros [= <-]; now exists r.
Qed.

Lemma write_all_ok p data w w1 :
  write_all p data w = (w1, Ok tt) ->
  fault w SysWrite p = None
  /\ exists r, put (root w) (components p) (File data) = Some r /\ w1 = with_root r w.
Proof.
  unfold write_all.
  destruct (fault w SysWrite p) as [[n s]|]; [discriminate|].
  destruct (put (root w) (components p) (File data)) as [r|]; [|discriminate].
  intros [= <-]. split; [reflexivity|]. now exists r.
Qed.

Lemma try_passed_memory {A} (m : M A) h w w' :
  m w = (w', Raise MemoryError) -> try_except m is_OSError h w = (w', Raise MemoryError).
Proof. unfold try_except; now intros ->. Qed.

Lemma length_string_of_list l :
  String.length (string_of_list_ascii l) = List.length l.
Proof. induction l; cbn; congruence. Qed.

Lemma len_fill_data size : len (fill_data size) = Z.max 0 (bytes_of size).
Proof.
  unfold fill_data, repeat_char, len.
  destruct (bytes_of size <=? 0) eqn:E.
  - apply Z.leb_le in E. cbn. lia.
  - apply Z.leb_gt in E. rewrite length_string_of_list, repeat_length. lia.
Qed.

(** The run of a fill that the file system and the heap accept. *)
Lemma fill_disk_run w size :
  size <= 100 -> minsize <= bytes_of size -> fill_accepted w = true -> buffer_fits w size ->
  exists r0 r1 r2,
    os_makedirs (dirname test_file) w = (with_root r0 w, Ok tt)
    /\ put r0 (components test_file) (File EmptyString) = Some r1
    /\ put r1 (components test_file) (File (fill_data size)) = Some r2
    /\ let w' := tick (with_root r2 (with_allocated (allocated_after w size) w)) in
       fill_disk size w
       = (w',
          Ok (VDict
            [("message", VStr ("Created " ++ str_int size ++ "MB test file"));
             ("file_path", VStr test_file);
             ("timestamp", VStr (now_at w (ticks w)));
             ("disk_usage", VInt (readable_total w' "/app/data"))])).
Proof.
  intros Hcap Hmin Hacc Hfit. rewrite Load.fill_disk_in_cap by assumption.
  unfold fill_accepted in Hacc.
  destruct (os_makedirs (dirname test_file) w) as [w1 [[]|e1]] eqn:H1; [|discriminate].
  destruct (open_wb test_file w1) as [w2 [[]|e2]] eqn:H2; [|discriminate].
  destruct (write_all test_file EmptyString w2) as [w3 [[]|e3]] eqn:H3; [|discriminate].
  destruct (os_makedirs_ok _ _ _ H1) as [r0 ->].
  destruct (open_wb_ok _ _ _ H2) as [r1 [Hr1 ->]]. cbn [root with_root] in Hr1.
  destruct (write_all_ok _ _ _ _ H3) as [Hfw [r [Hr _]]]. cbn [root with_root fault] in Hr, Hfw.
  destruct (put_any _ _ _ (File (fill_data size)) _ Hr) as [r2 Hr2].
  exists r0, r1, r2. split; [reflexivity|]. split; [assumption|]. split; [assumption|].
  cbv zeta. erewrite try_ok; [reflexivity|].
  unfold fill_body. rewrite (bind_ok _ _ _ _ _ H1), (bind_ok _ _ _ _ _ H2).
  unfold bytes_mul, allocated_after. fold (bytes_of size). fold (fill_data size).
  assert (Hidx : index_sized (bytes_of size) = true)
    by (apply Load.index_sized_in; unfold bytes_of in *; unfold maxsize; lia).
  rewrite Hidx. cbn [negb].
  destruct (bytes_of size <=? 0) eqn:E.
  - assert (Hd : fill_data size = EmptyString)
      by (unfold fill_data, repeat_char; now rewrite E).
    rewrite Hd in Hr2. unfold bind at 1, ret at 1.
    erewrite bind_ok.
    2:{ unfold write_all. cbn [fault root with_root]. rewrite Hfw, Hr2. reflexivity. }
    unfold bind at 1, now_isoformat.
    rewrite (bind_ok _ _ _ _ _ (Walk.get_directory_size_run _ "/app/data")).
    reflexivity.
  - apply Z.leb_gt in E. destruct Hfit as [Hfit|Hfit]; [lia|].
    unfold bind at 1. unfold bind at 1, allocate.
    change (heap_free (with_root r1 (with_root r0 w))) with (heap_free w).
    rewrite (proj2 (Z.ltb_ge _ _) Hfit). unfold ret at 1.
    erewrite bind_ok.
    2:{ unfold write_all. cbn [fault root with_root with_allocated].
        change (repeat_char "0" (bytes_of size)) with (fill_data size).
        rewrite Hfw, Hr2. reflexivity. }
    unfold bind at 1, now_isoformat.
    rewrite (bind_ok _ _ _ _ _ (Walk.get_directory_size_run _ "/app/data")).
    reflexivity.
Qed.


(** X9: a fill for which the heap has no room.  [open] has already created
    or emptied the test file when the buffer is built, and [MemoryError] is
    not an [OSError]: the request fails with [MemoryError] itself, neither
    the 400 nor the 507, and the test file is left empty, whatever it held
    before. *)
Theorem fill_disk_out_of_memory :
  forall (w : World) (size_mb : Z),
    0 < size_mb <= 100 -> fill_accepted w = true -> heap_free w < bytes_of size_mb ->
    exists w',
      fill_disk size_mb w = (w', Raise MemoryError)
      /\ test_file_content w' = Some EmptyString
      /\ allocated w' = allocated w.
Proof.
  intros w size [Hpos Hcap] Hacc Hheap. rewrite Load.fill_disk_in_cap by assumption.
  unfold fill_accepted in Hacc.
  destruct (os_makedirs (dirname test_file) w) as [w1 [[]|e1]] eqn:H1; [|discriminate].
  destruct (open_wb test_file w1) as [w2 [[]|e2]] eqn:H2; [|discriminate].
  destruct (os_makedirs_ok _ _ _ H1) as [r0 ->].
  destruct (open_wb_ok _ _ _ H2) as [r1 [Hr1 ->]]. cbn [root with_root] in Hr1.
  exists (with_root r1 (with_root r0 w)). split; [|split].
  - erewrite try_passed_memory; [reflexivity|].
    unfold fill_body. rewrite (bind_ok _ _ _ _ _ H1), (bind_ok _ _ _ _ _ H2).
    unfold bytes_mul. fold (bytes_of size).
    rewrite Load.index_sized_in by (unfold bytes_of, minsize, maxsize; lia). cbn [negb].
    rewrite (proj2 (Z.leb_gt _ _)) by (unfold bytes_of; lia).
    unfold bind at 1. unfold bind at 1, allocate.
    change (heap_free (with_root r1 (with_root r0 w))) with (heap_free w).
    now rewrite (proj2 (Z.ltb_lt _ _) Hheap).
  - unfold test_file_content. cbn [root with_root].
    now rewrite (lookup_put _ _ _ _ Hr1).
  - reflexivity.
Qed.


Lemma fill_disk_out_of_memory_witness :
  exists w',
    fill_disk 1 (with_heap 4096 Sim.filled) = (w', Raise MemoryError)
    /\ test_file_content (with_heap 4096 Sim.filled) = Some "0000"
    /\ test_file_content w' = Some EmptyString.
Proof.
  destruct (fill_disk_out_of_memory (with_heap 4096 Sim.filled) 1) as [w' [Hrun [Hc _]]].
  - lia.
  - reflexivity.
  - unfold bytes_of, heap_free, maxsize. cbn. lia.
  - exists w'. split; [exact Hrun|]. split; [reflexivity|exact Hc].
Defined.

(** *** Fill, then clean up *)

Lemma lookup_last q :
  forall n c es, lookup n q = Some (Dir es) -> lookup n (q ++ [c]) = assoc c es.
Proof.
  induction q as [|c0 q IH]; intros n c es.
  - cbn. intros [= ->]. cbn. now destruct (assoc c es).
  - cbn [lookup app]. destruct n as [d|es0]; [discriminate|].
    destruct (assoc c0 es0) as [child|]; [|discriminate]. apply IH.
Qed.

Lemma test_file_path :
  components test_file = (components (dirname test_file) ++ ["test_file.bin"])%list.
Proof. reflexivity. Qed.

(** The tree after a fill into an existing directory without test file. *)
Lemma fill_disk_fresh w size es :
  size <= 100 -> minsize <= bytes_of size -> fill_accepted w = true -> buffer_fits w size ->
  lookup (root w) (components (dirname test_file)) = Some (Dir es) ->
  test_file_exists w = false ->
  exists r2,
    put (root w) (components test_file) (File (fill_data size)) = Some r2
    /\ lookup (root w) (components test_file) = None
    /\ assoc "test_file.bin" es = None
    /\ let w' := tick (with_root r2 (with_allocated (allocated_after w size) w)) in
       fill_disk size w
       = (w',
          Ok (VDict
            [("message", VStr ("Created " ++ str_int size ++ "MB test file"));
             ("file_path", VStr test_file);
             ("timestamp", VStr (now_at w (ticks w)));
             ("disk_usage", VInt (readable_total w' "/app/data"))])).
Proof.
  intros Hcap Hmin Hacc Hfit Hdir Habs.
  destruct (fill_disk_run w size Hcap Hmin Hacc Hfit)
    as [r0 [r1 [r2 [Hr0 [Hr1 [Hr2 Hrun]]]]]].
  rewrite (os_makedirs_existing _ _ Hdir) in Hr0.
  injection Hr0 as Hr0. apply (f_equal root) in Hr0. cbn [root with_root] in Hr0.
  subst r0.
  rewrite (put_put _ _ _ _ _ Hr1) in Hr2.
  assert (Hnone : lookup (root w) (components test_file) = None).
  { unfold test_file_exists in Habs.
    now destruct (lookup (root w) (components test_file)). }
  exists r2. split; [assumption|]. split; [assumption|]. split; [|exact Hrun].
  rewrite test_file_path, (lookup_last _ _ _ _ Hdir) in Hnone. exact Hnone.
Qed.

(** X10: fill, then clean up.  When [/app/data] exists and holds no test
    file, a fill within the cap whose number of bytes fits an index
    ([size_mb >= -2^43]) and that the file system and the heap accept,
    followed by a cleanup whose [os.remove] is not refused, gives the file
    system back as it was: the cleanup reports [Test file removed], the
    tree is the tree before the fill, and the size and the file count of
    every directory are what they were. *)
Theorem fill_then_cleanup_restores :
  forall (w : World) (size_mb : Z) (es : list (string * node)),
    size_mb <= 100 -> minsize <= bytes_of size_mb ->
    fill_accepted w = true -> buffer_fits w size_mb ->
    lookup (root w) (components (dirname test_file)) = Some (Dir es) ->
    test_file_exists w = false ->
    fault w SysUnlink test_file = None ->
    exists w1 filled w2,
      fill_disk size_mb w = (w1, Ok filled)
      /\ cleanup_disk w1 = (w2, Ok (removed (now_at w (1 + ticks w))))
      /\ root w2 = root w
      /\ forall path,
           get_directory_size path w2 = (w2, Ok (readable_total w path))
           /\ count_files path w2
              = (w2, Ok (Z.of_nat (List.length (listed_files w path)))).
Proof.
  intros w size es Hcap Hmin Hacc Hfit Hdir Habs Hunlink.
  destruct (fill_disk_fresh w size es Hcap Hmin Hacc Hfit Hdir Habs)
    as [r2 [Hr2 [Hnone [_ Hrun]]]].
  cbv zeta in Hrun.
  set (w1 := tick (with_root r2 (with_allocated (allocated_after w size) w))) in *.
  destruct (Load.cleanup_disk_removes w1 (fill_data size)) as [r [Hu [Hclean _]]].
  { cbn [root w1 tick with_root]. now apply lookup_put in Hr2. }
  { exact Hunlink. }
  cbn [root w1 tick with_root] in Hu.
  rewrite (unlink_put _ _ _ _ Hnone Hr2) in Hu. injection Hu as <-.
  do 3 eexists. split; [exact Hrun|]. split; [exact Hclean|]. split; [reflexivity|].
  intros path.
  destruct (helpers_ext w (tick (with_root (root w) w1)) path eq_refl (fun c p => eq_refl))
    as [Ht Hl].
  rewrite Walk.get_directory_size_run, Walk.count_files_run, Ht, Hl. now split.
Qed.

(** Ten megabytes into the data volume of the container, then a cleanup. *)
Lemma fill_then_cleanup_restores_witness :
  exists w1 filled w2,
    fill_disk 10 Sim.container = (w1, Ok filled)
    /\ cleanup_disk w1 = (w2, Ok (removed "2024-01-01T00:00:01"))
    /\ root w2 = root Sim.container
    /\ get_directory_size "/app/data" w2 = (w2, Ok 7).
Proof.
  destruct (fill_then_cleanup_restores Sim.container 10 [("a.txt", File "hello"); ("sub", Dir [("b", File "xy")])])
    as [w1 [filled [w2 [Hfill [Hclean [Hroot Hsame]]]]]].
  - lia.
  - unfold bytes_of, minsize, maxsize. lia.
  - reflexivity.
  - right. unfold bytes_of, heap_free, maxsize. cbn. lia.
  - reflexivity.
  - reflexivity.
  - reflexivity.
  - exists w1, filled, w2. split; [exact Hfill|]. split; [exact Hclean|].
    split; [exact Hroot|]. exact (proj1 (Hsame "/app/data")).
Defined.



End Filling.

(** ** How the size of a directory moves *)

Module Growth.
Import Py OS App OSFacts Reference Acceptance More TreeFacts Filling.
Local Open Scope py_scope.

Lemma size_or_zero_node w file :
  size_or_zero w file
  = match fault w SysStat file with
    | Some _ => 0
    | None =>
        match node_size (lookup (root w) (components file)) with
        | Some n => n
        | None => 0
        end
    end.
Proof.
  unfold size_or_zero, readable_size, os_path_getsize, os_error.
  destruct (fault w SysStat file) as [[n s]|]; [reflexivity|].
  now destruct (lookup (root w) (components file)) as [[d|es]|].
Qed.

Lemma dirnames_with_file c d es : dirnames (es ++ [(c, File d)]) = dirnames es.
Proof. unfold dirnames. rewrite filter_app. cbn. now rewrite List.app_nil_r. Qed.

Lemma filenames_with_file c d es :
  filenames (es ++ [(c, File d)]) = (filenames es ++ [c])%list.
Proof. unfold filenames. rewrite filter_app, map_app. reflexivity. Qed.

(** What the walk of a directory lists once a file is added to it. *)
Lemma walk_with_file w top c d es :
  fault w SysScandir top = None ->
  exists below,
    walk_from w top (Dir es) = (top, dirnames es, filenames es) :: below
    /\ walk_from w top (Dir (es ++ [(c, File d)]))
       = (top, dirnames es, (filenames es ++ [c])%list) :: below.
Proof.
  intros Hf. eexists. cbn [walk_from]. rewrite Hf. split; [reflexivity|].
  rewrite dirnames_with_file, filenames_with_file, flat_map_app. cbn [flat_map snd].
  now rewrite !List.app_nil_r.
Qed.

Lemma sum_map_ext_in (f g : string -> Z) l :
  (forall x, In x l -> f x = g x) -> sum (map f l) = sum (map g l).
Proof. intros H. f_equal. now apply map_ext_in. Qed.

(** The size and the listing of [/app/data] after a fill into it. *)
Lemma fill_growth w size es :
  size <= 100 -> minsize <= bytes_of size -> fill_accepted w = true -> buffer_fits w size ->
  lookup (root w) (components (dirname test_file)) = Some (Dir es) ->
  test_file_exists w = false ->
  fault w SysScandir "/app/data" = None ->
  fault w SysStat test_file = None ->
  Forall (fun file => components file <> components test_file)
         (listed_files w "/app/data") ->
  exists w1 filled,
    fill_disk size w = (w1, Ok filled)
    /\ (forall c p, fault w1 c p = fault w c p)
    /\ mounts w1 = mounts w
    /\ environ w1 = environ w
    /\ (exists n, lookup (root w1) (components "/app/data") = Some n)
    /\ readable_total w1 "/app/data"
       = readable_total w "/app/data" + Z.max 0 (bytes_of size)
    /\ List.length (listed_files w1 "/app/data")
       = S (List.length (listed_files w "/app/data"))
    /\ dict_get "disk_usage" filled
       = Some (VInt (readable_total w "/app/data" + Z.max 0 (bytes_of size))).
Proof.
  intros Hcap Hmin Hacc Hfit Hdir Habs Hscan Hstat Hnames.
  destruct (fill_disk_fresh w size es Hcap Hmin Hacc Hfit Hdir Habs)
    as [r2 [Hr2 [Hnone [Hfree Hrun]]]].
  cbv zeta in Hrun.
  set (w1 := tick (with_root r2 (with_allocated (allocated_after w size) w))) in *.
  assert (Hdir2 : lookup r2 (components (dirname test_file))
                  = Some (Dir (es ++ [("test_file.bin", File (fill_data size))]))).
  { rewrite test_file_path in Hr2.
    rewrite (lookup_put_parent _ _ _ _ _ _ Hdir Hr2).
    now rewrite (set_entry_absent _ _ _ Hfree). }
  destruct (walk_with_file w "/app/data" "test_file.bin" (fill_data size) es Hscan)
    as [below [Hbefore Hafter]].
  assert (Hw : walked w "/app/data" = ("/app/data", dirnames es, filenames es) :: below).
  { unfold walked, os_walk. cbn [snd].
    change (components "/app/data") with (components (dirname test_file)).
    now rewrite Hdir. }
  assert (Hw1 : walked w1 "/app/data"
                = ("/app/data", dirnames es, (filenames es ++ ["test_file.bin"])%list)
                    :: below).
  { unfold walked, os_walk. cbn [snd root w1 tick with_root].
    change (components "/app/data") with (components (dirname test_file)).
    rewrite Hdir2. rewrite (walk_from_ext w w1 (fun p => eq_refl)). exact Hafter. }
  assert (Hl : listed_files w "/app/data"
               = (map (join "/app/data") (filenames es) ++ flat_map files_of below)%list).
  { unfold listed_files. now rewrite Hw. }
  assert (Hl1 : listed_files w1 "/app/data"
                = (map (join "/app/data") (filenames es)
                   ++ test_file :: flat_map files_of below)%list).
  { unfold listed_files. rewrite Hw1. cbn [flat_map]. unfold files_of at 1. cbn [fst snd].
    rewrite map_app, <- List.app_assoc. reflexivity. }
  assert (Hsame : forall file, In file (listed_files w "/app/data") ->
                    size_or_zero w1 file = size_or_zero w file).
  { intros file Hin. rewrite !size_or_zero_node. cbn [fault root w1 tick with_root with_allocated].
    destruct (fault w SysStat file); [reflexivity|].
    rewrite (node_size_put_other _ _ _ _ _ Hnone Hr2); [reflexivity|].
    now apply (proj1 (Forall_forall _ _) Hnames). }
  assert (Hnew : size_or_zero w1 test_file = Z.max 0 (bytes_of size)).
  { rewrite size_or_zero_node. cbn [fault root w1 tick with_root with_allocated].
    rewrite Hstat, (lookup_put _ _ _ _ Hr2). cbn. apply len_fill_data. }
  assert (Htotal : readable_total w1 "/app/data"
                   = readable_total w "/app/data" + Z.max 0 (bytes_of size)).
  { rewrite !readable_total_all, Hl1. rewrite Hl in Hsame |- *.
    rewrite !map_app, !Walk.sum_app. cbn [map]. unfold sum at 2. cbn [fold_right].
    fold (sum (map (size_or_zero w1) (flat_map files_of below))).
    rewrite Hnew.
    rewrite (sum_map_ext_in (size_or_zero w1) (size_or_zero w)
               (map (join "/app/data") (filenames es)))
      by (intros x Hx; apply Hsame, in_or_app; now left).
    rewrite (sum_map_ext_in (size_or_zero w1) (size_or_zero w) (flat_map files_of below))
      by (intros x Hx; apply Hsame, in_or_app; now right).
    lia. }
  rewrite Htotal in Hrun.
  exists w1. eexists. split; [exact Hrun|].
  split; [reflexivity|]. split; [reflexivity|]. split; [reflexivity|].
  split; [|split; [exact Htotal|split; [|reflexivity]]].
  - eexists. cbn [root w1 tick with_root].
    change (components "/app/data") with (components (dirname test_file)). exact Hdir2.
  - rewrite Hl1, Hl, !length_app. cbn [List.length]. lia.
Qed.

(** X12: a fill shows in the size of the volume.  Take a fill within the
    cap whose number of bytes fits an index ([size_mb >= -2^43]) and that
    the file system and the heap accept.  When [/app/data] exists, can be
    listed and holds no test file, when [stat] of the new test file does not
    fail, and when none of the paths listed below [/app/data] is the path of
    the test file, the fill adds to [get_directory_size("/app/data")]
    exactly the number of bytes written, and 1 to
    [count_files("/app/data")]; the [disk_usage] of the answer is the new
    size. *)
Theorem fill_grows_directory :
  forall (w : World) (size_mb : Z) (es : list (string * node)),
    size_mb <= 100 -> minsize <= bytes_of size_mb ->
    fill_accepted w = true -> buffer_fits w size_mb ->
    lookup (root w) (components (dirname test_file)) = Some (Dir es) ->
    test_file_exists w = false ->
    fault w SysScandir "/app/data" = None ->
    fault w SysStat test_file = None ->
    Forall (fun file => components file <> components test_file)
           (listed_files w "/app/data") ->
    exists w1 filled,
      fill_disk size_mb w = (w1, Ok filled)
      /\ get_directory_size "/app/data" w1
         = (w1, Ok (readable_total w "/app/data" + Z.max 0 (bytes_of size_mb)))
      /\ count_files "/app/data" w1
         = (w1, Ok (Z.of_nat (List.length (listed_files w "/app/data")) + 1))
      /\ dict_get "disk_usage" filled
         = Some (VInt (readable_total w "/app/data" + Z.max 0 (bytes_of size_mb))).
Proof.
  intros w size es Hcap Hmin Hacc Hfit Hdir Habs Hscan Hstat Hnames.
  destruct (fill_growth w size es Hcap Hmin Hacc Hfit Hdir Habs Hscan Hstat Hnames)
    as [w1 [filled [Hrun [_ [_ [_ [_ [Htotal [Hcount Husage]]]]]]]]].
  exists w1, filled. split; [exact Hrun|]. split; [|split; [|exact Husage]].
  - now rewrite Walk.get_directory_size_run, Htotal.
  - rewrite Walk.count_files_run, Hcount. f_equal. f_equal. lia.
Qed.

(** Ten megabytes into the data volume of the container, which holds two
    files of 7 bytes in all. *)
Lemma fill_grows_directory_witness :
  exists w1 filled,
    fill_disk 10 Sim.container = (w1, Ok filled)
    /\ get_directory_size "/app/data" w1 = (w1, Ok (7 + 10485760))
    /\ count_files "/app/data" w1 = (w1, Ok 3)
    /\ dict_get "disk_usage" filled = Some (VInt (7 + 10485760)).
Proof.
  apply (fill_grows_directory Sim.container 10
           [("a.txt", File "hello"); ("sub", Dir [("b", File "xy")])]).
  - lia.
  - unfold bytes_of, minsize, maxsize. lia.
  - reflexivity.
  - right. unfold bytes_of, heap_free, maxsize. cbn. lia.
  - reflexivity.
  - reflexivity.
  - reflexivity.
  - reflexivity.
  - repeat constructor; discriminate.
Defined.

(** X13: the fill in the volume report.  Take a fill within the cap whose
    number of bytes fits an index ([size_mb >= -2^43]) and that the file
    system and the heap accept.  When [/app/data] exists, can be listed and
    holds no test file, when [stat] fails neither on [/app/data] nor on the
    new test file, and when none of the paths listed below [/app/data] is
    the path of the test file, the record of [/app/data] in [GET /volumes]
    before the fill carries the size and the file count of the directory,
    and after the fill the size plus the bytes written and the count
    plus 1. *)
Theorem fill_shows_in_volumes :
  forall (w : World) (size_mb : Z) (es : list (string * node)),
    size_mb <= 100 -> minsize <= bytes_of size_mb ->
    fill_accepted w = true -> buffer_fits w size_mb ->
    lookup (root w) (components (dirname test_file)) = Some (Dir es) ->
    test_file_exists w = false ->
    fault w SysScandir "/app/data" = None ->
    fault w SysStat test_file = None ->
    fault w SysStat "/app/data" = None ->
    Forall (fun file => components file <> components test_file)
           (listed_files w "/app/data") ->
    exists w1 filled before after,
      fill_disk size_mb w = (w1, Ok filled)
      /\ snd (get_volume_info w)
         = Ok (VDict [("volumes", VList before);
                      ("environment_variables", VolumeRecord.environment_variables w)])
      /\ snd (get_volume_info w1)
         = Ok (VDict [("volumes", VList after);
                      ("environment_variables", VolumeRecord.environment_variables w)])
      /\ nth_error before 0
         = Some (volume_found "/app/data" (mounts w "/app/data")
                   (readable_total w "/app/data")
                   (Z.of_nat (List.length (listed_files w "/app/data"))))
      /\ nth_error after 0
         = Some (volume_found "/app/data" (mounts w "/app/data")
                   (readable_total w "/app/data" + Z.max 0 (bytes_of size_mb))
                   (Z.of_nat (List.length (listed_files w "/app/data")) + 1)).
Proof.
  intros w size es Hcap Hmin Hacc Hfit Hdir Habs Hscan Hstat Hstatdir Hnames.
  destruct (fill_growth w size es Hcap Hmin Hacc Hfit Hdir Habs Hscan Hstat Hnames)
    as [w1 [filled [Hrun [Hfault [Hmounts [Henv [[n Hn] [Htotal [Hcount _]]]]]]]]].
  exists w1, filled. do 2 eexists. split; [exact Hrun|].
  rewrite !Volumes.get_volume_info_run. cbn [snd].
  split; [reflexivity|]. split.
  { unfold VolumeRecord.environment_variables. rewrite Henv. reflexivity. }
  split.
  - cbn [map volume_paths nth_error]. f_equal. unfold VolumeRecord.volume_record.
    change (components "/app/data") with (components (dirname test_file)).
    now rewrite Hdir, Hstatdir.
  - cbn [map volume_paths nth_error]. f_equal. unfold VolumeRecord.volume_record.
    rewrite Hn, Hfault, Hstatdir, Hmounts, Htotal, Hcount. do 2 f_equal. lia.
Qed.

Lemma fill_shows_in_volumes_witness :
  exists w1 filled before after,
    fill_disk 10 Sim.container = (w1, Ok filled)
    /\ snd (get_volume_info Sim.container)
       = Ok (VDict [("volumes", VList before);
                    ("environment_variables",
                     VolumeRecord.environment_variables Sim.container)])
    /\ snd (get_volume_info w1)
       = Ok (VDict [("volumes", VList after);
                    ("environment_variables",
                     VolumeRecord.environment_variables Sim.container)])
    /\ nth_error before 0 = Some (volume_found "/app/data" true 7 2)
    /\ nth_error after 0 = Some (volume_found "/app/data" true (7 + 10485760) (2 + 1)).
Proof.
  apply (fill_shows_in_volumes Sim.container 10
           [("a.txt", File "hello"); ("sub", Dir [("b", File "xy")])]).
  - lia.
  - unfold bytes_of, minsize, maxsize. lia.
  - reflexivity.
  - right. unfold bytes_of, heap_free, maxsize. cbn. lia.
  - reflexivity.
  - reflexivity.
  - reflexivity.
  - reflexivity.
  - reflexivity.
  - repeat constructor; discriminate.
Defined.




End Growth.

(** ** The stress test *)

Module Stress.
Import Py OS App OSFacts Percent More.
Local Open Scope py_scope.

(** X15: the duration follows the clock.  [stress_test] always returns,
    after seven readings.  Its [duration] is the second reading of
    [time.time()] minus the first, rounded as floats are.  When that
    rounding keeps the order and leaves 0 as it is, as rounding to the
    nearest double does, the duration is at least 0 when the clock did not
    go back between the two readings, and at most 0 when it did, for
    instance when the wall clock is set back during the test. *)
Theorem stress_duration_follows_clock :
  forall w : World,
  exists response,
    stress_test w = (tick (tick (tick (tick (tick (tick (tick w)))))), Ok response)
    /\ dict_get "duration" response
       = Some (VFloat (fround w (time_at w (3 + ticks w) - time_at w (ticks w))))
    /\ (rounding_sound (fround w) ->
        ((time_at w (ticks w) <= time_at w (3 + ticks w))%Q ->
         (0 <= fround w (time_at w (3 + ticks w) - time_at w (ticks w)))%Q)
        /\ ((time_at w (3 + ticks w) <= time_at w (ticks w))%Q ->
            (fround w (time_at w (3 + ticks w) - time_at w (ticks w)) <= 0)%Q)).
Proof.
  intros w. eexists.
  rewrite Load.stress_test_run. split; [reflexivity|]. split; [reflexivity|].
  intros [Hmono [H0 _]]. split; intros Hclock.
  - rewrite <- H0. apply Hmono. lra.
  - rewrite <- H0. apply Hmono. lra.
Qed.

(** The clock of the container advances by three between the two
    readings. *)
Lemma stress_duration_follows_clock_witness :
  exists response,
    snd (stress_test Sim.container) = Ok response
    /\ dict_get "duration" response = Some (VFloat (inject_Z 3 - inject_Z 0))
    /\ (0 <= inject_Z 3 - inject_Z 0)%Q.
Proof.
  destruct (stress_duration_follows_clock Sim.container)
    as [response [Hrun [Hd Hsign]]].
  exists response. split; [now rewrite Hrun|]. split; [exact Hd|].
  apply (proj1 (Hsign Metrics.exact_rounding_sound)). unfold Qle. cbn. lia.
Defined.

End Stress.
